(** * Verification of the invoice field-extraction pipeline

    A shallow embedding of [regex_ocr.py] and [extract_text_from_pdf.py]
    (repository damian-dev1/invoice-automation-project) and the properties
    of its text acquisition, field recognisers, line-item parser and batch
    orchestration.

    Text model.  A Python [str] is embedded as a Rocq [string] whose
    characters are the code points 0..255 (Latin-1).  On that range the
    character predicates below are exactly Python's: [str.isspace] and the
    regex class [\s] hold for 9-13, 28-32, 133 and 160; [\d] holds for the
    ten ASCII digits; [str.lower] and the case folding of [(?i)] map A-Z and
    the upper-case letters 192-222 (215 apart) to the code point 32 above.
    The euro sign of the patterns' currency class lies outside the range and
    therefore never occurs in a text of the model. *)

From Stdlib Require Import Strings.Ascii Strings.String NArith Lia.
From stdpp Require Import base option list strings sorting gmap.

Local Open Scope N_scope.
Local Open Scope nat_scope.

(** ** Python string primitives *)

Module Py.

(** Code point of a character. *)
Definition ord (c : ascii) : N := N_of_ascii c.

Definition between (lo hi : N) (c : ascii) : bool :=
  (lo <=? ord c)%N && (ord c <=? hi)%N.

(** [str.isspace] on one character; also the regex class [\s]. *)
Definition is_space (c : ascii) : bool :=
  between 9 13 c || between 28 32 c || (ord c =? 133)%N || (ord c =? 160)%N.

(** The regex class [\d]. *)
Definition is_digit (c : ascii) : bool := between 48 57 c.

(** Line boundaries of [str.splitlines]. *)
Definition is_linebreak (c : ascii) : bool :=
  between 10 13 c || between 28 30 c || (ord c =? 133)%N.

(** [str.lower] on one character. *)
Definition lower_char (c : ascii) : ascii :=
  if between 65 90 c || (between 192 222 c && negb (ord c =? 215)%N)
  then ascii_of_N (ord c + 32)
  else c.

(** [s.lower()] *)
Fixpoint lower (s : string) : string :=
  match s with
  | EmptyString => EmptyString
  | String c s' => String (lower_char c) (lower s')
  end.

(** [len(s) == 0] *)
Definition is_empty (s : string) : bool :=
  match s with EmptyString => true | _ => false end.

(** [s.lstrip()] *)
Fixpoint lstrip (s : string) : string :=
  match s with
  | String c s' => if is_space c then lstrip s' else s
  | EmptyString => EmptyString
  end.

(** [s.rstrip()] *)
Fixpoint rstrip (s : string) : string :=
  match s with
  | EmptyString => EmptyString
  | String c s' =>
      match rstrip s' with
      | EmptyString => if is_space c then EmptyString else String c EmptyString
      | r => String c r
      end
  end.

(** [s.strip()] *)
Definition strip (s : string) : string := rstrip (lstrip s).

(** [s.split()]: the maximal runs of non-whitespace characters. *)
Fixpoint split_ws_go (cur : string) (s : string) : list string :=
  match s with
  | EmptyString => if is_empty cur then [] else [cur]
  | String c s' =>
      if is_space c
      then (if is_empty cur then [] else [cur]) ++ split_ws_go EmptyString s'
      else split_ws_go (cur +:+ String c EmptyString) s'
  end.
Definition split_ws (s : string) : list string := split_ws_go EmptyString s.

(** [s.splitlines()]: a carriage return followed by a line feed is one
    boundary, and no empty line follows a final boundary. *)
Fixpoint splitlines_go (cur : string) (s : string) : list string :=
  match s with
  | EmptyString => if is_empty cur then [] else [cur]
  | String c s' =>
      if is_linebreak c then
        match c, s' with
        | "013"%char, String "010"%char s'' => cur :: splitlines_go EmptyString s''
        | _, _ => cur :: splitlines_go EmptyString s'
        end
      else splitlines_go (cur +:+ String c EmptyString) s'
  end.
Definition splitlines (s : string) : list string := splitlines_go EmptyString s.

(** [sub in s] for strings. *)
Fixpoint contains (sub s : string) : bool :=
  String.prefix sub s ||
  match s with
  | EmptyString => false
  | String _ s' => contains sub s'
  end.

(** [sep.join(l)] *)
Fixpoint join (sep : string) (l : list string) : string :=
  match l with
  | [] => EmptyString
  | [x] => x
  | x :: l' => x +:+ sep +:+ join sep l'
  end.

(** [s[n:]] for [n <= len(s)]. *)
Fixpoint drop_str (n : nat) (s : string) : string :=
  match n, s with
  | S n', String _ s' => drop_str n' s'
  | _, _ => s
  end.

(** [s[:n]] *)
Fixpoint take_str (n : nat) (s : string) : string :=
  match n, s with
  | S n', String c s' => String c (take_str n' s')
  | _, _ => EmptyString
  end.

(** [s.split(sep)] for a non-empty separator: the pieces between the
    non-overlapping occurrences of [sep], scanned from the left. *)
Fixpoint split_sep_go (sep : string) (cur : string) (skip : nat) (s : string)
  : list string :=
  match s with
  | EmptyString => [cur]
  | String c s' =>
      match skip with
      | S k => split_sep_go sep cur k s'
      | 0 =>
          if String.prefix sep s
          then cur :: split_sep_go sep EmptyString (String.length sep - 1) s'
          else split_sep_go sep (cur +:+ String c EmptyString) 0 s'
      end
  end.
Definition split_sep (sep s : string) : list string :=
  split_sep_go sep EmptyString 0 s.

(** [sorted(set(l))] on strings: the distinct elements in ascending order
    of code points. *)
Definition sorted_set (l : list string) : list string :=
  merge_sort String.le (remove_dups l).

(** [l + [x] * n] *)
Definition pad_right {A} (l : list A) (x : A) (n : nat) : list A :=
  l ++ replicate n x.

End Py.


(** ** Backtracking regular expressions, as Python's [re] module runs them *)

Module Re.

(** The fragment of the pattern language the program uses.  A character
    class, a literal, [\s], [\d] and [.] are all [Chr] with the matching
    predicate; [(?:...)] is the expression itself; [r?], [r*], [r+] and
    [r{lo,hi}] are greedy [Repeat]s; [Group i r] is the capturing group
    numbered [i]. *)
Inductive regex : Type :=
  | Eps
  | Chr (p : ascii → bool)
  | Cat (r1 r2 : regex)
  | Alt (r1 r2 : regex)
  | Repeat (lo : nat) (hi : option nat) (r : regex)
  | Group (i : nat) (r : regex).

(** The groups matched so far, most recent binding first. *)
Definition captures : Type := list (nat * string).

Fixpoint lookup_group (i : nat) (caps : captures) : option string :=
  match caps with
  | [] => None
  | (j, t) :: caps' => if decide (j = i) then Some t else lookup_group i caps'
  end.

(** What a successful match leaves: the unread rest of the text and the
    groups. *)
Definition answer : Type := string * captures.

(** A matcher reads a prefix of the text and hands the rest to its
    continuation; [None] makes the caller backtrack. *)
Definition cont : Type := string → captures → option answer.
Definition matcher : Type := string → captures → cont → option answer.

(** The text read between [s] and its suffix [s']. *)
Definition consumed (s s' : string) : string :=
  Py.take_str (String.length s - String.length s') s.

(** Greedy bounded repetition: another iteration is tried first, and only
    when it (with everything after it) fails does the repetition stop, which
    needs [lo] to be exhausted.  Every iteration has to read at least one
    character, which is what the bodies repeated in this program's patterns
    always do; [fuel] bounds the iterations by the length of the text. *)
Fixpoint rep (body : matcher) (fuel : nat) (lo : nat) (hi : option nat)
    (s : string) (caps : captures) (k : cont) : option answer :=
  let stop := match lo with 0 => k s caps | S _ => None end in
  match fuel with
  | 0 => stop
  | S fuel' =>
      match hi with
      | Some 0 => stop
      | _ =>
          match body s caps (λ s' caps',
                  if String.length s' <? String.length s
                  then rep body fuel' (pred lo) (pred <$> hi) s' caps' k
                  else None) with
          | Some a => Some a
          | None => stop
          end
      end
  end.

(** The backtracking matcher, in continuation-passing style: alternatives
    are tried left to right and the first overall success wins. *)
Fixpoint run (r : regex) (s : string) (caps : captures) (k : cont)
  : option answer :=
  match r with
  | Eps => k s caps
  | Chr p =>
      match s with
      | String c s' => if p c then k s' caps else None
      | EmptyString => None
      end
  | Cat r1 r2 => run r1 s caps (λ s1 caps1, run r2 s1 caps1 k)
  | Alt r1 r2 =>
      match run r1 s caps k with
      | Some a => Some a
      | None => run r2 s caps k
      end
  | Repeat lo hi r1 => rep (run r1) (S (String.length s)) lo hi s caps k
  | Group i r1 =>
      run r1 s caps (λ s' caps', k s' ((i, consumed s s') :: caps'))
  end.

(** The last continuation of a match attempt at [start].  With
    [must_advance] (set by the scanning loops after an empty match) a match
    that reads nothing is refused and the matcher backtracks. *)
Definition accept (must_advance : bool) (start : string) : cont :=
  λ s' caps,
    if must_advance && (String.length s' =? String.length start)
    then None else Some (s', caps).

(** A match object: the text before the match, the matched text, the rest
    of the text and the groups. *)
Record match_obj : Type := MatchObj {
  m_pre : string;
  m_text : string;
  m_post : string;
  m_groups : captures
}.

(** [m.group(i)]: [None] when group [i] took no part in the match. *)
Definition group (i : nat) (m : match_obj) : option string :=
  lookup_group i (m_groups m).

(** One match attempt anchored at the start of [s], the text [pre] having
    been skipped before it. *)
Definition match_at (r : regex) (must_advance : bool) (pre s : string)
  : option match_obj :=
  match run r s [] (accept must_advance s) with
  | Some (post, caps) => Some (MatchObj pre (consumed s post) post caps)
  | None => None
  end.

(** [re.match(r, s)] *)
Definition re_match (r : regex) (s : string) : option match_obj :=
  match_at r false EmptyString s.

(** The leftmost match at or after the start of [s]; [must_advance] only
    constrains the attempt at the first position. *)
Fixpoint search_from (r : regex) (must_advance : bool) (pre s : string)
  : option match_obj :=
  match match_at r must_advance pre s with
  | Some m => Some m
  | None =>
      match s with
      | EmptyString => None
      | String c s' => search_from r false (pre +:+ String c EmptyString) s'
      end
  end.

(** [r.search(s)] *)
Definition search (r : regex) (s : string) : option match_obj :=
  search_from r false EmptyString s.

(** The scanning loop behind [findall] and [split]: the successive
    non-overlapping matches, each search resuming where the previous match
    ended ([m_pre] is the text skipped since then). *)
Fixpoint scan (fuel : nat) (r : regex) (must_advance : bool) (s : string)
  : list match_obj :=
  match fuel with
  | 0 => []
  | S fuel' =>
      match search_from r must_advance EmptyString s with
      | None => []
      | Some m => m :: scan fuel' r (Py.is_empty (m_text m)) (m_post m)
      end
  end.

Definition finditer (r : regex) (s : string) : list match_obj :=
  scan (2 * String.length s + 2) r false s.

(** A group that took no part in a match shows as the empty string in the
    results of [findall]. *)
Definition group_or_empty (i : nat) (m : match_obj) : string :=
  default EmptyString (group i m).

(** [r.findall(s)] for a pattern with one group: the texts of group 1. *)
Definition findall1 (r : regex) (s : string) : list string :=
  group_or_empty 1 <$> finditer r s.

(** [r.findall(s)] for a pattern with [n > 1] groups: the tuples of the
    texts of groups 1..n. *)
Definition findall (n : nat) (r : regex) (s : string) : list (list string) :=
  (λ m, (λ i, group_or_empty i m) <$> seq 1 n) <$> finditer r s.

(** [re.split(r, s)] for a pattern without groups: the texts between the
    matches and the text after the last one. *)
Fixpoint split_pieces (ms : list match_obj) (s : string) : list string :=
  match ms with
  | [] => [s]
  | m :: ms' => m_pre m :: split_pieces ms' (m_post m)
  end.
Definition split (r : regex) (s : string) : list string :=
  split_pieces (finditer r s) s.

(** *** Pattern syntax *)

Definition lit (c : ascii) : regex := Chr (λ x, bool_decide (x = c)).

(** A letter under [(?i)]: the characters are compared after lowering.
    This is exact on the code points 0..255 of the text of the model;
    beyond them Python also folds U+017F, U+0130, U+0131 and U+212A onto
    [s], [i] and [k]. *)
Definition lit_i (c : ascii) : regex :=
  Chr (λ x, bool_decide (Py.lower_char x = Py.lower_char c)).

(** A word under [(?i)]. *)
Fixpoint word_i (w : string) : regex :=
  match w with
  | EmptyString => Eps
  | String c EmptyString => lit_i c
  | String c w' => Cat (lit_i c) (word_i w')
  end.

Definition in_chars (cs : string) (c : ascii) : bool :=
  bool_decide (c ∈ list_ascii_of_string cs).

Definition ws : regex := Chr Py.is_space.
Definition digit : regex := Chr Py.is_digit.
Definition opt (r : regex) : regex := Repeat 0 (Some 1) r.
Definition star (r : regex) : regex := Repeat 0 None r.
Definition plus (r : regex) : regex := Repeat 1 None r.
Definition exactly (n : nat) (r : regex) : regex := Repeat n (Some n) r.
Definition at_least (n : nat) (r : regex) : regex := Repeat n None r.
Definition from_to (lo hi : nat) (r : regex) : regex := Repeat lo (Some hi) r.

(** [r1 r2 ... rn] in sequence. *)
Fixpoint cats (rs : list regex) : regex :=
  match rs with
  | [] => Eps
  | [r] => r
  | r :: rs' => Cat r (cats rs')
  end.

(** [r1|r2|...|rn] *)
Fixpoint alts (rs : list regex) : regex :=
  match rs with
  | [] => Chr (λ _, false)
  | [r] => r
  | r :: rs' => Alt r (alts rs')
  end.

End Re.


(** ** Exceptions, the file system and the external processes *)

(** The exceptions the modelled operations raise. *)
Inductive exn : Type :=
  | FitzError            (* PyMuPDF: the file or one of its pages cannot be read *)
  | CalledProcessError   (* [subprocess.run(check=True)]: non-zero exit status *)
  | OSError              (* [subprocess.run]: the command cannot be started *)
  | KeyError
  | IndexError
  | AttributeError.

Inductive result (A : Type) : Type :=
  | Ok (a : A)
  | Raised (e : exn).
Arguments Ok {A} a.
Arguments Raised {A} e.

Global Instance result_ret : MRet result := λ A a, Ok a.
Global Instance result_bind : MBind result := λ A B f m,
  match m with
  | Ok a => f a
  | Raised e => Raised e
  end.
Global Instance result_fmap : FMap result := λ A B f m,
  match m with
  | Ok a => Ok (f a)
  | Raised e => Raised e
  end.

(** [pathlib.Path], as far as the program uses it: a directory and the
    name of a file in it. *)
Abbreviation Path := (string * string)%type.
Definition path_name (p : Path) : string := p.2.
Definition path_join (dir : string) (name : string) : Path := (dir, name).

(** What PyMuPDF finds in a file: pages, each yielding its text or failing
    to render, or nothing it can open. *)
Inductive page : Type :=
  | PageText (t : string)
  | PageError.
Inductive pdf : Type :=
  | Pages (ps : list page)
  | Unreadable.

(** How a run of the external command [ocrmypdf] ends. *)
Inductive ocr_exit : Type :=
  | OcrDone (out : pdf)   (* exit status 0, the output file written *)
  | OcrFailed             (* non-zero exit status *)
  | OcrNotStarted.        (* the command could not be started *)

(** The state the program runs in: the files, and (as a ghost record of
    the run) the calls of [run_ocr] made so far, latest first. *)
Record world : Type := World {
  fs : gmap Path pdf;
  ocr_calls : list (Path * Path)
}.

(** Computations that read and change the world and may raise. *)
Definition M (A : Type) : Type := world → result A * world.

Global Instance M_ret : MRet M := λ A a w, (Ok a, w).
Global Instance M_bind : MBind M := λ A B f m w,
  match m w with
  | (Ok a, w') => f a w'
  | (Raised e, w') => (Raised e, w')
  end.

Definition raise {A} (e : exn) : M A := λ w, (Raised e, w).
Definition lift {A} (r : result A) : M A := λ w, (r, w).

(** [try: body / except <those for which catches holds>: handler] *)
Definition try_except {A} (body : M A) (catches : exn → bool) (handler : M A)
  : M A := λ w,
  match body w with
  | (Ok a, w') => (Ok a, w')
  | (Raised e, w') => if catches e then handler w' else (Raised e, w')
  end.

(** A bare [except:] and [except Exception:] catch every exception of the
    model. *)
Definition any_exn (e : exn) : bool := true.

Ltac unfold_M :=
  unfold mbind, mret, M_bind, M_ret, try_except, lift, raise, any_exn in *.

(** [fitz.open(path)] *)
Definition fitz_open (p : Path) : M (list page) := λ w,
  match fs w !! p with
  | Some (Pages ps) => (Ok ps, w)
  | _ => (Raised FitzError, w)
  end.

(** [page.get_text()] *)
Definition get_text (pg : page) : M string :=
  match pg with
  | PageText t => mret t
  | PageError => raise FitzError
  end.

(** The newline character. *)
Definition nl : string := String "010"%char EmptyString.

(** Python dictionaries, in insertion order. *)
Definition dict (V : Type) : Type := list (string * V).

(** [d[k]] *)
Fixpoint dict_get {V} (d : dict V) (k : string) : result V :=
  match d with
  | [] => Raised KeyError
  | (k', v) :: d' => if decide (k' = k) then Ok v else dict_get d' k
  end.

(** [d.get(k, dflt)] *)
Definition dict_get_default {V} (d : dict V) (k : string) (dflt : V) : V :=
  match dict_get d k with
  | Ok v => v
  | Raised _ => dflt
  end.

(** [d[k] = v]: an existing key keeps its place, a new one goes last. *)
Fixpoint dict_set {V} (d : dict V) (k : string) (v : V) : dict V :=
  match d with
  | [] => [(k, v)]
  | (k', v') :: d' =>
      if decide (k' = k) then (k, v) :: d' else (k', v') :: dict_set d' k v
  end.

(** [l[i]] for [i >= 0] *)
Definition index {A} (l : list A) (i : nat) : result A :=
  match l !! i with
  | Some x => Ok x
  | None => Raised IndexError
  end.

(** The values of a row of the line-item table. *)
Inductive pyval : Type :=
  | Str (s : string)
  | Int (n : nat).

(** ** regex_ocr.py *)

Module RegexOcr.
Import Re.

Definition input_dir : string := "invoices_in".
Definition ocr_output_dir : string := "ocr_output".

(** *** The compiled patterns (all under [(?i)]) *)

(** [[:\-]] *)
Definition colon_dash : regex := Chr (in_chars ":-").
(** [[:#-]] *)
Definition colon_hash_dash : regex := Chr (in_chars ":#-").
(** [[$€£]]; the pound sign is code point 163. *)
Definition currency : regex :=
  Chr (λ c, bool_decide (c = "$"%char) || bool_decide (c = "163"%char)).
(** [[A-Z0-9\-\/]] under [(?i)]: the character is lowered first.  Exact
    on the code points 0..255; beyond them the class also matches the
    letters U+017F, U+0130, U+0131 and U+212A. *)
Definition ident_char : regex :=
  Chr (λ c, let l := Py.lower_char c in
            Py.between 97 122 l || Py.is_digit l || in_chars "-/" l).
(** [\d{1,2}[\/\-\.]\d{1,2}[\/\-\.]\d{2,4}] *)
Definition date_shape : regex :=
  cats [from_to 1 2 digit; Chr (in_chars "/-."); from_to 1 2 digit;
        Chr (in_chars "/-."); from_to 2 4 digit].
(** [.]: any character but the newline. *)
Definition dot : regex := Chr (λ c, negb (bool_decide (c = "010"%char))).

(** [(?:purchase\s*order|po|order\s*no\.?)?\s*[:\-]?\s*(3100\d{7})] *)
Definition ORDER_PATTERN : regex :=
  cats [opt (alts [cats [word_i "purchase"; star ws; word_i "order"];
                   word_i "po";
                   cats [word_i "order"; star ws; word_i "no"; opt (lit ".")]]);
        star ws; opt colon_dash; star ws;
        Group 1 (cats [lit "3"; lit "1"; lit "0"; lit "0"; exactly 7 digit])].

(** [(invoice[\s:_#-]*no\.?|inv[\s:_#-]*number)?\s*[:#-]?\s*([A-Z0-9\-\/]{4,})] *)
Definition INVOICE_PATTERN : regex :=
  let sep := Chr (λ c, Py.is_space c || in_chars ":_#-" c) in
  cats [opt (Group 1 (alts [cats [word_i "invoice"; star sep; word_i "no"; opt (lit ".")];
                            cats [word_i "inv"; star sep; word_i "number"]]));
        star ws; opt colon_hash_dash; star ws;
        Group 2 (at_least 4 ident_char)].

(** [(invoice\s*date|date\s*of\s*issue)\s*[:#-]?\s*(\d{1,2}[\/\-\.]\d{1,2}[\/\-\.]\d{2,4})] *)
Definition DATE_PATTERN : regex :=
  cats [Group 1 (alts [cats [word_i "invoice"; star ws; word_i "date"];
                       cats [word_i "date"; star ws; word_i "of"; star ws; word_i "issue"]]);
        star ws; opt colon_hash_dash; star ws;
        Group 2 date_shape].

(** [(due\s*date)\s*[:#-]?\s*(\d{1,2}[\/\-\.]\d{1,2}[\/\-\.]\d{2,4})] *)
Definition DUE_DATE_PATTERN : regex :=
  cats [Group 1 (cats [word_i "due"; star ws; word_i "date"]);
        star ws; opt colon_hash_dash; star ws;
        Group 2 date_shape].

(** [(grand\s*total|total\s*amount|amount\s*due)\s*[:$AUD\s]*([$€£]?\s*\d{1,3}(?:,\d{3})*(?:\.\d{2})?)] *)
Definition TOTAL_PATTERN : regex :=
  let filler := Chr (λ c, let l := Py.lower_char c in
                          in_chars ":$aud" l || Py.is_space l) in
  cats [Group 1 (alts [cats [word_i "grand"; star ws; word_i "total"];
                       cats [word_i "total"; star ws; word_i "amount"];
                       cats [word_i "amount"; star ws; word_i "due"]]);
        star ws; star filler;
        Group 2 (cats [opt currency; star ws; from_to 1 3 digit;
                       star (cats [lit ","; exactly 3 digit]);
                       opt (cats [lit "."; exactly 2 digit])])].

(** [(freight[\s_]*(inc)?[\s_]*gst)?\s*[:\-]?\s*([$€£]?\s*\d+(?:\.\d{2})?)] *)
(** [\.\d{2}] *)
Definition decimals : regex := cats [lit "."; exactly 2 digit].
Definition freight_amount : regex :=
  cats [opt currency; star ws; plus digit; opt decimals].
Definition FREIGHT_PATTERN : regex :=
  let gap := Chr (λ c, Py.is_space c || in_chars "_" c) in
  cats [opt (Group 1 (cats [word_i "freight"; star gap; opt (Group 2 (word_i "inc"));
                            star gap; word_i "gst"]));
        star ws; opt colon_dash; star ws;
        Group 3 freight_amount].

(** [(from|seller|vendor|supplier)\s*[:\-]?\s*(.+)] *)
Definition SUPPLIER_PATTERN : regex :=
  cats [Group 1 (alts [word_i "from"; word_i "seller"; word_i "vendor"; word_i "supplier"]);
        star ws; opt colon_dash; star ws;
        Group 2 (plus dot)].

(** [(ABN|GST\s*number|VAT\s*number|Tax\s*ID)[\s:]*([A-Z0-9\- ]{8,})] *)
Definition ABN_PATTERN : regex :=
  let sep := Chr (λ c, Py.is_space c || in_chars ":" c) in
  let abn_char := Chr (λ c, let l := Py.lower_char c in
                            Py.between 97 122 l || Py.is_digit l || in_chars "- " l) in
  cats [Group 1 (alts [word_i "abn";
                       cats [word_i "gst"; star ws; word_i "number"];
                       cats [word_i "vat"; star ws; word_i "number"];
                       cats [word_i "tax"; star ws; word_i "id"]]);
        star sep;
        Group 2 (at_least 8 abn_char)].

(** [(PO[\s_-]?Number|Purchase\s*Order|Reference)\s*[:#-]?\s*([A-Z0-9\-\/]{4,})] *)
Definition PO_PATTERN : regex :=
  let gap := Chr (λ c, Py.is_space c || in_chars "_-" c) in
  cats [Group 1 (alts [cats [word_i "po"; opt gap; word_i "number"];
                       cats [word_i "purchase"; star ws; word_i "order"];
                       word_i "reference"]);
        star ws; opt colon_hash_dash; star ws;
        Group 2 (at_least 4 ident_char)].

(** [(total|subtotal|gst|grand)], the lines that end the item table. *)
Definition TOTALS_LINE : regex :=
  Group 1 (alts [word_i "total"; word_i "subtotal"; word_i "gst"; word_i "grand"]).

(** [\s{2,}|\t], the column separator. *)
Definition COLUMN_SEP : regex := Alt (at_least 2 ws) (lit "009").

(** *** extract_fields *)

(** [m.group(i).strip() if m else ''], where [m.group(i)] is [None] (and
    [.strip()] raises) when the group took no part in the match. *)
Definition group_strip (i : nat) (m : option match_obj) : result string :=
  match m with
  | None => Ok EmptyString
  | Some mo =>
      match group i mo with
      | Some t => Ok (Py.strip t)
      | None => Raised AttributeError
      end
  end.

Definition extract_fields (text : string) : result (dict string) :=
  let order := findall1 ORDER_PATTERN text in
  let invoice := search INVOICE_PATTERN text in
  let date := search DATE_PATTERN text in
  let due := search DUE_DATE_PATTERN text in
  let total := search TOTAL_PATTERN text in
  let supplier := search SUPPLIER_PATTERN text in
  let abn := search ABN_PATTERN text in
  let po := search PO_PATTERN text in
  let freight := findall 3 FREIGHT_PATTERN text in
  let v_order :=
    match order with
    | [] => EmptyString
    | _ => Py.join ", " (Py.sorted_set order)
    end in
  v_invoice ← group_strip 2 invoice;
  v_date ← group_strip 2 date;
  v_due ← group_strip 2 due;
  v_total ← group_strip 2 total;
  v_freight ←
    match last freight with
    | Some t => Py.strip <$> index t 2
    | None => Ok "0.00"
    end;
  v_supplier ←
    match supplier with
    | None => Ok EmptyString
    | Some mo =>
        match group 2 mo with
        | Some t => Py.strip <$> index (Py.split_sep nl t) 0
        | None => Raised AttributeError
        end
    end;
  v_abn ← group_strip 2 abn;
  v_po ← group_strip 2 po;
  mret [("order_number", v_order);
        ("invoice_number", v_invoice);
        ("invoice_date", v_date);
        ("due_date", v_due);
        ("total_amount", v_total);
        ("freight_inc_gst", v_freight);
        ("supplier", v_supplier);
        ("abn", v_abn);
        ("po_number", v_po)].

(** *** extract_line_items *)

Definition header_keywords : list string :=
  ["description"; "sku"; "qty"; "quantity"; "unit"; "price"; "amount"].

(** [all(any(h in part.lower() for part in line.lower().split())
         for h in header_keywords)] *)
Definition is_header (line : string) : bool :=
  forallb (λ h, existsb (λ part, Py.contains h (Py.lower part))
                        (Py.split_ws (Py.lower line)))
          header_keywords.

(** [line.strip() == "" or re.match(r"(?i)(total|subtotal|gst|grand)", line)] *)
Definition ends_table (line : string) : bool :=
  Py.is_empty (Py.strip line) || bool_decide (is_Some (re_match TOTALS_LINE line)).

(** [re.split(r'\s{2,}|\t', line.strip())] *)
Definition row_fields (line : string) : list string :=
  split COLUMN_SEP (Py.strip line).

(** The loop over the lines, with its two variables; [break] returns the
    items collected so far. *)
Fixpoint line_loop (lines : list string) (header_found : bool)
    (items : list (list string)) : list (list string) :=
  match lines with
  | [] => items
  | line :: rest =>
      if negb header_found && is_header line then line_loop rest true items
      else if header_found then
        if ends_table line then items
        else
          let fields := row_fields line in
          if 4 <=? length fields
          then line_loop rest header_found (items ++ [take 5 fields])
          else line_loop rest header_found items
      else line_loop rest header_found items
  end.

Definition extract_line_items (text : string) : list (list string) :=
  line_loop (Py.splitlines text) false [].

(** *** write_to_csv *)

(** A row of the line-item table. *)
Definition line_row (filename : string) (idx : nat) (orders : list string)
    (fields : dict string) (item : list string) : result (dict pyval) :=
  let clean := Py.pad_right item EmptyString (5 - length item) in
  order0 ← index orders 0;
  invoice_number ← dict_get fields "invoice_number";
  sku ← index clean 0;
  description ← index clean 1;
  qty ← index clean 2;
  unit_price ← index clean 3;
  amount ← index clean 4;
  mret [("pdf_filename", Str filename);
        ("line_index", Int idx);
        ("order_number",
           Str (if length orders =? 1 then order0 else Py.join ";" orders));
        ("invoice_number", Str invoice_number);
        ("sku", Str sku);
        ("description", Str description);
        ("qty", Str qty);
        ("unit_price", Str unit_price);
        ("amount", Str amount);
        ("freight_inc_gst", Str (dict_get_default fields "freight_inc_gst" "0.00"))].

(** [for idx, item in enumerate(items): line_data.append({...})] *)
Fixpoint line_rows (filename : string) (idx : nat) (orders : list string)
    (fields : dict string) (items : list (list string))
  : result (list (dict pyval)) :=
  match items with
  | [] => mret []
  | item :: items' =>
      row ← line_row filename idx orders fields item;
      rows ← line_rows filename (S idx) orders fields items';
      mret (row :: rows)
  end.

(** The loop over [results.items()], building [summary_data] and
    [line_data]. *)
Fixpoint csv_loop (results : dict (dict string * list (list string)))
    (summary_data : list (dict string)) (line_data : list (dict pyval))
  : result (list (dict string) * list (dict pyval)) :=
  match results with
  | [] => mret (summary_data, line_data)
  | (filename, (fields0, items)) :: results' =>
      let fields := dict_set fields0 "pdf_filename" filename in
      order_number ← dict_get fields "order_number";
      let orders := Py.split_sep ", " order_number in
      rows ← line_rows filename 0 orders fields items;
      csv_loop results' (summary_data ++ [fields]) (line_data ++ rows)
  end.

(** The two relations [write_to_csv] hands to the result sink (pandas'
    [DataFrame(...).to_csv] and the mirror copy, which are external). *)
Definition write_to_csv (results : dict (dict string * list (list string)))
  : result (list (dict string) * list (dict pyval)) :=
  csv_loop results [] [].

(** *** Text acquisition and the batch *)

Section pipeline.

(** The external OCR command: how a run ends, given what it finds at its
    input path. *)
Variable ocrmypdf : option pdf → ocr_exit.

(** [try: return "\n".join(page.get_text() for page in fitz.open(p))
     except: return ""] *)
Definition extract_text_from_pdf (pdf_path : Path) : M string :=
  try_except
    (doc ← fitz_open pdf_path;
     texts ← mapM get_text doc;
     mret (Py.join nl texts))
    any_exn
    (mret EmptyString).

(** [subprocess.run(['ocrmypdf', ..., input, output], check=True)].  The
    command is external: how a run ends is the oracle's answer.  That a
    run which fails or does not start leaves the files as they were, and
    that a run has no fourth outcome, is an assumption about the command,
    which the source does not fix. *)
Definition subprocess_run (input_pdf_path output_pdf_path : Path) : M unit := λ w,
  match ocrmypdf (fs w !! input_pdf_path) with
  | OcrDone out =>
      (Ok (), World (<[output_pdf_path := out]> (fs w)) (ocr_calls w))
  | OcrFailed => (Raised CalledProcessError, w)
  | OcrNotStarted => (Raised OSError, w)
  end.

(** Ghost step: the call of [run_ocr] is recorded. *)
Definition record_ocr_call (input_pdf_path output_pdf_path : Path) : M unit := λ w,
  (Ok (), World (fs w) ((input_pdf_path, output_pdf_path) :: ocr_calls w)).

Definition run_ocr (input_pdf_path output_pdf_path : Path) : M bool :=
  _ ← record_ocr_call input_pdf_path output_pdf_path;
  try_except
    (_ ← subprocess_run input_pdf_path output_pdf_path; mret true)
    any_exn
    (mret false).

Definition process_pdf (pdf_path : Path)
  : M (dict string * list (list string)) :=
  text ← extract_text_from_pdf pdf_path;
  text ←
    (if Py.is_empty (Py.strip text) then
       let ocr_pdf_path := path_join ocr_output_dir (path_name pdf_path) in
       ok ← run_ocr pdf_path ocr_pdf_path;
       if ok : bool then extract_text_from_pdf ocr_pdf_path else mret text
     else mret text);
  if negb (Py.is_empty (Py.strip text)) then
    fields ← lift (extract_fields text);
    let items := extract_line_items text in
    mret (fields, items)
  else mret ([], []).

(** [input_dir.glob('*.pdf')]: the files of the input directory whose name
    ends in [.pdf].  The order of the real listing is the file system's;
    the model takes the order of the keys of the map for it, of which
    nothing is used but that it is one order for the whole run. *)
Definition ends_with (suffix s : string) : bool :=
  bool_decide (Py.drop_str (String.length s - String.length suffix) s = suffix).
Definition glob_pdf (dir : string) : M (list Path) := λ w,
  (Ok (filter (λ p : Path, p.1 = dir ∧ ends_with ".pdf" p.2)
              (map_to_list (fs w)).*1), w).

(** The loop of [main]: [if fields:] holds for a non-empty dictionary. *)
Fixpoint main_loop (pdf_files : list Path)
    (results : dict (dict string * list (list string)))
  : M (dict (dict string * list (list string))) :=
  match pdf_files with
  | [] => mret results
  | pdf :: rest =>
      '(fields, lines) ← process_pdf pdf;
      match fields with
      | [] => main_loop rest results
      | _ => main_loop rest (dict_set results (path_name pdf) (fields, lines))
      end
  end.

Definition main : M (list (dict string) * list (dict pyval)) :=
  pdf_files ← glob_pdf input_dir;
  results ← main_loop pdf_files [];
  lift (write_to_csv results).

End pipeline.

End RegexOcr.


(** ** extract_text_from_pdf.py *)

Module ExtractTextFromPdf.
Import Re.

Definition input_dir : string := "./pdf_invoices".
Definition ocr_output_dir : string := "./output".

Definition ORDER_PATTERN : regex := RegexOcr.ORDER_PATTERN.

(** [except subprocess.CalledProcessError] *)
Definition is_called_process_error (e : exn) : bool :=
  match e with CalledProcessError => true | _ => false end.

(** [list(set(matches))]; the order in which Python lists a set is not
    specified.  The model lists the distinct matches in the order
    [remove_dups] leaves them in (that of their last occurrences); only
    the members of the list and their being distinct are meant. *)
Definition extract_order_numbers (text : string) : list string :=
  remove_dups (findall1 ORDER_PATTERN text).

Section pipeline.

Variable ocrmypdf : option pdf → ocr_exit.

(** [text = ""; for page in doc: text += page.get_text()] *)
Fixpoint page_loop (doc : list page) (text : string) : M string :=
  match doc with
  | [] => mret text
  | pg :: doc' => t ← get_text pg; page_loop doc' (text +:+ t)
  end.

Definition extract_text_from_pdf (pdf_path : Path) : M string :=
  try_except
    (doc ← fitz_open pdf_path; page_loop doc EmptyString)
    any_exn
    (mret EmptyString).

Definition run_ocr (input_pdf_path output_pdf_path : Path) : M bool :=
  _ ← RegexOcr.record_ocr_call input_pdf_path output_pdf_path;
  try_except
    (_ ← RegexOcr.subprocess_run ocrmypdf input_pdf_path output_pdf_path;
     mret true)
    is_called_process_error
    (mret false).

Definition process_pdf (pdf_path : Path) : M (list string) :=
  try_except
    (text ← extract_text_from_pdf pdf_path;
     if negb (Py.is_empty (Py.strip text)) then
       mret (extract_order_numbers text)
     else
       let ocr_pdf_path := path_join ocr_output_dir (path_name pdf_path) in
       ok ← run_ocr pdf_path ocr_pdf_path;
       if ok : bool then
         ocr_text ← extract_text_from_pdf ocr_pdf_path;
         mret (extract_order_numbers ocr_text)
       else mret [])
    any_exn
    (mret []).

(** The loop of [main] over the files: a file adds one row for each of
    its order numbers; an exception while a file is processed is logged and
    the file adds nothing. *)
Fixpoint main_loop (pdf_files : list Path) (extracted_data : list (list string))
  : M (list (list string)) :=
  match pdf_files with
  | [] => mret extracted_data
  | pdf_file :: rest =>
      extracted_data ←
        try_except
          (order_numbers ← process_pdf pdf_file;
           match order_numbers with
           | [] => mret extracted_data
           | _ =>
               mret (extracted_data
                     ++ ((λ order, [path_name pdf_file; order]) <$> order_numbers))
           end)
          any_exn
          (mret extracted_data);
      main_loop rest extracted_data
  end.

(** [main]: the rows handed to [csv.writer], the header row first, or
    [None] when the input directory holds no PDF and [main] returns before
    anything is written.  (The CSV file itself is external.) *)
Definition main : M (option (list (list string))) :=
  pdf_files ← RegexOcr.glob_pdf input_dir;
  match pdf_files with
  | [] => mret None
  | _ =>
      extracted_data ← main_loop pdf_files [];
      mret (Some (["Filename"; "Order Number"] :: extracted_data))
  end.

End pipeline.

End ExtractTextFromPdf.

(** ** Specification vocabulary *)

Module Spec.
Import Re.

(** What a regular expression matches, without the order in which the
    matcher tries things: [matches r w caps caps'] says that [r] can read
    exactly the word [w], taking the groups from [caps] to [caps']. *)
Inductive matches : regex → string → captures → captures → Prop :=
  | matches_eps caps :
      matches Eps EmptyString caps caps
  | matches_chr p c caps :
      p c = true → matches (Chr p) (String c EmptyString) caps caps
  | matches_cat r1 r2 w1 w2 caps caps1 caps2 :
      matches r1 w1 caps caps1 → matches r2 w2 caps1 caps2 →
      matches (Cat r1 r2) (w1 +:+ w2) caps caps2
  | matches_alt_l r1 r2 w caps caps' :
      matches r1 w caps caps' → matches (Alt r1 r2) w caps caps'
  | matches_alt_r r1 r2 w caps caps' :
      matches r2 w caps caps' → matches (Alt r1 r2) w caps caps'
  | matches_rep_stop hi r caps :
      matches (Repeat 0 hi r) EmptyString caps caps
  | matches_rep_step lo hi r w1 w2 caps caps1 caps2 :
      hi ≠ Some 0 → w1 ≠ EmptyString →
      matches r w1 caps caps1 →
      matches (Repeat (pred lo) (pred <$> hi) r) w2 caps1 caps2 →
      matches (Repeat lo hi r) (w1 +:+ w2) caps caps2
  | matches_group i r w caps caps' :
      matches r w caps caps' →
      matches (Group i r) w caps ((i, w) :: caps').

(** The group a sequence ends with, and its body. *)
Fixpoint last_group (r : regex) : option (nat * regex) :=
  match r with
  | Cat _ r2 => last_group r2
  | Group i body => Some (i, body)
  | _ => None
  end.

(** The last character of a string. *)
Fixpoint last_char (s : string) : option ascii :=
  match s with
  | EmptyString => None
  | String c EmptyString => Some c
  | String _ s' => last_char s'
  end.

(** The first character of a string. *)
Definition first_char (s : string) : option ascii :=
  match s with
  | EmptyString => None
  | String c _ => Some c
  end.

(** A matcher whose every success goes through its continuation after
    reading a word that [r] matches. *)
Definition sound_for (r : regex) (body : matcher) : Prop :=
  ∀ s caps k a, body s caps k = Some a →
    ∃ w s' caps', s = w +:+ s' ∧ matches r w caps caps' ∧ k s' caps' = Some a.

(** The amount group, tried at every place the white space before it may
    stop. *)
Definition amount_cont (b : bool) (start : string) : cont :=
  λ s caps, run (Group 3 RegexOcr.freight_amount) s caps (accept b start).

(** Every character of the string satisfies the predicate. *)
Fixpoint all_chars (p : ascii → bool) (s : string) : bool :=
  match s with
  | EmptyString => true
  | String c s' => p c && all_chars p s'
  end.

(** The shape of an order id: [3100] and seven digits. *)
Definition is_order_id (x : string) : Prop :=
  ∃ d, x = "3100" +:+ d ∧ String.length d = 7 ∧ all_chars Py.is_digit d = true.

(** The value of [order_number]: the distinct matches of the order
    pattern, sorted and joined. *)
Definition order_value (text : string) : string :=
  let order := findall1 RegexOcr.ORDER_PATTERN text in
  match order with
  | [] => EmptyString
  | _ => Py.join ", " (Py.sorted_set order)
  end.

(** The value of [freight_inc_gst]: the stripped third group of the last
    match of the freight pattern. *)
Definition freight_value (text : string) : string :=
  match last (finditer RegexOcr.FREIGHT_PATTERN text) with
  | Some m => Py.strip (group_or_empty 3 m)
  | None => "0.00"
  end.

(** The keys of a field record, in order. *)
Definition field_names : list string :=
  ["order_number"; "invoice_number"; "invoice_date"; "due_date";
   "total_amount"; "freight_inc_gst"; "supplier"; "abn"; "po_number"].

(** [text.strip()] is empty: the text is not usable. *)
Definition blank (text : string) : bool := Py.is_empty (Py.strip text).

(** The lines of the item table: those after the header line, up to the
    first blank or totals line. *)
Fixpoint data_region (rows : list string) : list string :=
  match rows with
  | [] => []
  | line :: rest =>
      if RegexOcr.ends_table line then [] else line :: data_region rest
  end.

(** What one line of the item table contributes. *)
Definition row_item (line : string) : option (list string) :=
  let fields := RegexOcr.row_fields line in
  if 4 <=? length fields then Some (take 5 fields) else None.

(** The field record of a text ([extract_fields] never raises). *)
Definition fields_of (text : string) : dict string :=
  match RegexOcr.extract_fields text with
  | Ok d => d
  | Raised _ => []
  end.

(** A field of a record, empty when the key is missing. *)
Definition field (d : dict string) (k : string) : string :=
  dict_get_default d k EmptyString.

(** The order number of a line-item row: the record's own value when it
    holds at most one id, else its ids joined with a semicolon. *)
Definition line_order_number (order_number : string) : string :=
  let orders := Py.split_sep ", " order_number in
  if length orders =? 1 then default EmptyString (head orders)
  else Py.join ";" orders.

(** The summary row of a document. *)
Definition summary_row (filename text : string) : dict string :=
  fields_of text ++ [("pdf_filename", filename)].

(** The line-item row of the item at position [idx] of a document. *)
Definition line_row_value (filename text : string) (idx : nat)
    (item : list string) : dict pyval :=
  let cell i := Str (default EmptyString (item !! i)) in
  [("pdf_filename", Str filename);
   ("line_index", Int idx);
   ("order_number", Str (line_order_number (field (fields_of text) "order_number")));
   ("invoice_number", Str (field (fields_of text) "invoice_number"));
   ("sku", cell 0);
   ("description", cell 1);
   ("qty", cell 2);
   ("unit_price", cell 3);
   ("amount", cell 4);
   ("freight_inc_gst", Str (field (fields_of text) "freight_inc_gst"))].

(** The line-item rows of a document. *)
Definition line_rows_of (filename text : string) : list (dict pyval) :=
  imap (line_row_value filename text) (RegexOcr.extract_line_items text).

(** What [process_pdf] returns for an acquired text. *)
Definition process_result (text : string) : dict string * list (list string) :=
  if blank text then ([], [])
  else (fields_of text, RegexOcr.extract_line_items text).

(** The results dictionary [main] builds for the usable documents. *)
Definition results_of (docs : list (string * string))
  : dict (dict string * list (list string)) :=
  (λ d, (d.1, (fields_of d.2, RegexOcr.extract_line_items d.2))) <$> docs.

Section acquisition.

Variable ocrmypdf : option pdf → ocr_exit.

(** The text of every page, or [None] when the file is missing or
    unreadable or a page fails to render. *)
Definition page_texts (f : option pdf) : option (list string) :=
  match f with
  | Some (Pages ps) =>
      mapM (λ pg, match pg with PageText t => Some t | PageError => None end) ps
  | _ => None
  end.

(** The text [regex_ocr.py] extracts directly from a file. *)
Definition direct_text (f : option pdf) : string :=
  match page_texts f with
  | Some ts => Py.join nl ts
  | None => EmptyString
  end.

(** The text [extract_text_from_pdf.py] extracts directly from a file. *)
Definition direct_text_concat (f : option pdf) : string :=
  match page_texts f with
  | Some ts => Py.join EmptyString ts
  | None => EmptyString
  end.

(** The text [regex_ocr.py] ends up with for a document: the direct text
    when it is usable, else the text of the OCR output when the OCR run
    succeeds, else the unusable direct text. *)
Definition acquired_text (f : option pdf) : string :=
  let text := direct_text f in
  if blank text then
    match ocrmypdf f with
    | OcrDone out => direct_text (Some out)
    | _ => text
    end
  else text.

(** The world after a call of [run_ocr]. *)
Definition after_ocr (inp out : Path) (w : world) : world :=
  World (match ocrmypdf (fs w !! inp) with
         | OcrDone f => <[out := f]> (fs w)
         | _ => fs w
         end)
        ((inp, out) :: ocr_calls w).

(** The world after [process_pdf]: OCR ran exactly when the direct text
    was not usable. *)
Definition after_process (p : Path) (w : world) : world :=
  if blank (direct_text (fs w !! p))
  then after_ocr p (path_join RegexOcr.ocr_output_dir (path_name p)) w
  else w.

(** The documents of the batch: what [input_dir.glob('*.pdf')] lists. *)
Definition documents (files : gmap Path pdf) : list Path :=
  filter (λ p : Path, p.1 = RegexOcr.input_dir ∧ RegexOcr.ends_with ".pdf" p.2)
         (map_to_list files).*1.

(** A document yields text when the text acquired for it is usable. *)
Definition yields_text (files : gmap Path pdf) (p : Path) : bool :=
  negb (blank (acquired_text (files !! p))).

(** The documents that yield text, with their name and text. *)
Definition usable_docs (files : gmap Path pdf) : list (string * string) :=
  (λ p, (path_name p, acquired_text (files !! p)))
    <$> filter (λ p, yields_text files p = true) (documents files).

(** The entries the loop of [main] adds for a list of documents. *)
Definition entries (files : gmap Path pdf) (pdfs : list Path)
  : dict (dict string * list (list string)) :=
  results_of ((λ p, (path_name p, acquired_text (files !! p)))
                <$> filter (λ p, yields_text files p = true) pdfs).

End acquisition.

(** *** Vocabulary of the further properties *)

(** [m.group(2).strip() if m else ''] for the first match [m] of [r]. *)
Definition captured (r : regex) (text : string) : string :=
  match search r text with
  | Some m => Py.strip (group_or_empty 2 m)
  | None => EmptyString
  end.

(** The value of [supplier]: the first line of the second group of the
    first match, stripped. *)
Definition supplier_name (text : string) : string :=
  match search RegexOcr.SUPPLIER_PATTERN text with
  | Some m =>
      Py.strip (default EmptyString (head (Py.split_sep nl (group_or_empty 2 m))))
  | None => EmptyString
  end.

(** The characters of [[A-Z0-9\-\/]] under [(?i)]. *)
Definition ident (c : ascii) : bool :=
  let l := Py.lower_char c in
  Py.between 97 122 l || Py.is_digit l || in_chars "-/" l.

(** The word [w] stands somewhere in the text. *)
Definition occurs (w text : string) : Prop :=
  ∃ pre post, text = pre +:+ w +:+ post.

(** The character is no digit. *)
Definition not_digit (c : ascii) : bool := negb (Py.is_digit c).

(** The separators of a date: [[\/\-\.]]. *)
Definition date_sep : ascii → bool := in_chars "/-.".

(** What [.] matches: any character but the newline. *)
Definition not_newline (c : ascii) : bool := negb (bool_decide (c = "010"%char)).

(** An identifier as the invoice and PO patterns capture it: four or more
    characters of the identifier class, standing in the text. *)
Definition identifier_in (text v : string) : Prop :=
  4 ≤ String.length v ∧ all_chars ident v = true ∧ occurs v text.

(** The shape of a captured date: one or two digits, a separator, one or
    two digits, a separator, two to four digits. *)
Definition is_date (v : string) : Prop :=
  ∃ d1 s1 d2 s2 d3,
    v = d1 +:+ String s1 EmptyString +:+ d2 +:+ String s2 EmptyString +:+ d3 ∧
    all_chars Py.is_digit d1 = true ∧
    all_chars Py.is_digit d2 = true ∧
    all_chars Py.is_digit d3 = true ∧
    1 ≤ String.length d1 ≤ 2 ∧ 1 ≤ String.length d2 ≤ 2 ∧
    2 ≤ String.length d3 ≤ 4 ∧
    date_sep s1 = true ∧ date_sep s2 = true.

(** The words that end the item table when a line starts with one. *)
Definition table_end_words : list string := ["total"; "subtotal"; "gst"; "grand"].

(** The currency signs of the model: [$] and the pound sign. *)
Definition is_currency (c : ascii) : bool :=
  bool_decide (c = "$"%char) || bool_decide (c = "163"%char).

(** The characters after the leading digits of an amount. *)
Definition amount_char (c : ascii) : bool := Py.is_digit c || in_chars ",." c.

(** The shape of a captured total: an optional currency sign with white
    space after it, one to three digits, and then nothing, or a comma or a
    dot and further digits, commas and dots. *)
Definition is_amount (v : string) : Prop :=
  ∃ lead d rest,
    v = lead +:+ d +:+ rest ∧
    (lead = EmptyString ∨
     ∃ c sp, lead = String c sp ∧ is_currency c = true
             ∧ all_chars Py.is_space sp = true) ∧
    all_chars Py.is_digit d = true ∧ 1 ≤ String.length d ≤ 3 ∧
    all_chars amount_char rest = true ∧
    (∀ c, first_char rest = Some c → Py.is_digit c = false).

(** The characters of [[A-Z0-9\- ]] under [(?i)]. *)
Definition abn_class (c : ascii) : bool :=
  let l := Py.lower_char c in
  Py.between 97 122 l || Py.is_digit l || in_chars "- " l.

(** The character is no tab. *)
Definition not_tab (c : ascii) : bool := negb (bool_decide (c = "009"%char)).

(** No two white-space characters stand side by side in the string. *)
Fixpoint no_double_space (s : string) : bool :=
  match s with
  | EmptyString => true
  | String c1 s' =>
      match s' with
      | EmptyString => true
      | String c2 _ => negb (Py.is_space c1 && Py.is_space c2)
      end && no_double_space s'
  end.

(** A field of an item as the column split leaves it: not empty, trimmed,
    without a tab and without two white-space characters in a row. *)
Definition clean_field (f : string) : Prop :=
  f ≠ EmptyString ∧ Py.strip f = f ∧
  all_chars not_tab f = true ∧ no_double_space f = true.

(** The fields whose pattern starts with a label that is not optional,
    each with the words one of which every such label starts with. *)
Definition field_labels : list (string * list string) :=
  [("invoice_date", ["invoice"; "date"]);
   ("due_date", ["due"]);
   ("total_amount", ["grand"; "total"; "amount"]);
   ("supplier", ["from"; "seller"; "vendor"; "supplier"]);
   ("abn", ["abn"; "gst"; "vat"; "tax"]);
   ("po_number", ["po"; "purchase"; "reference"])].

(** An entry of the results dictionary: the file name, the record and
    the items. *)
Definition entry : Type := string * (dict string * list (list string)).

(** [k in d] *)
Definition has_key {V} (d : dict V) (k : string) : bool :=
  match dict_get d k with
  | Ok _ => true
  | Raised _ => false
  end.

(** The entries [write_to_csv] can write: the record has an order number
    and, when there are items, an invoice number. *)
Definition writable (e : entry) : bool :=
  has_key e.2.1 "order_number"
  && match e.2.2 with
     | [] => true
     | _ => has_key e.2.1 "invoice_number"
     end.

(** The line-item row of the item at position [idx] of an entry. *)
Definition line_row_of (filename : string) (fields : dict string) (idx : nat)
    (item : list string) : dict pyval :=
  let cell i := Str (default EmptyString (item !! i)) in
  [("pdf_filename", Str filename);
   ("line_index", Int idx);
   ("order_number", Str (line_order_number (field fields "order_number")));
   ("invoice_number", Str (field fields "invoice_number"));
   ("sku", cell 0);
   ("description", cell 1);
   ("qty", cell 2);
   ("unit_price", cell 3);
   ("amount", cell 4);
   ("freight_inc_gst", Str (dict_get_default fields "freight_inc_gst" "0.00"))].

(** The line-item rows of an entry. *)
Definition line_rows_for (e : entry) : list (dict pyval) :=
  imap (line_row_of e.1 e.2.1) e.2.2.

(** The part of an amount after its leading digits. *)
Definition tail_ok (w : string) : Prop :=
  all_chars amount_char w = true ∧
  ∀ c, first_char w = Some c → Py.is_digit c = false.

(** The word a text starts with, up to the case of its letters, is one
    of [words]. *)
Definition starts_with_one_of (words : list string) (w : string) : Prop :=
  ∃ w0 w', w = w0 +:+ w' ∧ Py.lower w0 ∈ words.

(** Two characters are the same under [(?i)]: they are equal after
    lowering. *)
Definition same_char_i (a b : ascii) : bool :=
  bool_decide (Py.lower_char a = Py.lower_char b).

(** The line starts with the word [kw], compared character by character
    as [(?i)] compares. *)
Fixpoint starts_with_i (kw line : string) : bool :=
  match kw with
  | EmptyString => true
  | String a kw' =>
      match line with
      | EmptyString => false
      | String b line' => same_char_i b a && starts_with_i kw' line'
      end
  end.

(** The word [w] is the word [kw] under [(?i)]. *)
Definition same_i (w kw : string) : bool :=
  bool_decide (String.length w = String.length kw) && starts_with_i kw w.

Section batch_effects.

Variable ocrmypdf : option pdf → ocr_exit.

(** The world after the loop of [main] has processed the documents. *)
Definition after_batch (pdfs : list Path) (w : world) : world :=
  foldl (λ w p, after_process ocrmypdf p w) w pdfs.

(** The call of [run_ocr] [process_pdf] makes for a document. *)
Definition ocr_call (p : Path) : Path * Path :=
  (p, path_join RegexOcr.ocr_output_dir (path_name p)).

(** The documents whose direct text is not usable. *)
Definition needs_ocr (files : gmap Path pdf) (pdfs : list Path) : list Path :=
  filter (λ p, blank (direct_text (files !! p)) = true) pdfs.

End batch_effects.

Section order_table.

Variable ocrmypdf : option pdf → ocr_exit.





End order_table.

End Spec.

(** * Properties *)

(** ** Strings *)

Module PyFacts.
Import Py.

Lemma str_app_cons c s t : String c s +:+ t = String c (s +:+ t).
Proof. reflexivity. Qed.

Lemma str_app_nil_l s : EmptyString +:+ s = s.
Proof. reflexivity. Qed.

Lemma str_app_nil_r s : s +:+ EmptyString = s.
Proof. induction s as [|c s IH]; [done|]. by rewrite str_app_cons, IH. Qed.

Lemma str_app_assoc s t u : (s +:+ t) +:+ u = s +:+ (t +:+ u).
Proof. induction s as [|c s IH]; [done|]. by rewrite !str_app_cons, IH. Qed.

Lemma str_length_app s t :
  String.length (s +:+ t) = String.length s + String.length t.
Proof. induction s as [|c s IH]; [done|]. rewrite str_app_cons. simpl. by rewrite IH. Qed.

Lemma str_app_eq_nil s t : s +:+ t = EmptyString → s = EmptyString ∧ t = EmptyString.
Proof. destruct s; [done|]. by rewrite str_app_cons. Qed.

Lemma length_zero s : String.length s = 0 → s = EmptyString.
Proof. by destruct s. Qed.

Lemma take_str_app w s : take_str (String.length w) (w +:+ s) = w.
Proof. induction w as [|c w IH]; [by destruct s|]. rewrite str_app_cons. simpl. by rewrite IH. Qed.

Lemma str_app_inv_tail s t u : s +:+ u = t +:+ u → s = t.
Proof.
  revert t. induction s as [|c s IH]; intros [|d t] H; [done| | |].
  - apply (f_equal String.length) in H. rewrite str_app_cons, str_app_nil_l in H.
    simpl in H. rewrite str_length_app in H. lia.
  - apply (f_equal String.length) in H. rewrite str_app_cons, str_app_nil_l in H.
    simpl in H. rewrite str_length_app in H. lia.
  - rewrite !str_app_cons in H. injection H as -> H. f_equal. by apply IH.
Qed.

End PyFacts.

(** ** The matcher against the declarative semantics *)

Module ReFacts.
Import Py PyFacts Re Spec.

Lemma consumed_app w s : consumed (w +:+ s) s = w.
Proof.
  unfold consumed. rewrite str_length_app.
  replace (String.length w + String.length s - String.length s)
    with (String.length w) by lia.
  apply take_str_app.
Qed.

Lemma rep_sound r body :
  sound_for r body →
  ∀ fuel lo hi, sound_for (Repeat lo hi r) (rep body fuel lo hi).
Proof.
  intros Hbody fuel. induction fuel as [|fuel IH]; intros lo hi s caps k a H.
  - simpl in H. destruct lo; [|done].
    exists EmptyString, s, caps. split_and!; [done|constructor|done].
  - assert (Hstop : match lo with 0 => k s caps | S _ => None end = Some a →
      ∃ w s' caps', s = w +:+ s' ∧ matches (Repeat lo hi r) w caps caps'
                    ∧ k s' caps' = Some a).
    { destruct lo; [|done]. intros Hk.
      exists EmptyString, s, caps. split_and!; [done|constructor|done]. }
    assert (Hstep : hi ≠ Some 0 →
      body s caps (λ s' caps',
        if String.length s' <? String.length s
        then rep body fuel (pred lo) (pred <$> hi) s' caps' k else None) = Some a →
      ∃ w s' caps', s = w +:+ s' ∧ matches (Repeat lo hi r) w caps caps'
                    ∧ k s' caps' = Some a).
    { intros Hhi Hb. apply Hbody in Hb as (w1 & s1 & caps1 & -> & Hm1 & Hk).
      destruct (String.length s1 <? String.length (w1 +:+ s1)) eqn:Hlt; [|done].
      apply Nat.ltb_lt in Hlt. rewrite str_length_app in Hlt.
      apply IH in Hk as (w2 & s2 & caps2 & -> & Hm2 & Hk).
      exists (w1 +:+ w2), s2, caps2. split_and!; [by rewrite str_app_assoc| |done].
      eapply matches_rep_step; [done| |done..].
      intros ->. simpl in Hlt. lia. }
    simpl in H. destruct hi as [[|hi]|].
    + by apply Hstop.
    + destruct (body s caps _) eqn:Hb; [|by apply Hstop].
      injection H as ->. by apply Hstep.
    + destruct (body s caps _) eqn:Hb; [|by apply Hstop].
      injection H as ->. by apply Hstep.
Qed.

(** Soundness: every answer of the matcher comes from its continuation,
    run on what is left after a word the expression matches. *)
Lemma run_sound r : sound_for r (run r).
Proof.
  induction r as [|p|r1 IH1 r2 IH2|r1 IH1 r2 IH2|lo hi r IH|i r IH];
    intros s caps k a H; simpl in H.
  - exists EmptyString, s, caps. split_and!; [done|constructor|done].
  - destruct s as [|c s]; [done|]. destruct (p c) eqn:Hp; [|done].
    exists (String c EmptyString), s, caps. split_and!; [done|by constructor|done].
  - apply IH1 in H as (w1 & s1 & caps1 & -> & Hm1 & H).
    apply IH2 in H as (w2 & s2 & caps2 & -> & Hm2 & H).
    exists (w1 +:+ w2), s2, caps2. split_and!; [by rewrite str_app_assoc| |done].
    by econstructor.
  - destruct (run r1 s caps k) eqn:H1.
    + injection H as ->. apply IH1 in H1 as (w & s' & caps' & -> & Hm & H).
      exists w, s', caps'. split_and!; [done|by apply matches_alt_l|done].
    + apply IH2 in H as (w & s' & caps' & -> & Hm & H).
      exists w, s', caps'. split_and!; [done|by apply matches_alt_r|done].
  - change (rep (run r) (S (String.length s)) lo hi s caps k = Some a) in H.
    by apply (rep_sound r (run r) IH) in H.
  - apply IH in H as (w & s' & caps' & -> & Hm & H).
    rewrite consumed_app in H.
    exists w, s', ((i, w) :: caps'). split_and!; [done|by constructor|done].
Qed.

(** A repetition that may stop succeeds whenever what follows it does. *)
Lemma rep_stop_succeeds body fuel hi s caps k :
  k s caps ≠ None → rep body fuel 0 hi s caps k ≠ None.
Proof.
  intros Hk. destruct fuel as [|fuel]; [done|]. simpl.
  destruct hi as [[|hi]|]; [done|..]; by destruct (body s caps _).
Qed.

(** Completeness for success: when the expression matches a prefix of the
    text and the continuation accepts the rest whatever the groups, the
    matcher finds some match (not necessarily that one). *)
Lemma run_complete_gen r w caps caps' :
  matches r w caps caps' →
  ∀ s k caps0, (∀ c, k s c ≠ None) →
    run r (w +:+ s) caps0 k ≠ None ∧
    match r with
    | Repeat lo hi r1 =>
        ∀ fuel, String.length (w +:+ s) < fuel →
          rep (run r1) fuel lo hi (w +:+ s) caps0 k ≠ None
    | _ => True
    end.
Proof.
  induction 1 as [caps|p c caps Hp|r1 r2 w1 w2 caps caps1 caps2 _ IH1 _ IH2
    |r1 r2 w caps caps' _ IH|r1 r2 w caps caps' _ IH|hi r caps
    |lo hi r w1 w2 caps caps1 caps2 Hhi Hw1 _ IH1 _ IH2|i r w caps caps' _ IH];
    intros s k caps0 Hk.
  - split; [apply Hk|done].
  - split; [|done]. rewrite str_app_cons. simpl. rewrite Hp. apply Hk.
  - split; [|done]. rewrite str_app_assoc. simpl.
    apply IH1. intros c. by apply IH2.
  - split; [|done]. simpl.
    destruct (run r1 (w +:+ s) caps0 k) eqn:E; [done|].
    by destruct (IH s k caps0 Hk) as [? _].
  - split; [|done]. simpl.
    destruct (run r1 (w +:+ s) caps0 k) eqn:E; [done|].
    by apply IH.
  - split; [|intros fuel _]; by apply rep_stop_succeeds.
  - assert (Hrep : ∀ fuel, String.length ((w1 +:+ w2) +:+ s) < fuel →
      rep (run r) fuel lo hi ((w1 +:+ w2) +:+ s) caps0 k ≠ None).
    { intros [|fuel] Hfuel; [lia|].
      assert (run r ((w1 +:+ w2) +:+ s) caps0 (λ s' caps',
        if String.length s' <? String.length ((w1 +:+ w2) +:+ s)
        then rep (run r) fuel (pred lo) (pred <$> hi) s' caps' k
        else None) ≠ None) as Hb.
      { rewrite str_app_assoc. apply IH1. intros c.
        assert (String.length (w2 +:+ s) < String.length (w1 +:+ w2 +:+ s)) as Hlt.
        { rewrite (str_length_app w1). destruct w1; [done|]. simpl. lia. }
        apply Nat.ltb_lt in Hlt as Hlt'. rewrite Hlt'.
        apply IH2; [done|]. rewrite str_app_assoc in Hfuel. lia. }
      simpl. destruct hi as [[|hi]|]; [done|..];
        by destruct (run r _ caps0 _). }
    split; [|done]. apply Hrep. lia.
  - split; [|done]. simpl. apply IH. intros c. apply Hk.
Qed.

Lemma run_complete r w caps caps' s k caps0 :
  matches r w caps caps' → (∀ c, k s c ≠ None) →
  run r (w +:+ s) caps0 k ≠ None.
Proof. intros Hm Hk. by apply (run_complete_gen r w caps caps' Hm s k caps0). Qed.

Lemma rep_complete r lo hi w caps caps' s k caps0 fuel :
  matches (Repeat lo hi r) w caps caps' → (∀ c, k s c ≠ None) →
  String.length (w +:+ s) < fuel →
  rep (run r) fuel lo hi (w +:+ s) caps0 k ≠ None.
Proof.
  intros Hm Hk. by apply (run_complete_gen _ w caps caps' Hm s k caps0).
Qed.

(** *** Match objects *)

Lemma accept_inv b start s' caps a :
  accept b start s' caps = Some a → a = (s', caps).
Proof. unfold accept. by destruct (_ && _); intros [=]. Qed.

(** A match object holds a word the expression matches and the groups of
    that match. *)
Lemma match_at_sound r b pre s m :
  match_at r b pre s = Some m →
  s = m_text m +:+ m_post m ∧ m_pre m = pre ∧
  matches r (m_text m) [] (m_groups m).
Proof.
  unfold match_at. destruct (run r s [] _) as [[post caps]|] eqn:H; [|done].
  intros [= <-]. simpl.
  apply run_sound in H as (w & s' & caps' & -> & Hm & H).
  apply accept_inv in H as [= -> ->]. by rewrite consumed_app.
Qed.

Lemma search_from_inv r b pre s m :
  search_from r b pre s = Some m →
  ∃ b' pre' s', match_at r b' pre' s' = Some m ∧ pre +:+ s = pre' +:+ s'.
Proof.
  revert b pre. induction s as [|c s IH]; intros b pre H; simpl in H.
  - destruct (match_at r b pre EmptyString) eqn:E; [|done].
    injection H as ->. eauto.
  - destruct (match_at r b pre (String c s)) eqn:E.
    + injection H as ->. eauto.
    + apply IH in H as (b' & pre' & s' & H & Heq).
      exists b', pre', s'. split; [done|]. rewrite <-Heq.
      by rewrite str_app_assoc.
Qed.

Lemma search_from_sound r b pre s m :
  search_from r b pre s = Some m →
  pre +:+ s = m_pre m +:+ m_text m +:+ m_post m ∧
  matches r (m_text m) [] (m_groups m).
Proof.
  intros (b' & pre' & s' & H & Heq)%search_from_inv.
  apply match_at_sound in H as (-> & <- & Hm). done.
Qed.

Lemma scan_sound fuel r b s m :
  m ∈ scan fuel r b s → matches r (m_text m) [] (m_groups m).
Proof.
  revert b s. induction fuel as [|fuel IH]; intros b s H; simpl in H.
  - by apply elem_of_nil in H.
  - destruct (search_from r b EmptyString s) as [m0|] eqn:E;
      [|by apply elem_of_nil in H].
    apply elem_of_cons in H as [->|H]; [|by eapply IH].
    by apply search_from_sound in E as [_ ?].
Qed.

Lemma finditer_sound r s m :
  m ∈ finditer r s → matches r (m_text m) [] (m_groups m).
Proof. apply scan_sound. Qed.

Lemma search_sound r s m :
  search r s = Some m → matches r (m_text m) [] (m_groups m).
Proof. intros H. by apply search_from_sound in H as [_ ?]. Qed.

(** *** The group a pattern ends with *)

Lemma matches_last_group r i body w caps caps' :
  last_group r = Some (i, body) → matches r w caps caps' →
  ∃ pre t caps0 caps1,
    w = pre +:+ t ∧ caps' = (i, t) :: caps1 ∧ matches body t caps0 caps1.
Proof.
  intros Hl Hm. revert Hl.
  induction Hm as [| |r1 r2 w1 w2 caps caps1 caps2 _ _ Hm2 IH2| | | | |j r w caps caps' Hm _];
    intros Hl; simplify_eq/=.
  - destruct (IH2 Hl) as (pre & t & c0 & c1 & -> & -> & Hb).
    exists (w1 +:+ pre), t, c0, c1. by rewrite str_app_assoc.
  - exists EmptyString, w, caps, caps'. done.
Qed.

Lemma lookup_group_head i t caps : lookup_group i ((i, t) :: caps) = Some t.
Proof. simpl. by rewrite decide_True. Qed.

(** A match of a pattern that ends with group [i] has that group set, to
    a word its body matches. *)
Lemma search_last_group r i body s m :
  last_group r = Some (i, body) → search r s = Some m →
  ∃ t caps0 caps1, group i m = Some t ∧ matches body t caps0 caps1.
Proof.
  intros Hl Hs%search_sound.
  destruct (matches_last_group _ _ _ _ _ _ Hl Hs) as (pre & t & c0 & c1 & _ & Hg & Hb).
  exists t, c0, c1. split; [|done]. unfold group. rewrite Hg. apply lookup_group_head.
Qed.

Lemma finditer_last_group r i body s m :
  last_group r = Some (i, body) → m ∈ finditer r s →
  ∃ t caps0 caps1, group i m = Some t ∧ matches body t caps0 caps1.
Proof.
  intros Hl Hs%finditer_sound.
  destruct (matches_last_group _ _ _ _ _ _ Hl Hs) as (pre & t & c0 & c1 & _ & Hg & Hb).
  exists t, c0, c1. split; [|done]. unfold group. rewrite Hg. apply lookup_group_head.
Qed.

End ReFacts.

(** ** The field recognisers *)

Module FieldFacts.
Import Py PyFacts Re ReFacts Spec RegexOcr.

Lemma bind_Ok {A B} (f : A → result B) (a : A) : (Ok a ≫= f) = f a.
Proof. reflexivity. Qed.

Lemma fmap_Ok {A B} (f : A → B) (a : A) : f <$> Ok a = Ok (f a).
Proof. reflexivity. Qed.

Lemma split_sep_go_nonempty sep cur skip s : split_sep_go sep cur skip s ≠ [].
Proof.
  revert cur skip. induction s as [|c s IH]; intros cur skip; [done|].
  simpl. destruct skip; [|apply IH].
  match goal with |- (if ?b then _ else _) ≠ _ => destruct b end; [done|apply IH].
Qed.

(** [m.group(2).strip() if m else ''] never raises for a pattern that
    ends with its group 2. *)
Lemma group_strip_search r body text :
  last_group r = Some (2, body) →
  ∃ v, group_strip 2 (search r text) = Ok v.
Proof.
  intros Hl. unfold group_strip. destruct (search r text) as [m|] eqn:E; [|eauto].
  destruct (search_last_group _ _ _ _ _ Hl E) as (t & _ & _ & -> & _). eauto.
Qed.

Lemma freight_tuple_value text :
  match last (findall 3 FREIGHT_PATTERN text) with
  | Some t => Py.strip <$> index t 2
  | None => Ok "0.00"
  end = Ok (freight_value text).
Proof.
  unfold findall, freight_value. rewrite fmap_last.
  by destruct (last (finditer FREIGHT_PATTERN text)).
Qed.

Lemma supplier_value text :
  ∃ v,
    match search SUPPLIER_PATTERN text with
    | None => Ok EmptyString
    | Some mo =>
        match group 2 mo with
        | Some t => Py.strip <$> index (split_sep nl t) 0
        | None => Raised AttributeError
        end
    end = Ok v.
Proof.
  destruct (search SUPPLIER_PATTERN text) as [m|] eqn:E; [|eauto].
  destruct (search_last_group SUPPLIER_PATTERN 2 _ _ _ eq_refl E)
    as (t & _ & _ & -> & _).
  unfold split_sep, index.
  pose proof (split_sep_go_nonempty nl EmptyString 0 t) as Hne.
  destruct (split_sep_go nl EmptyString 0 t) as [|x l]; [done|]. simpl. eauto.
Qed.

(** [extract_fields] never raises, and always returns the nine fields in
    the same order. *)
Lemma extract_fields_ok text :
  ∃ v_invoice v_date v_due v_total v_supplier v_abn v_po,
    extract_fields text =
      Ok [("order_number", order_value text);
          ("invoice_number", v_invoice);
          ("invoice_date", v_date);
          ("due_date", v_due);
          ("total_amount", v_total);
          ("freight_inc_gst", freight_value text);
          ("supplier", v_supplier);
          ("abn", v_abn);
          ("po_number", v_po)].
Proof.
  destruct (group_strip_search INVOICE_PATTERN _ text eq_refl) as [v1 H1].
  destruct (group_strip_search DATE_PATTERN _ text eq_refl) as [v2 H2].
  destruct (group_strip_search DUE_DATE_PATTERN _ text eq_refl) as [v3 H3].
  destruct (group_strip_search TOTAL_PATTERN _ text eq_refl) as [v4 H4].
  destruct (supplier_value text) as [v5 H5].
  destruct (group_strip_search ABN_PATTERN _ text eq_refl) as [v6 H6].
  destruct (group_strip_search PO_PATTERN _ text eq_refl) as [v7 H7].
  exists v1, v2, v3, v4, v5, v6, v7.
  unfold extract_fields. cbv zeta.
  rewrite H1, bind_Ok, H2, bind_Ok, H3, bind_Ok, H4, bind_Ok.
  rewrite freight_tuple_value, bind_Ok, H5, bind_Ok, H6, bind_Ok, H7, bind_Ok.
  reflexivity.
Qed.

End FieldFacts.

(** ** Text acquisition and the batch run *)

Module BatchFacts.
Import Py PyFacts Re ReFacts Spec FieldFacts RegexOcr.

Section pipeline.

Variable ocrmypdf : option pdf → ocr_exit.

Lemma mapM_get_text ps w :
  mapM get_text ps w =
    (match mapM (λ pg, match pg with PageText t => Some t | PageError => None end) ps with
     | Some ts => Ok ts
     | None => Raised FitzError
     end, w).
Proof.
  induction ps as [|[t|] ps IH]; [done| |done].
  change (mapM get_text (PageText t :: ps) w)
    with (match mapM get_text ps w with
          | (Ok ys, w') => (Ok (t :: ys), w')
          | (Raised e, w') => (Raised e, w')
          end).
  rewrite IH. simpl.
  match goal with |- context [mapM ?f ps ≫= _] => destruct (mapM f ps) end;
    reflexivity.
Qed.

(** Direct extraction returns the text of the file and leaves the world
    as it is. *)
Lemma extract_text_from_pdf_spec p w :
  extract_text_from_pdf p w = (Ok (direct_text (fs w !! p)), w).
Proof.
  unfold extract_text_from_pdf, direct_text, page_texts, fitz_open.
  unfold_M. destruct (fs w !! p) as [[ps|]|]; [|done..].
  rewrite mapM_get_text. by destruct (mapM _ ps).
Qed.

Lemma run_ocr_spec inp out w :
  run_ocr ocrmypdf inp out w =
    (Ok (match ocrmypdf (fs w !! inp) with OcrDone _ => true | _ => false end),
     after_ocr ocrmypdf inp out w).
Proof.
  unfold run_ocr, record_ocr_call, subprocess_run, after_ocr. unfold_M. simpl.
  by destruct (ocrmypdf (fs w !! inp)).
Qed.

Lemma after_ocr_output inp out w f :
  ocrmypdf (fs w !! inp) = OcrDone f → fs (after_ocr ocrmypdf inp out w) !! out = Some f.
Proof. intros H. unfold after_ocr. rewrite H. apply lookup_insert_eq. Qed.

Lemma extract_fields_fields_of text : extract_fields text = Ok (fields_of text).
Proof.
  unfold fields_of.
  destruct (extract_fields_ok text) as (?&?&?&?&?&?&?&->). done.
Qed.

Lemma process_pdf_spec p w :
  process_pdf ocrmypdf p w =
    (Ok (process_result (acquired_text ocrmypdf (fs w !! p))), after_process ocrmypdf p w).
Proof.
  unfold process_pdf, process_result, acquired_text, after_process.
  unfold mbind at 1, M_bind at 1. rewrite extract_text_from_pdf_spec.
  unfold blank. destruct (is_empty (strip (direct_text (fs w !! p)))) eqn:Hb.
  - unfold mbind at 1, M_bind at 1. unfold mbind at 1, M_bind at 1.
    rewrite run_ocr_spec.
    destruct (ocrmypdf (fs w !! p)) as [out| |] eqn:Hocr.
    + rewrite extract_text_from_pdf_spec.
      rewrite (after_ocr_output _ _ _ _ Hocr).
      destruct (is_empty (strip (direct_text (Some out)))); simpl; [done|].
      unfold_M. by rewrite extract_fields_fields_of.
    + unfold_M. by rewrite Hb.
    + unfold_M. by rewrite Hb.
  - unfold_M. rewrite Hb. simpl. by rewrite extract_fields_fields_of.
Qed.

End pipeline.

(** *** write_to_csv *)

Lemma fields_of_shape text :
  ∃ v_invoice v_date v_due v_total v_supplier v_abn v_po,
    fields_of text =
      [("order_number", order_value text);
       ("invoice_number", v_invoice);
       ("invoice_date", v_date);
       ("due_date", v_due);
       ("total_amount", v_total);
       ("freight_inc_gst", freight_value text);
       ("supplier", v_supplier);
       ("abn", v_abn);
       ("po_number", v_po)].
Proof.
  destruct (extract_fields_ok text) as (v1&v2&v3&v4&v5&v6&v7&H).
  exists v1, v2, v3, v4, v5, v6, v7. unfold fields_of. by rewrite H.
Qed.

Lemma fields_of_nonempty text : fields_of text ≠ [].
Proof. destruct (fields_of_shape text) as (?&?&?&?&?&?&?&->). done. Qed.

(** The padded item can be read at its first five positions. *)
Lemma pad_index (item : list string) i :
  i < 5 →
  index (pad_right item EmptyString (5 - length item)) i
    = Ok (default EmptyString (item !! i)).
Proof.
  intros Hi. unfold index, pad_right.
  destruct (decide (i < length item)) as [Hlt|Hge].
  - rewrite lookup_app_l by done.
    destruct (lookup_lt_is_Some_2 item i Hlt) as [x ->]. done.
  - rewrite lookup_app_r by lia.
    rewrite (lookup_ge_None_2 item i) by lia.
    rewrite lookup_replicate_2 by lia. done.
Qed.

Lemma line_row_spec filename text idx item :
  line_row filename idx
    (split_sep ", " (field (fields_of text) "order_number"))
    (summary_row filename text) item
  = Ok (line_row_value filename text idx item).
Proof.
  unfold line_row, line_row_value, line_order_number.
  rewrite !pad_index by lia.
  destruct (fields_of_shape text) as (v1&v2&v3&v4&v5&v6&v7&Hf).
  unfold summary_row, field. rewrite Hf.
  change (dict_get_default _ "order_number" EmptyString) with (order_value text).
  unfold split_sep.
  pose proof (split_sep_go_nonempty ", " EmptyString 0 (order_value text)) as Hne.
  destruct (split_sep_go ", " EmptyString 0 (order_value text)) as [|o os]; [done|].
  reflexivity.
Qed.

Lemma line_rows_spec filename text idx items :
  line_rows filename idx
    (split_sep ", " (field (fields_of text) "order_number"))
    (summary_row filename text) items
  = Ok (imap (λ i, line_row_value filename text (idx + i)) items).
Proof.
  revert idx. induction items as [|item items IH]; intros idx; [done|].
  simpl. rewrite line_row_spec, bind_Ok, IH, bind_Ok.
  unfold mret, result_ret. do 2 f_equal.
  - f_equal. lia.
  - apply imap_ext. intros i x _. simpl. f_equal. lia.
Qed.

Lemma csv_loop_spec docs summary_data line_data :
  csv_loop (results_of docs) summary_data line_data =
    Ok (summary_data ++ ((λ d, summary_row d.1 d.2) <$> docs),
        line_data ++ (docs ≫= λ d, line_rows_of d.1 d.2)).
Proof.
  revert summary_data line_data.
  induction docs as [|[name text] docs IH]; intros summary_data line_data.
  - simpl. by rewrite !app_nil_r.
  - change (results_of ((name, text) :: docs))
      with ((name, (fields_of text, extract_line_items text)) :: results_of docs).
    cbn [csv_loop].
    assert (dict_set (fields_of text) "pdf_filename" name = summary_row name text)
      as ->.
    { destruct (fields_of_shape text) as (?&?&?&?&?&?&?&Hf).
      unfold summary_row. rewrite Hf. reflexivity. }
    assert (dict_get (summary_row name text) "order_number"
            = Ok (field (fields_of text) "order_number")) as ->.
    { destruct (fields_of_shape text) as (?&?&?&?&?&?&?&Hf).
      unfold summary_row, field. rewrite Hf. reflexivity. }
    rewrite bind_Ok, line_rows_spec, bind_Ok, IH.
    simpl. rewrite <-!(assoc_L (++)). reflexivity.
Qed.

(** [write_to_csv] does not raise on the results of [main], and hands
    one summary row per document and its line rows to the sink. *)
Lemma write_to_csv_spec docs :
  write_to_csv (results_of docs) =
    Ok ((λ d, summary_row d.1 d.2) <$> docs, docs ≫= λ d, line_rows_of d.1 d.2).
Proof. unfold write_to_csv. by rewrite csv_loop_spec. Qed.

(** *** main *)

Lemma dict_set_fresh {V} (d : dict V) k v :
  k ∉ d.*1 → dict_set d k v = d ++ [(k, v)].
Proof.
  induction d as [|[k' v'] d IH]; intros Hk; [done|].
  simpl in *. apply not_elem_of_cons in Hk as [Hne Hk].
  rewrite decide_False by done. by rewrite IH.
Qed.

Lemma documents_input_dir files p :
  p ∈ documents files → p.1 = input_dir.
Proof. unfold documents. rewrite list_elem_of_filter. by intros [[? _] _]. Qed.

Lemma documents_NoDup_names files : NoDup (path_name <$> documents files).
Proof.
  apply NoDup_fmap_2_strong.
  - intros [d1 n1] [d2 n2] H1%documents_input_dir H2%documents_input_dir Hn.
    unfold path_name in Hn. simpl in *. by subst.
  - unfold documents. apply NoDup_filter, NoDup_fst_map_to_list.
Qed.

Section batch.

Variable ocrmypdf : option pdf → ocr_exit.

(** Processing a document leaves the files of the input directory alone:
    OCR output goes to another directory. *)
Lemma after_process_input p w q :
  q.1 = input_dir → fs (after_process ocrmypdf p w) !! q = fs w !! q.
Proof.
  intros Hq. unfold after_process, after_ocr.
  destruct (blank _); [|done]. simpl.
  destruct (ocrmypdf _); [|done..].
  apply lookup_insert_ne. intros <-. done.
Qed.

Lemma entries_cons files p pdfs :
  entries ocrmypdf files (p :: pdfs) =
    (if yields_text ocrmypdf files p
     then [(path_name p,
            (fields_of (acquired_text ocrmypdf (files !! p)),
             extract_line_items (acquired_text ocrmypdf (files !! p))))]
     else []) ++ entries ocrmypdf files pdfs.
Proof.
  unfold entries. rewrite filter_cons.
  destruct (yields_text ocrmypdf files p) eqn:E.
  - rewrite decide_True by done. done.
  - rewrite decide_False by done. done.
Qed.

Lemma entries_keys files pdfs k :
  k ∈ (entries ocrmypdf files pdfs).*1 → k ∈ path_name <$> pdfs.
Proof.
  unfold entries, results_of. rewrite <-!list_fmap_compose.
  intros (p & -> & Hp)%list_elem_of_fmap.
  apply list_elem_of_filter in Hp as [_ Hp].
  apply list_elem_of_fmap. by exists p.
Qed.

Lemma main_loop_spec files pdfs : ∀ results w,
  (∀ q, q.1 = input_dir → fs w !! q = files !! q) →
  Forall (λ p : Path, p.1 = input_dir) pdfs →
  NoDup (path_name <$> pdfs) →
  (∀ p, p ∈ pdfs → path_name p ∉ results.*1) →
  ∃ w', main_loop ocrmypdf pdfs results w
        = (Ok (results ++ entries ocrmypdf files pdfs), w').
Proof.
  induction pdfs as [|p pdfs IH]; intros results w Hfs Hdir Hnd Hfresh.
  - exists w. simpl. unfold_M. unfold entries. simpl. by rewrite app_nil_r.
  - apply Forall_cons in Hdir as [Hp Hdir].
    rewrite fmap_cons in Hnd. apply NoDup_cons in Hnd as [Hpn Hnd].
    cbn [main_loop]. unfold mbind at 1, M_bind at 1.
    rewrite process_pdf_spec, (Hfs p Hp), entries_cons.
    unfold process_result, yields_text.
    destruct (blank (acquired_text ocrmypdf (files !! p))) eqn:Hb; simpl.
    + apply IH; [|done..|].
      * intros q Hq. rewrite after_process_input by done. by apply Hfs.
      * intros q Hq. apply Hfresh. by right.
    + pose proof (fields_of_nonempty (acquired_text ocrmypdf (files !! p))) as Hne.
      destruct (fields_of (acquired_text ocrmypdf (files !! p))) as [|f fl] eqn:Hf;
        [done|].
      rewrite dict_set_fresh by (apply Hfresh; by left).
      match goal with |- context [results ++ ?e :: entries ocrmypdf files pdfs] =>
        replace (results ++ e :: entries ocrmypdf files pdfs)
          with ((results ++ [e]) ++ entries ocrmypdf files pdfs)
          by (by rewrite <-(assoc_L (++)))
      end.
      apply IH; [|done..|].
      * intros q Hq. rewrite after_process_input by done. by apply Hfs.
      * intros q Hq. rewrite fmap_app. simpl.
        rewrite elem_of_app, list_elem_of_singleton.
        intros [Hin|Heq].
        -- by apply (Hfresh q); [right|].
        -- apply Hpn. rewrite <-Heq. apply list_elem_of_fmap. by exists q.
Qed.

(** The batch run never raises, and hands the sink one summary row for
    every document that yields text, followed by its line rows. *)
Lemma main_spec w :
  ∃ w', main ocrmypdf w =
    (Ok ((λ d, summary_row d.1 d.2) <$> usable_docs ocrmypdf (fs w),
         usable_docs ocrmypdf (fs w) ≫= λ d, line_rows_of d.1 d.2),
     w').
Proof.
  destruct (main_loop_spec (fs w) (documents (fs w)) [] w) as [w' Hloop].
  - done.
  - apply Forall_forall. intros p. apply documents_input_dir.
  - apply documents_NoDup_names.
  - intros p _. apply not_elem_of_nil.
  - exists w'. unfold main. unfold mbind at 1, M_bind at 1.
    change (glob_pdf input_dir w) with (@Ok (list Path) (documents (fs w)), w).
    unfold mbind at 1, M_bind at 1. rewrite Hloop. simpl.
    unfold lift, entries. rewrite write_to_csv_spec. done.
Qed.

End batch.

End BatchFacts.

(** ** The rows of the batch output *)

Module RowFacts.
Import Py PyFacts Re ReFacts Spec FieldFacts RegexOcr BatchFacts.

Lemma summary_row_filename name text :
  dict_get (summary_row name text) "pdf_filename" = Ok name.
Proof.
  destruct (fields_of_shape text) as (?&?&?&?&?&?&?&Hf).
  unfold summary_row. rewrite Hf. reflexivity.
Qed.

Lemma summary_row_field name text k :
  k ∈ field_names →
  dict_get (summary_row name text) k = Ok (field (fields_of text) k).
Proof.
  destruct (fields_of_shape text) as (?&?&?&?&?&?&?&Hf).
  unfold summary_row, field. rewrite Hf. unfold field_names.
  rewrite !elem_of_cons, elem_of_nil.
  intros [->|[->|[->|[->|[->|[->|[->|[->|[->|[]]]]]]]]]]; reflexivity.
Qed.

Lemma field_order_number text :
  field (fields_of text) "order_number" = order_value text.
Proof.
  destruct (fields_of_shape text) as (?&?&?&?&?&?&?&Hf).
  unfold field. rewrite Hf. reflexivity.
Qed.

Lemma field_freight text :
  field (fields_of text) "freight_inc_gst" = freight_value text.
Proof.
  destruct (fields_of_shape text) as (?&?&?&?&?&?&?&Hf).
  unfold field. rewrite Hf. reflexivity.
Qed.

Lemma elem_of_line_rows_of row name text :
  row ∈ line_rows_of name text →
  ∃ idx item, row = line_row_value name text idx item
              ∧ extract_line_items text !! idx = Some item.
Proof.
  unfold line_rows_of. intros (i & x & -> & Hx)%elem_of_lookup_imap. eauto.
Qed.

Section batch.

Variable ocrmypdf : option pdf → ocr_exit.

Lemma elem_of_usable_docs files name text :
  (name, text) ∈ usable_docs ocrmypdf files ↔
  ∃ p, p ∈ documents files ∧ yields_text ocrmypdf files p = true
       ∧ name = path_name p ∧ text = acquired_text ocrmypdf (files !! p).
Proof.
  unfold usable_docs. rewrite list_elem_of_fmap. split.
  - intros (p & [= -> ->] & [Hy Hp]%list_elem_of_filter). eauto.
  - intros (p & Hp & Hy & -> & ->). exists p. split; [done|].
    by apply list_elem_of_filter.
Qed.

(** Within the batch a file name identifies its document. *)
Lemma documents_name_inj files p q :
  p ∈ documents files → q ∈ documents files →
  path_name p = path_name q → p = q.
Proof.
  intros Hp%documents_input_dir Hq%documents_input_dir Hn.
  destruct p, q. unfold path_name in Hn. simpl in *. by subst.
Qed.

Lemma length_filter_split {A} (P : A → bool) (l : list A) :
  length (filter (λ x, P x = true) l) =
    length l - length (filter (λ x, P x = false) l).
Proof.
  induction l as [|x l IH]; [done|].
  rewrite !filter_cons. destruct (P x) eqn:E.
  - rewrite decide_True, decide_False by done. simpl. rewrite IH.
    pose proof (length_filter (λ x, P x = false) l). lia.
  - rewrite decide_False, decide_True by done. simpl. by rewrite IH.
Qed.

End batch.

End RowFacts.

(** ** extract_text_from_pdf.py *)

Module ExtractFacts.
Import Py PyFacts Spec BatchFacts.

Lemma join_empty_cons x l :
  join EmptyString (x :: l) = x +:+ join EmptyString l.
Proof. destruct l; simpl; [by rewrite str_app_nil_r|done]. Qed.

Lemma page_loop_spec ps acc w :
  ExtractTextFromPdf.page_loop ps acc w =
    (match mapM (λ pg, match pg with PageText t => Some t | PageError => None end) ps with
     | Some ts => Ok (acc +:+ join EmptyString ts)
     | None => Raised FitzError
     end, w).
Proof.
  revert acc. induction ps as [|[t|] ps IH]; intros acc.
  - simpl. unfold_M. by rewrite str_app_nil_r.
  - cbn [ExtractTextFromPdf.page_loop get_text]. unfold mbind at 1, M_bind at 1.
    unfold mret at 1, M_ret at 1. rewrite IH.
    change (mapM ?f (PageText t :: ps)) with (mapM f ps ≫= λ k, mret (t :: k)).
    match goal with |- context [mapM ?f ps ≫= _] => destruct (mapM f ps) end;
      [|done].
    change (Some l ≫= λ k, mret (t :: k)) with (Some (t :: l)).
    cbv beta iota. by rewrite join_empty_cons, str_app_assoc.
  - done.
Qed.

Lemma extract_text_concat_spec p w :
  ExtractTextFromPdf.extract_text_from_pdf p w
    = (Ok (direct_text_concat (fs w !! p)), w).
Proof.
  unfold ExtractTextFromPdf.extract_text_from_pdf, direct_text_concat,
    page_texts, fitz_open.
  unfold_M. destruct (fs w !! p) as [[ps|]|]; [|done..].
  rewrite page_loop_spec.
  match goal with |- context [mapM ?f ps] => destruct (mapM f ps) end; done.
Qed.

Section pipeline.

Variable ocrmypdf : option pdf → ocr_exit.

(** The calls of [run_ocr] after [process_pdf] of extract_text_from_pdf.py. *)
Lemma process_pdf_concat_calls p w :
  ocr_calls (ExtractTextFromPdf.process_pdf ocrmypdf p w).2 =
    if blank (direct_text_concat (fs w !! p))
    then (p, path_join ExtractTextFromPdf.ocr_output_dir (path_name p))
           :: ocr_calls w
    else ocr_calls w.
Proof.
  unfold ExtractTextFromPdf.process_pdf, try_except.
  unfold mbind at 1, M_bind at 1. rewrite extract_text_concat_spec.
  unfold blank. destruct (is_empty (strip (direct_text_concat (fs w !! p)))).
  - simpl. unfold ExtractTextFromPdf.run_ocr, RegexOcr.record_ocr_call,
      RegexOcr.subprocess_run. unfold_M. simpl.
    destruct (ocrmypdf (fs w !! p)); simpl; [|done..].
    by rewrite extract_text_concat_spec.
  - done.
Qed.

End pipeline.

End ExtractFacts.

(** ** The line-item parser *)

Module LineFacts.
Import Py PyFacts Re Spec RegexOcr.

Lemma line_loop_skip pre rest items :
  Forall (λ line, is_header line = false) pre →
  line_loop (pre ++ rest) false items = line_loop rest false items.
Proof.
  induction 1 as [|line pre Hh _ IH]; [done|].
  simpl. by rewrite Hh.
Qed.

(** After the header the loop collects what each line of the data region
    contributes, and stops at the first line that ends the table. *)
Lemma line_loop_rows rows items :
  line_loop rows true items = items ++ omap row_item (data_region rows).
Proof.
  revert items. induction rows as [|line rows IH]; intros items.
  - simpl. by rewrite app_nil_r.
  - cbn [line_loop data_region negb andb].
    destruct (ends_table line); [simpl; by rewrite app_nil_r|].
    cbn [omap list_omap]. unfold row_item at 1.
    destruct (4 <=? length (row_fields line)).
    + rewrite IH, <-(assoc_L (++)). done.
    + apply IH.
Qed.

Lemma line_loop_header h rows items :
  is_header h = true → line_loop (h :: rows) false items = line_loop rows true items.
Proof. intros Hh. simpl. by rewrite Hh. Qed.

(** A line without line boundaries, followed by a newline, is the first
    line [splitlines] returns. *)
Lemma splitlines_go_line h cur s :
  all_chars (λ c, negb (is_linebreak c)) h = true →
  splitlines_go cur (h +:+ s) = splitlines_go (cur +:+ h) s.
Proof.
  revert cur. induction h as [|c h IH]; intros cur Hh.
  - by rewrite str_app_nil_l, str_app_nil_r.
  - simpl in Hh. apply andb_true_iff in Hh as [Hc Hh].
    rewrite str_app_cons. cbn [splitlines_go].
    apply negb_true_iff in Hc. rewrite Hc, IH by done.
    by rewrite str_app_assoc.
Qed.

Lemma splitlines_first_line h s :
  all_chars (λ c, negb (is_linebreak c)) h = true →
  splitlines (h +:+ nl +:+ s) = h :: splitlines s.
Proof.
  intros Hh. unfold splitlines. by rewrite splitlines_go_line.
Qed.

End LineFacts.

(** ** Order numbers *)

Module OrderFacts.
Import Py PyFacts Re ReFacts Spec RegexOcr.

Lemma sorted_set_NoDup l : NoDup (sorted_set l).
Proof.
  unfold sorted_set. rewrite merge_sort_Permutation. apply NoDup_remove_dups.
Qed.

Lemma elem_of_sorted_set x l : x ∈ sorted_set l ↔ x ∈ l.
Proof.
  unfold sorted_set. rewrite merge_sort_Permutation. apply elem_of_remove_dups.
Qed.

Lemma sorted_set_Sorted l : Sorted String.le (sorted_set l).
Proof. unfold sorted_set. apply Sorted_merge_sort. apply _. Qed.

Lemma sorted_set_nil_inv l : sorted_set l = [] → l = [].
Proof.
  intros H. destruct l as [|x l]; [done|].
  assert (x ∈ sorted_set (x :: l)) as Hx by (apply elem_of_sorted_set; by left).
  rewrite H in Hx. by apply elem_of_nil in Hx.
Qed.

(** *** Inversion of the declarative semantics *)

Lemma matches_chr_inv p w caps caps' :
  matches (Chr p) w caps caps' →
  ∃ c, w = String c EmptyString ∧ p c = true ∧ caps' = caps.
Proof. inversion 1; subst; eauto. Qed.

Lemma matches_cat_inv r1 r2 w caps caps' :
  matches (Cat r1 r2) w caps caps' →
  ∃ w1 w2 caps1,
    w = w1 +:+ w2 ∧ matches r1 w1 caps caps1 ∧ matches r2 w2 caps1 caps'.
Proof. inversion 1; subst; eauto 10. Qed.

Lemma matches_lit_inv c w caps caps' :
  matches (lit c) w caps caps' → w = String c EmptyString ∧ caps' = caps.
Proof.
  intros (x & -> & Hx & ->)%matches_chr_inv.
  apply bool_decide_eq_true in Hx as ->. done.
Qed.

Lemma all_chars_app p s t :
  all_chars p (s +:+ t) = all_chars p s && all_chars p t.
Proof.
  induction s as [|c s IH]; [done|].
  rewrite str_app_cons. simpl. by rewrite IH, andb_assoc.
Qed.

(** A repeated character class reads characters of the class only, within
    the bounds, and binds no group. *)
Lemma matches_rep_chr lo hi p w caps caps' :
  matches (Repeat lo hi (Chr p)) w caps caps' →
  all_chars p w = true ∧ lo ≤ String.length w ∧
  (∀ h, hi = Some h → String.length w ≤ h) ∧ caps' = caps.
Proof.
  remember (Repeat lo hi (Chr p)) as r eqn:Hr. intros Hm. revert lo hi Hr.
  induction Hm as [| | | | |hi' r' caps
    |lo' hi' r' w1 w2 caps caps1 caps2 Hhi Hw1 Hm1 _ _ IH2|];
    intros lo hi Hr; simplify_eq.
  - split_and!; [done|simpl; lia| |done]. intros h _. simpl. lia.
  - apply matches_chr_inv in Hm1 as (c & -> & Hc & ->).
    destruct (IH2 (pred lo) (pred <$> hi) eq_refl) as (Hall & Hlo & Hhi' & ->).
    rewrite str_app_cons, str_app_nil_l.
    split_and!; [|simpl; lia| |done].
    + simpl. by rewrite Hc.
    + intros h ->. simpl.
      destruct h as [|h]; [done|]. specialize (Hhi' h eq_refl). lia.
Qed.

(** What group 1 of the order pattern reads is an order id. *)
Lemma order_id_shape t caps caps' :
  matches (cats [lit "3"; lit "1"; lit "0"; lit "0"; exactly 7 digit]) t caps caps' →
  is_order_id t.
Proof.
  cbn [cats].
  intros (w1 & t1 & c1 & -> & H1%matches_lit_inv & H)%matches_cat_inv.
  apply matches_cat_inv in H as (w2 & t2 & c2 & -> & H2%matches_lit_inv & H).
  apply matches_cat_inv in H as (w3 & t3 & c3 & -> & H3%matches_lit_inv & H).
  apply matches_cat_inv in H as (w4 & d & c4 & -> & H4%matches_lit_inv & H).
  destruct H1 as [-> _], H2 as [-> _], H3 as [-> _], H4 as [-> _].
  apply matches_rep_chr in H as (Hall & Hlo & Hhi & _).
  exists d. split_and!; [done| |done].
  specialize (Hhi 7 eq_refl). lia.
Qed.

Lemma finditer_order_group text m :
  m ∈ finditer ORDER_PATTERN text →
  ∃ t, group 1 m = Some t ∧ is_order_id t.
Proof.
  intros Hm.
  destruct (finditer_last_group ORDER_PATTERN 1 _ _ _ eq_refl Hm)
    as (t & c0 & c1 & Hg & Hb).
  exists t. split; [done|]. by eapply order_id_shape.
Qed.

(** Every match [findall] returns for the order pattern is an order id. *)
Lemma findall_order_ids text :
  Forall is_order_id (findall1 ORDER_PATTERN text).
Proof.
  apply Forall_forall. intros x (m & -> & Hm)%list_elem_of_fmap.
  destruct (finditer_order_group _ _ Hm) as (t & Ht & Hid).
  unfold group_or_empty. by rewrite Ht.
Qed.

(** [order_number] is the join of the sorted distinct matches, also when
    there is none. *)
Lemma order_value_join text :
  order_value text = join ", " (sorted_set (findall1 ORDER_PATTERN text)).
Proof.
  unfold order_value. cbv zeta.
  by destruct (findall1 ORDER_PATTERN text).
Qed.

(** *** Splitting the joined ids again *)

Lemma prefix_nil s : String.prefix EmptyString s = true.
Proof. by destruct s. Qed.

Lemma split_sep_go_digits x cur rest :
  all_chars is_digit x = true →
  split_sep_go ", " cur 0 (x +:+ rest) = split_sep_go ", " (cur +:+ x) 0 rest.
Proof.
  revert cur. induction x as [|c x IH]; intros cur Hx.
  - by rewrite str_app_nil_l, str_app_nil_r.
  - simpl in Hx. apply andb_true_iff in Hx as [Hc Hx].
    rewrite str_app_cons. cbn [split_sep_go String.prefix].
    destruct (ascii_dec "," c) as [<-|_]; [done|].
    rewrite IH by done. by rewrite str_app_assoc.
Qed.

Lemma split_sep_go_join x l cur :
  Forall (λ y, all_chars is_digit y = true) (x :: l) →
  split_sep_go ", " cur 0 (join ", " (x :: l)) = (cur +:+ x) :: l.
Proof.
  revert x cur. induction l as [|y l IH]; intros x cur Hall.
  - apply Forall_cons in Hall as [Hx _]. cbn [join].
    rewrite <-(str_app_nil_r x) at 1. by rewrite split_sep_go_digits.
  - apply Forall_cons in Hall as [Hx Hall].
    change (join ", " (x :: y :: l))
      with (x +:+ String "," (String " " (join ", " (y :: l)))).
    rewrite split_sep_go_digits by done.
    cbn [split_sep_go String.prefix].
    destruct (ascii_dec "," ",") as [_|]; [|done].
    destruct (ascii_dec " " " ") as [_|]; [|done].
    rewrite prefix_nil. f_equal.
    change (String.length ", " - 1) with 1.
    cbn [split_sep_go]. by rewrite IH.
Qed.

Lemma order_id_digits x : is_order_id x → all_chars is_digit x = true.
Proof. intros (d & -> & _ & Hd). by rewrite all_chars_app, Hd. Qed.

(** Splitting the order number of a record gives its ids back. *)
Lemma split_join_order_ids ids :
  Forall is_order_id ids → ids ≠ [] →
  split_sep ", " (join ", " ids) = ids.
Proof.
  intros Hids Hne. destruct ids as [|x l]; [done|].
  unfold split_sep. rewrite split_sep_go_join; [done|].
  eapply Forall_impl; [exact Hids|]. apply order_id_digits.
Qed.

(** On a line-item row the ids are joined with a semicolon. *)
Lemma line_order_number_join ids :
  Forall is_order_id ids →
  line_order_number (join ", " ids) = join ";" ids.
Proof.
  intros Hids. unfold line_order_number. cbv zeta.
  destruct ids as [|x [|y l]].
  - done.
  - rewrite split_join_order_ids by done. done.
  - rewrite split_join_order_ids by done. done.
Qed.

Lemma join_at_most_one sep1 sep2 (ids : list string) :
  length ids ≤ 1 → join sep1 ids = join sep2 ids.
Proof. destruct ids as [|x [|y l]]; simpl; [done..|lia]. Qed.

End OrderFacts.

(** ** The freight amount *)

Module FreightFacts.
Import Py PyFacts Re ReFacts Spec RegexOcr OrderFacts.

Lemma digit_not_space c : is_digit c = true → is_space c = false.
Proof. by destruct c as [[] [] [] [] [] [] [] []]. Qed.

Lemma first_char_app s t :
  s ≠ EmptyString → first_char (s +:+ t) = first_char s.
Proof. by destruct s. Qed.

Lemma last_char_app s t :
  t ≠ EmptyString → last_char (s +:+ t) = last_char t.
Proof.
  intros Ht. induction s as [|c s IH]; [done|].
  rewrite str_app_cons. simpl. rewrite IH.
  destruct (s +:+ t) eqn:E; [|done].
  by apply str_app_eq_nil in E as [_ ->].
Qed.

Lemma last_char_all p s c :
  all_chars p s = true → last_char s = Some c → p c = true.
Proof.
  induction s as [|d s IH]; [done|]. simpl.
  intros [Hd Hs]%andb_true_iff. destruct s; [by intros [= <-]|by apply IH].
Qed.

Lemma rstrip_id s :
  (∀ c, last_char s = Some c → is_space c = false) → rstrip s = s.
Proof.
  induction s as [|c s IH]; [done|]. intros H. simpl.
  destruct s as [|d s].
  - simpl. by rewrite (H c eq_refl).
  - rewrite IH by (intros x Hx; by apply H). done.
Qed.

(** Stripping leaves alone a text that neither starts nor ends with white
    space. *)
Lemma strip_id s :
  (∀ c, first_char s = Some c → is_space c = false) →
  (∀ c, last_char s = Some c → is_space c = false) →
  strip s = s.
Proof.
  intros Hfirst Hlast. unfold strip.
  assert (lstrip s = s) as ->; [|by apply rstrip_id].
  destruct s as [|c s]; [done|]. simpl. by rewrite (Hfirst c eq_refl).
Qed.

Lemma matches_group_inv i r w caps caps' :
  matches (Group i r) w caps caps' →
  ∃ caps1, caps' = (i, w) :: caps1 ∧ matches r w caps caps1.
Proof. inversion 1; subst; eauto. Qed.

Lemma matches_opt_inv r w caps caps' :
  matches (opt r) w caps caps' →
  (w = EmptyString ∧ caps' = caps) ∨ matches r w caps caps'.
Proof.
  unfold opt. inversion 1; simplify_eq/=; [by left|right].
  match goal with
  | H : matches (Repeat 0 (Some 0) _) _ _ _ |- _ => inversion H; simplify_eq/=
  end.
  by rewrite str_app_nil_r.
Qed.

Lemma matches_star_chr p w caps :
  all_chars p w = true → matches (star (Chr p)) w caps caps.
Proof.
  unfold star. induction w as [|c w IH]; [constructor|].
  simpl. intros [Hc Hw]%andb_true_iff.
  change (String c w) with (String c EmptyString +:+ w).
  apply (matches_rep_step 0 None (Chr p) _ _ caps caps caps);
    [done|done|by constructor|by apply IH].
Qed.

(** What the amount group reads: an optional currency sign, white space, a
    non-empty run of digits and an optional dot with two digits. *)
Lemma freight_amount_inv w caps caps' :
  matches freight_amount w caps caps' →
  ∃ wc wws wd wdec caps1 caps2 caps3,
    w = wc +:+ wws +:+ wd +:+ wdec ∧
    (∀ c, first_char wc = Some c → is_space c = false) ∧
    all_chars is_space wws = true ∧
    all_chars is_digit wd = true ∧ wd ≠ EmptyString ∧
    matches (plus digit) wd caps1 caps2 ∧
    matches (opt decimals) wdec caps2 caps3 ∧
    (∀ c, last_char wdec = Some c → is_digit c = true).
Proof.
  unfold freight_amount. cbn [cats].
  intros (wc & t1 & c1 & -> & Hc & H)%matches_cat_inv.
  apply matches_cat_inv in H as (wws & t2 & c2 & -> & Hws & H).
  apply matches_cat_inv in H as (wd & wdec & c3 & -> & Hd & Hdec).
  exists wc, wws, wd, wdec, c2, c3, caps'.
  apply matches_rep_chr in Hc as (Hc & _ & _ & _).
  apply matches_rep_chr in Hws as (Hws & _ & _ & _).
  pose proof Hd as (Hdig & Hlen & _ & _)%matches_rep_chr.
  split_and!; [done| |done|done| |done|done|].
  - intros c Hfirst. destruct wc as [|x wc]; [done|].
    injection Hfirst as ->. simpl in Hc.
    apply andb_true_iff in Hc as [Hc _].
    apply orb_true_iff in Hc as [->%bool_decide_eq_true| ->%bool_decide_eq_true];
      done.
  - intros ->. simpl in Hlen. lia.
  - intros c Hlast.
    apply matches_opt_inv in Hdec as [[-> _]|Hdec]; [done|].
    unfold decimals in Hdec. cbn [cats] in Hdec.
    apply matches_cat_inv in Hdec as (wdot & d2 & c4 & -> & _ & Hd2).
    apply matches_rep_chr in Hd2 as (Hd2 & Hlen2 & _ & _).
    rewrite last_char_app in Hlast by (intros ->; simpl in Hlen2; lia).
    exact (last_char_all _ _ _ Hd2 Hlast).
Qed.

(** The amount never ends with white space. *)
Lemma freight_amount_last w caps caps' c :
  matches freight_amount w caps caps' → last_char w = Some c →
  is_space c = false.
Proof.
  intros (wc&wws&wd&wdec&c1&c2&c3&->&_&_&Hd&Hne&_&_&Hdec)%freight_amount_inv Hl.
  apply digit_not_space.
  assert (∀ s t, t ≠ EmptyString → s +:+ t ≠ EmptyString) as Hne_r.
  { intros s t Ht [_ ?]%str_app_eq_nil. done. }
  destruct wdec as [|x wdec].
  - rewrite str_app_nil_r in Hl.
    rewrite last_char_app in Hl by (by apply Hne_r).
    rewrite last_char_app in Hl by done.
    exact (last_char_all _ _ _ Hd Hl).
  - rewrite last_char_app in Hl by (by do 2 apply Hne_r).
    rewrite last_char_app in Hl by (by apply Hne_r).
    rewrite last_char_app in Hl by done.
    by apply Hdec.
Qed.

Lemma freight_amount_nonempty w caps caps' :
  matches freight_amount w caps caps' → w ≠ EmptyString.
Proof.
  intros (wc&wws&wd&wdec&c1&c2&c3&->&_&_&_&Hne&_)%freight_amount_inv.
  intros [_ [_ [? _]%str_app_eq_nil]%str_app_eq_nil]%str_app_eq_nil. done.
Qed.

(** *** The white space before the amount is never part of it *)

Lemma accept_caps_irrel b start s caps a caps' :
  accept b start s caps = Some a → accept b start s caps' ≠ None.
Proof. unfold accept. by destruct (_ && _). Qed.

Lemma run_cat r1 r2 s caps k :
  run (Cat r1 r2) s caps k = run r1 s caps (λ s1 caps1, run r2 s1 caps1 k).
Proof. reflexivity. Qed.

Lemma run_star_cat r1 r2 s caps k :
  run (Cat (star r1) r2) s caps k =
    rep (run r1) (S (String.length s)) 0 None s caps
        (λ s1 caps1, run r2 s1 caps1 k).
Proof. reflexivity. Qed.

(** When the amount can be read from a place that starts with white
    space, it can also be read after that white-space character, so the
    greedy white space before the group does not stop there. *)
Lemma amount_after_space b start ch s caps f caps' :
  is_space ch = true → String.length s < f →
  amount_cont b start (String ch s) caps ≠ None →
  rep (run ws) f 0 None s caps' (amount_cont b start) ≠ None.
Proof.
  intros Hch Hf Hrun. unfold amount_cont in Hrun at 1.
  destruct (run _ (String ch s) caps _) as [a|] eqn:E; [|done]. clear Hrun.
  apply run_sound in E as (w & s2 & c2 & Heq & Hm & HK).
  apply matches_group_inv in Hm as (c3 & -> & Hm).
  apply freight_amount_inv in Hm
    as (wc&wws&wd&wdec&c4&c5&c6&->&Hfc&Hws&Hd&Hne&Hmd&Hmdec&_).
  destruct wc as [|x wc].
  2:{ rewrite !str_app_cons in Heq. injection Heq as <- _.
      rewrite (Hfc ch eq_refl) in Hch. done. }
  rewrite str_app_nil_l in Heq.
  destruct wws as [|y wws].
  { destruct wd as [|z wd]; [done|].
    rewrite str_app_nil_l, !str_app_cons in Heq. injection Heq as <- _.
    simpl in Hd. apply andb_true_iff in Hd as [Hz%digit_not_space _].
    congruence. }
  rewrite !str_app_cons in Heq. injection Heq as <- ->.
  simpl in Hws. apply andb_true_iff in Hws as [_ Hws].
  rewrite str_app_assoc.
  assert (∀ c, amount_cont b start ((wd +:+ wdec) +:+ s2) c ≠ None) as Hk.
  { intros c. unfold amount_cont.
    apply (run_complete _ _ c4 ((3, wd +:+ wdec) :: c6)).
    - constructor. unfold freight_amount. cbn [cats].
      apply (matches_cat _ _ EmptyString (wd +:+ wdec) c4 c4 c6); [constructor|].
      apply (matches_cat _ _ EmptyString (wd +:+ wdec) c4 c4 c6); [constructor|].
      by apply (matches_cat _ _ wd wdec c4 c5 c6).
    - intros c'. by eapply accept_caps_irrel. }
  apply (rep_complete (Chr is_space) 0 None wws caps' caps');
    [by apply matches_star_chr|done|].
  by rewrite <-str_app_assoc.
Qed.

(** One iteration of a starred character class. *)
Lemma rep_chr_cons p fuel ch s caps k :
  rep (run (Chr p)) (S fuel) 0 None (String ch s) caps k =
    if p ch then
      match rep (run (Chr p)) fuel 0 None s caps k with
      | Some a => Some a
      | None => k (String ch s) caps
      end
    else k (String ch s) caps.
Proof.
  cbn [rep run]. destruct (p ch); [|done].
  assert ((String.length s <? String.length (String ch s)) = true) as ->
    by (apply Nat.ltb_lt; simpl; lia).
  reflexivity.
Qed.

Lemma rep_chr_nil p fuel caps k :
  rep (run (Chr p)) fuel 0 None EmptyString caps k = k EmptyString caps.
Proof. by destruct fuel. Qed.

(** The greedy white space before the amount group hands over at a place
    that does not start with white space. *)
Lemma star_then_amount b start fuel s caps a :
  String.length s < fuel →
  rep (run ws) fuel 0 None s caps (amount_cont b start) = Some a →
  ∃ s' caps',
    (∀ c, first_char s' = Some c → is_space c = false) ∧
    amount_cont b start s' caps' = Some a.
Proof.
  unfold ws. revert s caps.
  induction fuel as [|fuel IH]; intros s caps Hfuel H; [lia|].
  destruct s as [|ch s].
  - rewrite rep_chr_nil in H. exists EmptyString, caps. done.
  - rewrite rep_chr_cons in H. simpl in Hfuel.
    destruct (is_space ch) eqn:Hch.
    + destruct (rep (run (Chr is_space)) fuel 0 None s caps (amount_cont b start))
        as [a'|] eqn:E.
      * injection H as ->. apply (IH s caps); [lia|done].
      * exfalso.
        apply (amount_after_space b start ch s caps fuel caps Hch);
          [lia|by rewrite H|done].
    + exists (String ch s), caps. split; [|done].
      by intros c [= <-].
Qed.

(** The third group of a match of the freight pattern is set, and
    stripping does not change it. *)
Lemma freight_run_group b start s post caps :
  run FREIGHT_PATTERN s [] (accept b start) = Some (post, caps) →
  ∃ t, lookup_group 3 caps = Some t ∧ strip t = t.
Proof.
  unfold FREIGHT_PATTERN. cbv zeta. cbn [cats]. intros H.
  rewrite run_cat in H.
  apply run_sound in H as (w1 & s1 & c1 & _ & _ & H). cbv beta in H.
  rewrite run_cat in H.
  apply run_sound in H as (w2 & s2 & c2 & _ & _ & H). cbv beta in H.
  rewrite run_cat in H.
  apply run_sound in H as (w3 & s3 & c3 & _ & _ & H). cbv beta in H.
  rewrite run_star_cat in H.
  apply (star_then_amount b start) in H as (s4 & c4 & Hfirst & H); [|lia].
  unfold amount_cont in H.
  apply run_sound in H as (w & s5 & c5 & -> & Hm & HK).
  apply accept_inv in HK as [= -> ->].
  apply matches_group_inv in Hm as (c6 & -> & Hm).
  exists w. split; [apply lookup_group_head|].
  pose proof (freight_amount_nonempty _ _ _ Hm) as Hne.
  apply strip_id.
  - intros c Hc. apply Hfirst. by rewrite first_char_app.
  - intros c Hc. by eapply freight_amount_last.
Qed.

Lemma match_at_run r b pre s m :
  match_at r b pre s = Some m →
  run r s [] (accept b s) = Some (m_post m, m_groups m).
Proof.
  unfold match_at. destruct (run r s [] _) as [[post caps]|]; [|done].
  by intros [= <-].
Qed.

Lemma scan_match_at fuel r b s m :
  m ∈ scan fuel r b s → ∃ b' pre s', match_at r b' pre s' = Some m.
Proof.
  revert b s. induction fuel as [|fuel IH]; intros b s H; simpl in H.
  - by apply elem_of_nil in H.
  - destruct (search_from r b EmptyString s) as [m0|] eqn:E;
      [|by apply elem_of_nil in H].
    apply elem_of_cons in H as [->|H]; [|by eapply IH].
    apply search_from_inv in E as (b' & pre' & s' & E & _). eauto.
Qed.

(** The amount of every match of the freight pattern is a text that
    stripping leaves as it is. *)
Lemma finditer_freight_group text m :
  m ∈ finditer FREIGHT_PATTERN text →
  ∃ t, group 3 m = Some t ∧ strip t = t.
Proof.
  intros (b & pre & s & H%match_at_run)%scan_match_at.
  by apply freight_run_group in H.
Qed.

(** [freight_inc_gst] is the amount of the last match itself. *)
Lemma freight_value_last text m :
  last (finditer FREIGHT_PATTERN text) = Some m →
  group 3 m = Some (freight_value text).
Proof.
  intros Hlast. unfold freight_value. rewrite Hlast.
  destruct (finditer_freight_group text m) as (t & Ht & Hs).
  { by apply last_Some_elem_of. }
  unfold group_or_empty. rewrite Ht. simpl. by rewrite Hs.
Qed.

End FreightFacts.

(** * The claims *)

Module Claims.
Import Py PyFacts Re ReFacts Spec FieldFacts RegexOcr BatchFacts RowFacts.
Import ExtractFacts OrderFacts FreightFacts.

(** C5. For every text, [freight_inc_gst] is the third group (the amount)
    of the last of all matches of the freight pattern, exactly as matched
    (stripping changes nothing, since the amount neither starts nor ends
    with white space), and it is [0.00] when the pattern has no match. *)
Theorem C5_freight_is_last_amount (text : string) :
  (∃ d v,
     extract_fields text = Ok d ∧
     dict_get d "freight_inc_gst" = Ok v ∧
     (findall 3 FREIGHT_PATTERN text = [] → v = "0.00") ∧
     (∀ t, last (findall 3 FREIGHT_PATTERN text) = Some t →
        ∃ g1 g2, t = [g1; g2; v]) ∧
     (∀ m, last (finditer FREIGHT_PATTERN text) = Some m →
        group 3 m = Some v)) ∧
  let sample := "Subtotal 10.00 Freight inc GST: $ 12.50 due" in
  findall 3 FREIGHT_PATTERN sample
    = [[EmptyString; EmptyString; "10.00"]; ["Freight inc GST"; "inc"; "$ 12.50"]] ∧
  ∃ d, extract_fields sample = Ok d ∧ dict_get d "freight_inc_gst" = Ok "$ 12.50".
Proof.
  split.
  - destruct (extract_fields_ok text) as (v1&v2&v3&v4&v5&v6&v7&Hf).
    eexists _, (freight_value text). split; [exact Hf|]. split_and!.
    + reflexivity.
    + unfold findall, freight_value. intros Hnil%fmap_nil_inv.
      by rewrite Hnil.
    + unfold findall. rewrite fmap_last.
      destruct (last (finditer FREIGHT_PATTERN text)) as [m|] eqn:Hm; [|done].
      intros t [= <-]. eexists _, _. cbn [seq fmap list_fmap].
      do 3 f_equal. apply freight_value_last in Hm.
      unfold group_or_empty. by rewrite Hm.
    + apply freight_value_last.
  - intros sample. split; [by vm_compute|].
    eexists. split; by vm_compute.
Qed.

(** C2, as the code has it.  For every text, [order_number] is the
    comma-space join of the distinct matches of the order pattern (each an
    id of [3100] and seven digits), in ascending order, and the empty
    string when there is no match; a text in which the same eleven-digit id
    occurs twice yields that id once. *)
Theorem C2_order_number_distinct_matches (text : string) :
  (∃ d ids,
     extract_fields text = Ok d ∧
     dict_get d "order_number" = Ok (join ", " ids) ∧
     NoDup ids ∧ Sorted String.le ids ∧
     (∀ x, x ∈ ids ↔ x ∈ findall1 ORDER_PATTERN text) ∧
     Forall is_order_id ids ∧
     (findall1 ORDER_PATTERN text = [] → dict_get d "order_number" = Ok EmptyString)) ∧
  let twice := "Order No: 31001234567" +:+ nl +:+ "Order No: 31001234567" +:+ nl in
  findall1 ORDER_PATTERN twice = ["31001234567"; "31001234567"] ∧
  ∃ d, extract_fields twice = Ok d ∧ dict_get d "order_number" = Ok "31001234567".
Proof.
  split.
  - destruct (extract_fields_ok text) as (v1&v2&v3&v4&v5&v6&v7&Hf).
    eexists _, (sorted_set (findall1 ORDER_PATTERN text)).
    split; [exact Hf|]. split_and!.
    + cbn [dict_get]. rewrite decide_True by done. by rewrite order_value_join.
    + apply sorted_set_NoDup.
    + apply sorted_set_Sorted.
    + intros x. apply elem_of_sorted_set.
    + apply Forall_forall. intros x Hx.
      apply (proj1 (elem_of_sorted_set _ _)) in Hx.
      pose proof (findall_order_ids text) as Hids.
      rewrite Forall_forall in Hids. by apply Hids.
    + intros Hnone. cbn [dict_get]. rewrite decide_True by done.
      unfold order_value. by rewrite Hnone.
  - intros twice. split; [by vm_compute|].
    eexists. split; by vm_compute.
Qed.

(** C2 as stated fails on its example: [3100123456] has only six digits
    after [3100], so the pattern has no match in the text and
    [order_number] is the empty string. *)
Lemma C2_counterexample :
  let text := "Order No: 3100123456" +:+ nl +:+ "Order No: 3100123456" +:+ nl in
  findall1 ORDER_PATTERN text = [] ∧
  ∃ d, extract_fields text = Ok d ∧ dict_get d "order_number" = Ok EmptyString.
Proof. intros text. split; [by vm_compute|]. eexists. split; by vm_compute. Qed.

(** C8, as the code has it.  [extract_text_from_pdf] never raises: when the
    file opens and every page yields its text, it returns the page texts in
    document order, joined with a newline in regex_ocr.py and concatenated
    in extract_text_from_pdf.py; when the file is missing or unreadable or
    a page fails, it returns the empty string, never a part of the pages. *)
Theorem C8_extract_text_total (p : Path) (w : world) :
  RegexOcr.extract_text_from_pdf p w =
    (Ok (match page_texts (fs w !! p) with
         | Some ts => join nl ts
         | None => EmptyString
         end), w) ∧
  ExtractTextFromPdf.extract_text_from_pdf p w =
    (Ok (match page_texts (fs w !! p) with
         | Some ts => join EmptyString ts
         | None => EmptyString
         end), w).
Proof.
  split; [apply extract_text_from_pdf_spec|apply extract_text_concat_spec].
Qed.

(** C8 as stated fails: for a readable file with the two pages [a] and [b]
    regex_ocr.py returns the three characters a, newline, b, which is not
    the concatenation [ab] of the page texts. *)
Lemma C8_counterexample :
  let p : Path := ("invoices_in", "two.pdf") in
  let w := World {[ p := Pages [PageText "a"; PageText "b"] ]} [] in
  page_texts (fs w !! p) = Some ["a"; "b"] ∧
  join EmptyString ["a"; "b"] = "ab" ∧
  RegexOcr.extract_text_from_pdf p w = (Ok ("a" +:+ nl +:+ "b"), w) ∧
  bool_decide ("a" +:+ nl +:+ "b" = "ab") = false.
Proof. vm_compute. done. Qed.

(** C6. Once the header line is found, every line up to the first blank
    or totals line is split into fields on [\s{2,}|\t]; a line with fewer
    than 4 fields contributes nothing and a line with 4 or more contributes
    its first 5 fields, in order.  In particular a row of 3 tokens gives no
    item and a row of 6 tokens gives the item of its first 5. *)
Theorem C6_data_rows (text : string) (pre : list string) (h : string)
    (rows : list string) :
  splitlines text = pre ++ h :: rows →
  Forall (λ line, is_header line = false) pre →
  is_header h = true →
  extract_line_items text = omap row_item (data_region rows) ∧
  (∀ line, length (row_fields line) < 4 → row_item line = None) ∧
  (∀ line, 4 ≤ length (row_fields line) →
     row_item line = Some (take 5 (row_fields line))) ∧
  row_item "a  b  c" = None ∧
  row_item "a  b  c  d  e  f" = Some ["a"; "b"; "c"; "d"; "e"].
Proof.
  intros Hsplit Hpre Hh. split_and!.
  - unfold extract_line_items. rewrite Hsplit.
    rewrite LineFacts.line_loop_skip by done.
    rewrite LineFacts.line_loop_header by done.
    apply LineFacts.line_loop_rows.
  - intros line Hlen. unfold row_item.
    destruct (4 <=? length (row_fields line)) eqn:E; [|done].
    apply Nat.leb_le in E. lia.
  - intros line Hlen. unfold row_item.
    apply Nat.leb_le in Hlen. by rewrite Hlen.
  - by vm_compute.
  - by vm_compute.
Qed.

(** A table whose header names both [Qty] and [Quantity], with a row of
    3 tokens, a row of 6 tokens, the blank line that ends the table and a
    row after it. *)
Lemma C6_witness :
  let h := "Description  SKU  Qty  Quantity  Unit Price  Amount" in
  let rows := ["a  b  c"; "a  b  c  d  e  f"; ""; "x  x  x  x"] in
  let text := join nl (["Invoice 7"; h] ++ rows) in
  extract_line_items text = [["a"; "b"; "c"; "d"; "e"]].
Proof.
  intros h rows text.
  destruct (C6_data_rows text ["Invoice 7"] h rows) as [-> _].
  - by vm_compute.
  - repeat constructor.
  - by vm_compute.
  - by vm_compute.
Defined.

(** With a first line the parser takes for a header line, which needs a
    token match for each of the seven keywords, the data line
    [Widget W-1 2 10.00 20.00] followed by a blank line gives exactly one
    item, with the fields in the order of the columns of the row. *)
Lemma recognized_header_one_item (h : string) :
  all_chars (λ c, negb (is_linebreak c)) h = true →
  is_header h = true →
  extract_line_items
    (h +:+ nl +:+ "Widget   W-1   2   10.00   20.00" +:+ nl +:+ nl)
  = [["Widget"; "W-1"; "2"; "10.00"; "20.00"]].
Proof.
  intros Hline Hh. unfold extract_line_items.
  rewrite LineFacts.splitlines_first_line by done.
  rewrite LineFacts.line_loop_header by done.
  by vm_compute.
Qed.

(** A header line that names both [qty] and [quantity]. *)
Lemma recognized_header_one_item_example :
  extract_line_items
    ("Description   SKU   Qty   Quantity   Unit Price   Amount"
       +:+ nl +:+ "Widget   W-1   2   10.00   20.00" +:+ nl +:+ nl)
  = [["Widget"; "W-1"; "2"; "10.00"; "20.00"]].
Proof.
  apply (recognized_header_one_item
           "Description   SKU   Qty   Quantity   Unit Price   Amount");
    by vm_compute.
Defined.

(** C1.  On the example text of the specification the code returns no
    item.  The header line of the example has a token match for
    [description], [sku], [qty], [unit], [price] and [amount], and none for
    [quantity], which [header_keywords] lists as a keyword of its own
    beside [qty]: under [all(...)] the line is not taken for a header line,
    so that the data line below it is never read. *)
Theorem C1_example_yields_no_item :
  let h := "Description   SKU   Qty   Unit Price   Amount" in
  let text := h +:+ nl +:+ "Widget   W-1   2   10.00   20.00" +:+ nl +:+ nl in
  let has_token kw :=
    existsb (λ part, contains kw (lower part)) (split_ws (lower h)) in
  base.filter (λ kw, has_token kw = false) header_keywords = ["quantity"] ∧
  is_header h = false ∧
  extract_line_items text = [].
Proof. by vm_compute. Qed.

Section batch.

Variable ocrmypdf : option pdf → ocr_exit.

(** C3. In the output of [main], every line-item row carries the file name
    of some summary row, and a document whose acquisition (OCR fallback
    included) yields no usable text has neither a summary row nor a
    line-item row. *)
Theorem C3_no_orphan_line_items (w : world) :
  ∃ summary lines w',
    main ocrmypdf w = (Ok (summary, lines), w') ∧
    (∀ row, row ∈ lines →
       ∃ name srow,
         dict_get row "pdf_filename" = Ok (Str name) ∧
         srow ∈ summary ∧ dict_get srow "pdf_filename" = Ok name) ∧
    (∀ p, p ∈ documents (fs w) → yields_text ocrmypdf (fs w) p = false →
       (∀ srow, srow ∈ summary →
          dict_get srow "pdf_filename" ≠ Ok (path_name p)) ∧
       (∀ row, row ∈ lines →
          dict_get row "pdf_filename" ≠ Ok (Str (path_name p)))).
Proof.
  destruct (main_spec ocrmypdf w) as [w' Hmain].
  eexists _, _, w'. split; [exact Hmain|]. split.
  - intros row ([name text] & Hrow & Hd)%list_elem_of_bind. simpl in Hrow.
    apply elem_of_line_rows_of in Hrow as (idx & item & -> & _).
    exists name, (summary_row name text). split_and!.
    + reflexivity.
    + apply list_elem_of_fmap. by exists (name, text).
    + apply summary_row_filename.
  - intros p Hp Hy. split.
    + intros srow ([name text] & -> & Hd)%list_elem_of_fmap. simpl.
      rewrite summary_row_filename. intros [= ->].
      apply elem_of_usable_docs in Hd as (q & Hq & Hyq & Hn & _).
      rewrite (documents_name_inj _ _ _ Hp Hq Hn) in Hy. congruence.
    + intros row ([name text] & Hrow & Hd)%list_elem_of_bind. simpl in Hrow.
      apply elem_of_line_rows_of in Hrow as (idx & item & -> & _).
      intros [= ->].
      apply elem_of_usable_docs in Hd as (q & Hq & Hyq & Hn & _).
      rewrite (documents_name_inj _ _ _ Hp Hq Hn) in Hy. congruence.
Qed.

(** C7. The batch run returns without raising; of the N documents of the
    batch, the M that yield no usable text after direct extraction and the
    single OCR attempt contribute nothing, so the summary relation has
    exactly N - M rows; when M = N both relations are empty. *)
Theorem C7_summary_row_count (w : world) :
  let docs := documents (fs w) in
  let failed := filter (λ p, yields_text ocrmypdf (fs w) p = false) docs in
  ∃ summary lines w',
    main ocrmypdf w = (Ok (summary, lines), w') ∧
    length summary = length docs - length failed ∧
    (length failed = length docs → summary = [] ∧ lines = []).
Proof.
  intros docs failed.
  destruct (main_spec ocrmypdf w) as [w' Hmain].
  eexists _, _, w'. split; [exact Hmain|].
  assert (length (usable_docs ocrmypdf (fs w)) = length docs - length failed)
    as Hlen.
  { unfold usable_docs. rewrite length_fmap.
    apply (length_filter_split (yields_text ocrmypdf (fs w))). }
  split.
  - by rewrite length_fmap.
  - intros HMN.
    assert (usable_docs ocrmypdf (fs w) = []) as ->.
    { apply length_zero_iff_nil. lia. }
    done.
Qed.

(** C10. [extract_fields] always returns a record with the nine keys, so
    the record is never empty and [main] keeps it: a document has a summary
    row if and only if its acquired text is non-empty after stripping. *)
Theorem C10_summary_row_iff_usable_text (w : world) :
  (∀ text, ∃ d, extract_fields text = Ok d ∧ d.*1 = field_names) ∧
  ∃ summary lines w',
    main ocrmypdf w = (Ok (summary, lines), w') ∧
    ∀ p, p ∈ documents (fs w) →
      (∃ srow, srow ∈ summary ∧ dict_get srow "pdf_filename" = Ok (path_name p))
      ↔ strip (acquired_text ocrmypdf (fs w !! p)) ≠ EmptyString.
Proof.
  split.
  { intros text. destruct (extract_fields_ok text) as (?&?&?&?&?&?&?&->).
    eexists. split; reflexivity. }
  destruct (main_spec ocrmypdf w) as [w' Hmain].
  eexists _, _, w'. split; [exact Hmain|].
  intros p Hp.
  assert (yields_text ocrmypdf (fs w) p = true
          ↔ strip (acquired_text ocrmypdf (fs w !! p)) ≠ EmptyString) as <-.
  { unfold yields_text, blank.
    by destruct (strip (acquired_text ocrmypdf (fs w !! p))). }
  split.
  - intros (srow & ([name text] & -> & Hd)%list_elem_of_fmap & Hn).
    simpl in Hn. rewrite summary_row_filename in Hn. injection Hn as ->.
    apply elem_of_usable_docs in Hd as (q & Hq & Hyq & Hn & _).
    by rewrite (documents_name_inj _ _ _ Hp Hq Hn).
  - intros Hy.
    exists (summary_row (path_name p) (acquired_text ocrmypdf (fs w !! p))).
    split; [|apply summary_row_filename].
    apply list_elem_of_fmap.
    exists (path_name p, acquired_text ocrmypdf (fs w !! p)). split; [done|].
    apply elem_of_usable_docs. by exists p.
Qed.

(** C4, as the code has it.  [run_ocr] is called by [process_pdf] exactly
    when the directly extracted text is empty after stripping: a text that
    is usable leaves the record of OCR calls as it was, and a blank one
    (the empty text, or one of white space only) adds one call, for the
    document and its path in the OCR output directory.  This holds for
    [process_pdf] of both files. *)
Theorem C4_ocr_gated_by_usable_text (p : Path) (w : world) :
  (∃ text,
     RegexOcr.extract_text_from_pdf p w = (Ok text, w) ∧
     ocr_calls (RegexOcr.process_pdf ocrmypdf p w).2 =
       if blank text
       then (p, path_join RegexOcr.ocr_output_dir (path_name p)) :: ocr_calls w
       else ocr_calls w) ∧
  (∃ text,
     ExtractTextFromPdf.extract_text_from_pdf p w = (Ok text, w) ∧
     ocr_calls (ExtractTextFromPdf.process_pdf ocrmypdf p w).2 =
       if blank text
       then (p, path_join ExtractTextFromPdf.ocr_output_dir (path_name p))
              :: ocr_calls w
       else ocr_calls w).
Proof.
  split.
  - exists (direct_text (fs w !! p)). split; [apply extract_text_from_pdf_spec|].
    rewrite process_pdf_spec. unfold after_process. simpl.
    by destruct (blank _).
  - exists (direct_text_concat (fs w !! p)).
    split; [apply extract_text_concat_spec|apply process_pdf_concat_calls].
Qed.

(** C9, as the code has it.  Every line-item row of [main] belongs to a
    document with a summary row, and carries the [invoice_number] and the
    [freight_inc_gst] of that row unchanged; its [order_number] holds the
    same distinct order ids as the summary row, joined with a semicolon
    where the summary row joins them with comma and space, so the two are
    the same string when the document has at most one order id. *)
Theorem C9_line_rows_copy_fields (w : world) :
  ∃ summary lines w',
    main ocrmypdf w = (Ok (summary, lines), w') ∧
    ∀ row, row ∈ lines →
      ∃ name text srow,
        (name, text) ∈ usable_docs ocrmypdf (fs w) ∧
        srow ∈ summary ∧
        dict_get srow "pdf_filename" = Ok name ∧
        dict_get row "pdf_filename" = Ok (Str name) ∧
        (∃ v, dict_get srow "invoice_number" = Ok v ∧
              dict_get row "invoice_number" = Ok (Str v)) ∧
        (∃ v, dict_get srow "freight_inc_gst" = Ok v ∧
              dict_get row "freight_inc_gst" = Ok (Str v)) ∧
        let ids := sorted_set (findall1 ORDER_PATTERN text) in
        dict_get srow "order_number" = Ok (join ", " ids) ∧
        dict_get row "order_number" = Ok (Str (join ";" ids)) ∧
        (length ids ≤ 1 → join ";" ids = join ", " ids).
Proof.
  destruct (main_spec ocrmypdf w) as [w' Hmain].
  eexists _, _, w'. split; [exact Hmain|].
  intros row ([name text] & Hrow & Hd)%list_elem_of_bind. simpl in Hrow.
  apply elem_of_line_rows_of in Hrow as (idx & item & -> & _).
  exists name, text, (summary_row name text). split_and!.
  - done.
  - apply list_elem_of_fmap. by exists (name, text).
  - apply summary_row_filename.
  - reflexivity.
  - eexists. split; [|reflexivity].
    apply summary_row_field. unfold field_names. repeat constructor.
  - eexists. split; [|reflexivity].
    apply summary_row_field. unfold field_names. repeat constructor.
  - intros ids.
    assert (Forall is_order_id ids) as Hids.
    { apply Forall_forall. intros x Hx.
      apply (proj1 (elem_of_sorted_set _ _)) in Hx.
      pose proof (findall_order_ids text) as H.
      rewrite Forall_forall in H. by apply H. }
    split_and!.
    + rewrite summary_row_field by (unfold field_names; repeat constructor).
      by rewrite field_order_number, order_value_join.
    + cbn [line_row_value dict_get].
      rewrite decide_False, decide_False, decide_True by done.
      rewrite field_order_number, order_value_join.
      by rewrite line_order_number_join.
    + apply join_at_most_one.
Qed.

End batch.

(** C9 as stated fails: for a document with two order ids and one item
    row, the summary row has the ids joined by comma and space and the
    line-item row has them joined by a semicolon. *)
Lemma C9_counterexample :
  let text := "31000000001 31000000002" +:+ nl
              +:+ "Description SKU Qty Quantity Unit Price Amount" +:+ nl
              +:+ "A  B  C  D" +:+ nl in
  let p : Path := ("invoices_in", "a.pdf") in
  let w := World {[ p := Pages [PageText text] ]} [] in
  let ocr := λ _ : option pdf, OcrFailed in
  ∃ srow row,
    (main ocr w).1 = Ok ([srow], [row]) ∧
    dict_get srow "pdf_filename" = Ok "a.pdf" ∧
    dict_get row "pdf_filename" = Ok (Str "a.pdf") ∧
    dict_get srow "order_number" = Ok "31000000001, 31000000002" ∧
    dict_get row "order_number" = Ok (Str "31000000001;31000000002").
Proof. intros text p w ocr. eexists _, _. split_and!; by vm_compute. Qed.

(** C4 as stated fails: a one-page file whose text is a single space yields
    a non-empty text on direct extraction, and [process_pdf] still calls
    [run_ocr] for it. *)
Lemma C4_counterexample :
  let p : Path := ("invoices_in", "scan.pdf") in
  let w := World {[ p := Pages [PageText " "] ]} [] in
  let ocr := λ _ : option pdf, OcrFailed in
  RegexOcr.extract_text_from_pdf p w = (Ok " ", w) ∧
  is_empty " " = false ∧
  ocr_calls (RegexOcr.process_pdf ocr p w).2 = [(p, ("ocr_output", "scan.pdf"))].
Proof. vm_compute. done. Qed.

End Claims.

(** * Further properties of the code *)

(** ** The values of the record *)

Module FieldValueFacts.
Import Py PyFacts Re ReFacts Spec FieldFacts RegexOcr BatchFacts RowFacts.
Import ExtractFacts LineFacts OrderFacts FreightFacts.

Lemma group_strip_captured r body text :
  last_group r = Some (2, body) →
  group_strip 2 (search r text) = Ok (captured r text).
Proof.
  intros Hl. unfold group_strip, captured.
  destruct (search r text) as [m|] eqn:E; [|done].
  destruct (search_last_group _ _ _ _ _ Hl E) as (t & _ & _ & Hg & _).
  unfold group_or_empty. by rewrite Hg.
Qed.

Lemma supplier_captured text :
  match search SUPPLIER_PATTERN text with
  | None => Ok EmptyString
  | Some mo =>
      match group 2 mo with
      | Some t => Py.strip <$> index (split_sep nl t) 0
      | None => Raised AttributeError
      end
  end = Ok (supplier_name text).
Proof.
  unfold supplier_name.
  destruct (search SUPPLIER_PATTERN text) as [m|] eqn:E; [|done].
  destruct (search_last_group SUPPLIER_PATTERN 2 _ _ _ eq_refl E)
    as (t & _ & _ & Hg & _).
  unfold group_or_empty. rewrite Hg. simpl.
  unfold split_sep, index.
  pose proof (split_sep_go_nonempty nl EmptyString 0 t) as Hne.
  by destruct (split_sep_go nl EmptyString 0 t) as [|x l].
Qed.

(** Every field of the record, as a function of the text. *)
Lemma extract_fields_values text :
  extract_fields text =
    Ok [("order_number", order_value text);
        ("invoice_number", captured INVOICE_PATTERN text);
        ("invoice_date", captured DATE_PATTERN text);
        ("due_date", captured DUE_DATE_PATTERN text);
        ("total_amount", captured TOTAL_PATTERN text);
        ("freight_inc_gst", freight_value text);
        ("supplier", supplier_name text);
        ("abn", captured ABN_PATTERN text);
        ("po_number", captured PO_PATTERN text)].
Proof.
  unfold extract_fields. cbv zeta.
  rewrite (group_strip_captured INVOICE_PATTERN _ text eq_refl), bind_Ok.
  rewrite (group_strip_captured DATE_PATTERN _ text eq_refl), bind_Ok.
  rewrite (group_strip_captured DUE_DATE_PATTERN _ text eq_refl), bind_Ok.
  rewrite (group_strip_captured TOTAL_PATTERN _ text eq_refl), bind_Ok.
  rewrite freight_tuple_value, bind_Ok, supplier_captured, bind_Ok.
  rewrite (group_strip_captured ABN_PATTERN _ text eq_refl), bind_Ok.
  rewrite (group_strip_captured PO_PATTERN _ text eq_refl), bind_Ok.
  reflexivity.
Qed.

(** *** Stripping *)

Lemma lstrip_first s c : first_char (lstrip s) = Some c → is_space c = false.
Proof.
  induction s as [|d s IH]; [done|]. simpl.
  destruct (is_space d) eqn:E; [done|]. simpl. by intros [= <-].
Qed.

Lemma rstrip_first s c : first_char (rstrip s) = Some c → first_char s = Some c.
Proof.
  destruct s as [|d s]; [done|]. simpl.
  destruct (rstrip s); [by destruct (is_space d)|done].
Qed.

Lemma rstrip_last s c : last_char (rstrip s) = Some c → is_space c = false.
Proof.
  induction s as [|d s IH]; [done|]. simpl.
  destruct (rstrip s) as [|e r] eqn:E.
  - destruct (is_space d) eqn:Ed; [done|]. simpl. by intros [= <-].
  - simpl. exact IH.
Qed.

Lemma strip_first s c : first_char (strip s) = Some c → is_space c = false.
Proof. intros H%rstrip_first. by eapply lstrip_first. Qed.

Lemma strip_last s c : last_char (strip s) = Some c → is_space c = false.
Proof. apply rstrip_last. Qed.

(** Stripping twice is stripping once. *)
Lemma strip_idemp s : strip (strip s) = strip s.
Proof. apply strip_id; [apply strip_first|apply strip_last]. Qed.

Lemma captured_stripped r text : strip (captured r text) = captured r text.
Proof. unfold captured. destruct (search r text); [apply strip_idemp|done]. Qed.

Lemma supplier_stripped text : strip (supplier_name text) = supplier_name text.
Proof.
  unfold supplier_name.
  destruct (search SUPPLIER_PATTERN text); [apply strip_idemp|done].
Qed.

Lemma freight_stripped text : strip (freight_value text) = freight_value text.
Proof.
  unfold freight_value.
  destruct (last (finditer FREIGHT_PATTERN text)); [apply strip_idemp|done].
Qed.

Lemma first_char_join sep x l :
  x ≠ EmptyString → first_char (join sep (x :: l)) = first_char x.
Proof.
  intros Hx. destruct l as [|y l]; [done|].
  change (join sep (x :: y :: l)) with (x +:+ sep +:+ join sep (y :: l)).
  by apply first_char_app.
Qed.

Lemma join_cons_nonempty sep x l :
  x ≠ EmptyString → join sep (x :: l) ≠ EmptyString.
Proof.
  intros Hx. destruct l as [|y l]; [done|].
  change (join sep (x :: y :: l)) with (x +:+ sep +:+ join sep (y :: l)).
  by intros [? _]%str_app_eq_nil.
Qed.

Lemma last_char_join sep l c :
  Forall (λ x, x ≠ EmptyString) l →
  last_char (join sep l) = Some c → ∃ x, x ∈ l ∧ last_char x = Some c.
Proof.
  induction l as [|x l IH]; intros Hne; [done|].
  apply Forall_cons in Hne as [Hx Hl].
  destruct l as [|y l].
  - intros H. exists x. split; [apply list_elem_of_here|done].
  - change (join sep (x :: y :: l)) with (x +:+ sep +:+ join sep (y :: l)).
    assert (join sep (y :: l) ≠ EmptyString) as Hj.
    { apply join_cons_nonempty. by apply Forall_cons in Hl as [? _]. }
    rewrite last_char_app.
    2:{ by intros [_ ?]%str_app_eq_nil. }
    rewrite last_char_app by done.
    intros H. destruct (IH Hl H) as (z & Hz & Hc).
    exists z. split; [by apply list_elem_of_further|done].
Qed.

Lemma order_id_nonempty x : is_order_id x → x ≠ EmptyString.
Proof. by intros (d & -> & _). Qed.

Lemma order_id_first x c : is_order_id x → first_char x = Some c → is_space c = false.
Proof. intros (d & -> & _). by intros [= <-]. Qed.

Lemma order_id_last x c : is_order_id x → last_char x = Some c → is_space c = false.
Proof.
  intros Hx Hc. apply digit_not_space.
  exact (last_char_all _ _ _ (order_id_digits _ Hx) Hc).
Qed.

Lemma order_value_stripped text : strip (order_value text) = order_value text.
Proof.
  rewrite order_value_join.
  pose proof (findall_order_ids text) as Hids.
  assert (Forall is_order_id (sorted_set (findall1 ORDER_PATTERN text))) as Hs.
  { apply Forall_forall. intros x Hx.
    apply (proj1 (elem_of_sorted_set _ _)) in Hx.
    rewrite Forall_forall in Hids. by apply Hids. }
  destruct (sorted_set (findall1 ORDER_PATTERN text)) as [|x l]; [done|].
  apply strip_id.
  - intros c. rewrite first_char_join.
    + apply order_id_first. by apply Forall_cons in Hs as [? _].
    + apply order_id_nonempty. by apply Forall_cons in Hs as [? _].
  - intros c Hc. apply last_char_join in Hc as (z & Hz & Hc).
    + rewrite Forall_forall in Hs. by eapply order_id_last; [apply Hs|].
    + eapply Forall_impl; [exact Hs|]. apply order_id_nonempty.
Qed.

End FieldValueFacts.

(** ** Where a match lies, and when there is one *)

Module SearchFacts.
Import Py PyFacts Re ReFacts Spec FieldFacts RegexOcr BatchFacts RowFacts.
Import ExtractFacts LineFacts OrderFacts FreightFacts.
Import FieldValueFacts.

(** *** Where a match lies, and when there is one *)

Lemma occurs_app_l w s t : occurs w s → occurs w (t +:+ s).
Proof.
  intros (pre & post & ->). exists (t +:+ pre), post. by rewrite str_app_assoc.
Qed.

Lemma occurs_app_r w s t : occurs w s → occurs w (s +:+ t).
Proof.
  intros (pre & post & ->). exists pre, (post +:+ t).
  by rewrite !str_app_assoc.
Qed.

Lemma occurs_refl w : occurs w w.
Proof. exists EmptyString, EmptyString. by rewrite str_app_nil_r. Qed.

Lemma occurs_trans u w s : occurs u w → occurs w s → occurs u s.
Proof.
  intros Hu (pre & post & ->). by apply occurs_app_l, occurs_app_r.
Qed.

Lemma all_chars_occurs p w s :
  occurs w s → all_chars p s = true → all_chars p w = true.
Proof.
  intros (pre & post & ->). rewrite !all_chars_app.
  intros [_ [? _]%andb_true_iff]%andb_true_iff. done.
Qed.

Lemma search_from_eq r b pre s :
  search_from r b pre s =
    match match_at r b pre s with
    | Some m => Some m
    | None =>
        match s with
        | EmptyString => None
        | String c s' => search_from r false (pre +:+ String c EmptyString) s'
        end
    end.
Proof. by destruct s. Qed.

Lemma match_at_complete r w post pre caps caps' :
  matches r w caps caps' → is_Some (match_at r false pre (w +:+ post)).
Proof.
  intros Hm. unfold match_at.
  pose proof (run_complete r w caps caps' post (accept false (w +:+ post)) [] Hm)
    as H.
  destruct (run r (w +:+ post) [] (accept false (w +:+ post))) as [[p c]|];
    [done|].
  exfalso. by apply H.
Qed.

(** The search finds a match whenever some part of the text is a word the
    expression matches. *)
Lemma search_from_complete r w post caps caps' pre acc :
  matches r w caps caps' →
  is_Some (search_from r false acc (pre +:+ w +:+ post)).
Proof.
  intros Hm. revert acc. induction pre as [|c pre IH]; intros acc.
  - rewrite str_app_nil_l, search_from_eq.
    destruct (match_at_complete r w post acc _ _ Hm) as [m ->]. done.
  - rewrite str_app_cons. simpl.
    destruct (match_at r false acc _); [done|]. apply IH.
Qed.

Lemma search_complete r w text caps caps' :
  matches r w caps caps' → occurs w text → is_Some (search r text).
Proof.
  intros Hm (pre & post & ->). by eapply search_from_complete.
Qed.

Lemma search_occurs r text m :
  search r text = Some m → occurs (m_text m) text.
Proof.
  intros [Heq _]%search_from_sound. rewrite str_app_nil_l in Heq.
  by exists (m_pre m), (m_post m).
Qed.

Lemma scan_occurs fuel r b s m :
  m ∈ scan fuel r b s → occurs (m_text m) s.
Proof.
  revert b s. induction fuel as [|fuel IH]; intros b s H; simpl in H.
  - by apply elem_of_nil in H.
  - destruct (search_from r b EmptyString s) as [m0|] eqn:E;
      [|by apply elem_of_nil in H].
    apply search_from_sound in E as [Heq _]. rewrite str_app_nil_l in Heq.
    apply elem_of_cons in H as [->|H].
    + by exists (m_pre m0), (m_post m0).
    + apply IH in H. rewrite Heq.
      by apply occurs_app_l, occurs_app_l.
Qed.

Lemma finditer_occurs r s m : m ∈ finditer r s → occurs (m_text m) s.
Proof. apply scan_occurs. Qed.

Lemma finditer_nil_iff r s : finditer r s = [] ↔ search r s = None.
Proof.
  unfold finditer, search.
  replace (2 * String.length s + 2) with (S (2 * String.length s + 1)) by lia.
  simpl. destruct (search_from r false EmptyString s); split; done.
Qed.

(** The last group of a match, as a part of the text. *)
Lemma last_group_occurs r i body text m :
  last_group r = Some (i, body) →
  occurs (m_text m) text → matches r (m_text m) [] (m_groups m) →
  ∃ t caps0 caps1,
    group i m = Some t ∧ matches body t caps0 caps1 ∧ occurs t text.
Proof.
  intros Hl Ho Hm.
  destruct (matches_last_group _ _ _ _ _ _ Hl Hm)
    as (pre & t & c0 & c1 & Hw & Hg & Hb).
  exists t, c0, c1. split_and!; [|done|].
  - unfold group. rewrite Hg. apply lookup_group_head.
  - eapply occurs_trans; [|exact Ho]. rewrite Hw.
    apply occurs_app_l, occurs_refl.
Qed.

Lemma captured_inv r body text :
  last_group r = Some (2, body) →
  (search r text = None ∧ captured r text = EmptyString) ∨
  (∃ t caps0 caps1,
     captured r text = strip t ∧ matches body t caps0 caps1 ∧ occurs t text).
Proof.
  intros Hl. unfold captured.
  destruct (search r text) as [m|] eqn:E; [right|by left].
  destruct (last_group_occurs r 2 body text m Hl)
    as (t & c0 & c1 & Hg & Hb & Ho).
  - by apply (search_occurs r).
  - by apply search_sound in E.
  - exists t, c0, c1. unfold group_or_empty. by rewrite Hg.
Qed.

(** *** Building matches *)

Lemma matches_cat_nil_l r1 r2 w caps caps1 caps2 :
  matches r1 EmptyString caps caps1 → matches r2 w caps1 caps2 →
  matches (Cat r1 r2) w caps caps2.
Proof. intros H1 H2. exact (matches_cat r1 r2 EmptyString w _ _ _ H1 H2). Qed.

Lemma matches_opt_nil r caps : matches (opt r) EmptyString caps caps.
Proof. constructor. Qed.

Lemma matches_star_nil r caps : matches (star r) EmptyString caps caps.
Proof. constructor. Qed.

Lemma matches_cat_nil_r r1 r2 w caps caps1 caps2 :
  matches r1 w caps caps1 → matches r2 EmptyString caps1 caps2 →
  matches (Cat r1 r2) w caps caps2.
Proof.
  intros H1 H2. rewrite <-(str_app_nil_r w).
  exact (matches_cat r1 r2 w EmptyString _ _ _ H1 H2).
Qed.

Lemma matches_cat_chr (p : ascii → bool) r2 c w caps caps2 :
  p c = true → matches r2 w caps caps2 →
  matches (Cat (Chr p) r2) (String c w) caps caps2.
Proof.
  intros Hc H2.
  exact (matches_cat (Chr p) r2 (String c EmptyString) w _ _ _
           (matches_chr p c caps Hc) H2).
Qed.

(** A run of characters of a class, within the bounds, is matched by the
    repeated class. *)
Lemma matches_rep_chr_intro p w caps : ∀ lo hi,
  all_chars p w = true → lo ≤ String.length w →
  (∀ h, hi = Some h → String.length w ≤ h) →
  matches (Repeat lo hi (Chr p)) w caps caps.
Proof.
  induction w as [|c w IH]; intros lo hi Hall Hlo Hhi.
  - simpl in Hlo. replace lo with 0 by lia. constructor.
  - simpl in Hall, Hlo. apply andb_true_iff in Hall as [Hc Hw].
    change (String c w) with (String c EmptyString +:+ w).
    apply (matches_rep_step lo hi (Chr p) _ _ caps caps caps).
    + intros ->. specialize (Hhi 0 eq_refl). simpl in Hhi. lia.
    + done.
    + by constructor.
    + apply IH; [done|lia|].
      intros h Hh. destruct hi as [h'|]; [|done]. simpl in Hh.
      injection Hh as <-. specialize (Hhi h' eq_refl). simpl in Hhi. lia.
Qed.

Lemma first_char_all p s c :
  all_chars p s = true → first_char s = Some c → p c = true.
Proof.
  destruct s as [|d s]; [done|]. simpl.
  intros [Hd _]%andb_true_iff [= <-]. done.
Qed.

Lemma all_chars_false p s :
  all_chars p s = false →
  ∃ pre c post, s = pre +:+ String c post ∧ p c = false.
Proof.
  induction s as [|d s IH]; [done|]. simpl.
  destruct (p d) eqn:Hd.
  - intros (pre & c & post & -> & Hc)%IH.
    exists (String d pre), c, post. done.
  - intros _. exists EmptyString, d, s. done.
Qed.

Lemma all_chars_impl (p q : ascii → bool) s :
  (∀ c, p c = true → q c = true) → all_chars p s = true → all_chars q s = true.
Proof.
  intros Hpq. induction s as [|c s IH]; [done|]. simpl.
  intros [Hc Hs]%andb_true_iff. by rewrite (Hpq c Hc), IH.
Qed.

Lemma all_chars_lstrip p s : all_chars p s = true → all_chars p (lstrip s) = true.
Proof.
  induction s as [|c s IH]; [done|]. simpl.
  intros [Hc Hs]%andb_true_iff.
  destruct (is_space c); [by apply IH|]. simpl. by rewrite Hc, Hs.
Qed.

Lemma all_chars_rstrip p s : all_chars p s = true → all_chars p (rstrip s) = true.
Proof.
  induction s as [|c s IH]; [done|]. simpl.
  intros [Hc Hs]%andb_true_iff. specialize (IH Hs).
  destruct (rstrip s) as [|d r].
  - destruct (is_space c); [done|]. simpl. by rewrite Hc.
  - change (all_chars p (String c (String d r)))
      with (p c && all_chars p (String d r)). by rewrite Hc, IH.
Qed.

Lemma all_chars_strip p s : all_chars p s = true → all_chars p (strip s) = true.
Proof. intros H. by apply all_chars_rstrip, all_chars_lstrip. Qed.

Lemma strip_all p s :
  (∀ c, p c = true → is_space c = false) → all_chars p s = true → strip s = s.
Proof.
  intros Hp Hs. apply strip_id; intros c Hc; apply Hp.
  - by eapply first_char_all.
  - by eapply last_char_all.
Qed.

End SearchFacts.

(** ** The shape of the captured values *)

Module ShapeFacts.
Import Py PyFacts Re ReFacts Spec FieldFacts RegexOcr BatchFacts RowFacts.
Import ExtractFacts LineFacts OrderFacts FreightFacts.
Import FieldValueFacts SearchFacts.

Lemma ident_not_space c : ident c = true → is_space c = false.
Proof.
  destruct c as [[] [] [] [] [] [] [] []]; vm_compute; intros H;
    first [reflexivity|discriminate H].
Qed.

Lemma take_drop_str n s : take_str n s +:+ drop_str n s = s.
Proof.
  revert s. induction n as [|n IH]; intros [|c s]; try done.
  simpl. rewrite str_app_cons. by rewrite IH.
Qed.

Lemma take_str_length n s :
  n ≤ String.length s → String.length (take_str n s) = n.
Proof.
  revert s. induction n as [|n IH]; intros [|c s] Hn; simpl in *; try done; try lia.
  rewrite IH; [done|lia].
Qed.

Lemma occurs_take n s : occurs (take_str n s) s.
Proof.
  exists EmptyString, (drop_str n s). by rewrite str_app_nil_l, take_drop_str.
Qed.

(** What the identifier group captures. *)
Lemma identifier_captured r text :
  last_group r = Some (2, at_least 4 ident_char) →
  (search r text = None ∧ captured r text = EmptyString) ∨
  (captured r text ≠ EmptyString ∧ identifier_in text (captured r text)).
Proof.
  intros Hl.
  destruct (captured_inv r _ text Hl) as [?|(t & c0 & c1 & Hv & Hm & Ho)];
    [by left|right].
  apply matches_rep_chr in Hm as (Hall & Hlen & _ & _).
  rewrite (strip_all ident t ident_not_space Hall) in Hv. rewrite Hv.
  split; [|done]. intros ->. simpl in Hlen. lia.
Qed.

Lemma invoice_pattern_run w :
  all_chars ident w = true → 4 ≤ String.length w →
  matches INVOICE_PATTERN w [] [(2, w)].
Proof.
  intros Hall Hlen. unfold INVOICE_PATTERN. cbv zeta. cbn [cats].
  apply matches_cat_nil_l with []; [apply matches_opt_nil|].
  apply matches_cat_nil_l with []; [apply matches_star_nil|].
  apply matches_cat_nil_l with []; [apply matches_opt_nil|].
  apply matches_cat_nil_l with []; [apply matches_star_nil|].
  apply matches_group. by apply matches_rep_chr_intro.
Qed.

(** What the date group captures. *)
Lemma date_shape_inv t caps caps' :
  matches date_shape t caps caps' → is_date t.
Proof.
  unfold date_shape. cbn [cats].
  intros (d1 & t1 & c1 & -> & H1 & H)%matches_cat_inv.
  apply matches_cat_inv in H as (s1 & t2 & c2 & -> & Hs1 & H).
  apply matches_cat_inv in H as (d2 & t3 & c3 & -> & H2 & H).
  apply matches_cat_inv in H as (s2 & d3 & c4 & -> & Hs2 & H3).
  apply matches_rep_chr in H1 as (Ha1 & Hl1 & Hh1 & _).
  apply matches_rep_chr in H2 as (Ha2 & Hl2 & Hh2 & _).
  apply matches_rep_chr in H3 as (Ha3 & Hl3 & Hh3 & _).
  apply matches_chr_inv in Hs1 as (x1 & -> & Hx1 & _).
  apply matches_chr_inv in Hs2 as (x2 & -> & Hx2 & _).
  specialize (Hh1 _ eq_refl). specialize (Hh2 _ eq_refl).
  specialize (Hh3 _ eq_refl).
  exists d1, x1, d2, x2, d3. split_and!; done.
Qed.

Lemma is_date_ends v :
  is_date v →
  (∀ c, first_char v = Some c → is_space c = false) ∧
  (∀ c, last_char v = Some c → is_space c = false).
Proof.
  intros (d1 & s1 & d2 & s2 & d3 & -> & Ha1 & Ha2 & Ha3 & Hl1 & Hl2 & Hl3 & _).
  split; intros c Hc; apply digit_not_space.
  - rewrite first_char_app in Hc.
    + exact (first_char_all _ _ _ Ha1 Hc).
    + intros ->. simpl in Hl1. lia.
  - assert (d3 ≠ EmptyString) as Hd3. { intros ->. simpl in Hl3. lia. }
    rewrite last_char_app in Hc.
    2:{ rewrite str_app_cons. done. }
    rewrite last_char_app in Hc.
    2:{ intros [? _]%str_app_eq_nil. subst. simpl in Hl2. lia. }
    rewrite last_char_app in Hc.
    2:{ rewrite str_app_cons. done. }
    rewrite last_char_app in Hc by done.
    exact (last_char_all _ _ _ Ha3 Hc).
Qed.

Lemma date_captured r text :
  last_group r = Some (2, date_shape) →
  captured r text = EmptyString ∨
  (is_date (captured r text) ∧ occurs (captured r text) text).
Proof.
  intros Hl.
  destruct (captured_inv r _ text Hl) as [[_ ?]|(t & c0 & c1 & Hv & Hm & Ho)];
    [by left|right].
  apply date_shape_inv in Hm.
  destruct (is_date_ends t Hm) as [Hf Hla].
  rewrite (strip_id t Hf Hla) in Hv. by rewrite Hv.
Qed.

(** *** The supplier *)

Lemma split_sep_go_no_newline t cur :
  all_chars not_newline t = true →
  split_sep_go nl cur 0 t = [cur +:+ t].
Proof.
  unfold nl. revert cur. induction t as [|c t IH]; intros cur Hall.
  - by rewrite str_app_nil_r.
  - simpl in Hall. apply andb_true_iff in Hall as [Hc Ht].
    unfold not_newline in Hc. apply negb_true_iff, bool_decide_eq_false in Hc.
    cbn [split_sep_go String.prefix].
    destruct (ascii_dec "010" c) as [<-|_]; [done|].
    rewrite IH by done. by rewrite str_app_assoc.
Qed.

Lemma lstrip_occurs s : occurs (lstrip s) s.
Proof.
  induction s as [|c s IH]; [apply occurs_refl|]. simpl.
  destruct (is_space c); [|apply occurs_refl].
  change (String c s) with (String c EmptyString +:+ s).
  by apply occurs_app_l.
Qed.

Lemma rstrip_prefix s : ∃ post, s = rstrip s +:+ post.
Proof.
  induction s as [|c s [post IH]]; [by exists EmptyString|]. simpl.
  destruct (rstrip s) as [|d r].
  - destruct (is_space c).
    + by exists (String c s).
    + exists s. done.
  - exists post. rewrite str_app_cons. by rewrite <-IH.
Qed.

Lemma strip_occurs s : occurs (strip s) s.
Proof.
  eapply occurs_trans; [|apply lstrip_occurs].
  destruct (rstrip_prefix (lstrip s)) as [post H].
  exists EmptyString, post. by rewrite str_app_nil_l.
Qed.

End ShapeFacts.

(** ** Patterns without a label *)

Module AnchorFacts.
Import Py PyFacts Re ReFacts Spec FieldFacts RegexOcr BatchFacts RowFacts.
Import ExtractFacts LineFacts OrderFacts FreightFacts.
Import FieldValueFacts SearchFacts ShapeFacts.

(** *** The freight pattern and digits *)

Lemma freight_pattern_digit c :
  is_digit c = true →
  ∃ caps, matches FREIGHT_PATTERN (String c EmptyString) [] caps.
Proof.
  intros Hc. eexists. unfold FREIGHT_PATTERN. cbv zeta. cbn [cats].
  apply matches_cat_nil_l with []; [apply matches_opt_nil|].
  apply matches_cat_nil_l with []; [apply matches_star_nil|].
  apply matches_cat_nil_l with []; [apply matches_opt_nil|].
  apply matches_cat_nil_l with []; [apply matches_star_nil|].
  apply matches_group. unfold freight_amount. cbn [cats].
  apply matches_cat_nil_l with []; [apply matches_opt_nil|].
  apply matches_cat_nil_l with []; [apply matches_star_nil|].
  apply matches_cat_nil_r with []; [|apply matches_opt_nil].
  apply matches_rep_chr_intro; [by simpl; rewrite Hc|simpl; lia|done].
Qed.

Lemma freight_amount_digit t caps caps' :
  matches freight_amount t caps caps' → all_chars not_digit t = false.
Proof.
  intros (wc & wws & wd & wdec & c1 & c2 & c3 & -> & _ & _ & Hd & Hne & _)
    %freight_amount_inv.
  rewrite !all_chars_app.
  destruct wd as [|c wd]; [done|]. simpl in Hd.
  apply andb_true_iff in Hd as [Hc _].
  cbn [all_chars]. unfold not_digit at 3. rewrite Hc. simpl.
  by rewrite !andb_false_r.
Qed.

Lemma freight_search_none text :
  search FREIGHT_PATTERN text = None ↔ all_chars not_digit text = true.
Proof.
  split.
  - intros Hnone. destruct (all_chars not_digit text) eqn:E; [done|].
    apply all_chars_false in E as (pre & c & post & -> & Hc).
    unfold not_digit in Hc. apply negb_false_iff in Hc.
    destruct (freight_pattern_digit c Hc) as [caps Hm].
    destruct (search_complete FREIGHT_PATTERN _ (pre +:+ String c post) _ _ Hm)
      as [m Hs]; [by exists pre, post|congruence].
  - intros Hall. destruct (search FREIGHT_PATTERN text) as [m|] eqn:E; [|done].
    destruct (last_group_occurs FREIGHT_PATTERN 3 _ text m eq_refl)
      as (t & c0 & c1 & _ & Hb & Ho).
    + by apply (search_occurs FREIGHT_PATTERN).
    + by apply search_sound in E.
    + apply freight_amount_digit in Hb.
      by rewrite (all_chars_occurs _ _ _ Ho Hall) in Hb.
Qed.

Lemma freight_value_from_text text :
  all_chars not_digit text = false →
  occurs (freight_value text) text ∧
  all_chars not_digit (freight_value text) = false.
Proof.
  intros Hd. unfold freight_value.
  destruct (last (finditer FREIGHT_PATTERN text)) as [m|] eqn:El.
  - assert (m ∈ finditer FREIGHT_PATTERN text) as Hin.
    { by apply last_Some_elem_of. }
    destruct (last_group_occurs FREIGHT_PATTERN 3 _ text m eq_refl)
      as (t & c0 & c1 & Hg & Hb & Ho).
    + by apply finditer_occurs in Hin.
    + by apply finditer_sound in Hin.
    + destruct (finditer_freight_group text m Hin) as (t' & Hg' & Hs).
      rewrite Hg in Hg'. injection Hg' as <-.
      unfold group_or_empty. rewrite Hg. simpl. rewrite Hs.
      split; [done|]. by eapply freight_amount_digit.
  - apply last_None in El. apply finditer_nil_iff, freight_search_none in El.
    congruence.
Qed.

(** *** The order pattern and order ids *)

Lemma order_pattern_id x :
  is_order_id x → ∃ caps, matches ORDER_PATTERN x [] caps.
Proof.
  intros (d & -> & Hlen & Hd). eexists. unfold ORDER_PATTERN. cbn [cats].
  apply matches_cat_nil_l with []; [apply matches_opt_nil|].
  apply matches_cat_nil_l with []; [apply matches_star_nil|].
  apply matches_cat_nil_l with []; [apply matches_opt_nil|].
  apply matches_cat_nil_l with []; [apply matches_star_nil|].
  apply matches_group.
  change ("3100" +:+ d) with (String "3" (String "1" (String "0" (String "0" d)))).
  unfold lit.
  apply matches_cat_chr; [done|]. apply matches_cat_chr; [done|].
  apply matches_cat_chr; [done|]. apply matches_cat_chr; [done|].
  apply matches_rep_chr_intro; [done|lia|]. intros h [= <-]. lia.
Qed.

Lemma findall1_order_inv text x :
  x ∈ findall1 ORDER_PATTERN text → is_order_id x ∧ occurs x text.
Proof.
  unfold findall1. intros (m & -> & Hin)%list_elem_of_fmap.
  destruct (last_group_occurs ORDER_PATTERN 1 _ text m eq_refl)
    as (t & c0 & c1 & Hg & Hb & Ho).
  - by apply finditer_occurs in Hin.
  - by apply finditer_sound in Hin.
  - unfold group_or_empty. rewrite Hg. simpl.
    split; [by eapply order_id_shape|done].
Qed.

Lemma order_value_empty_iff text :
  order_value text = EmptyString ↔ findall1 ORDER_PATTERN text = [].
Proof.
  split.
  - intros Hv. rewrite order_value_join in Hv.
    destruct (sorted_set (findall1 ORDER_PATTERN text)) as [|x l] eqn:E.
    + by apply sorted_set_nil_inv.
    + exfalso. revert Hv. apply join_cons_nonempty.
      assert (x ∈ findall1 ORDER_PATTERN text) as Hx.
      { apply elem_of_sorted_set. rewrite E. apply list_elem_of_here. }
      apply findall1_order_inv in Hx as [Hid _]. by apply order_id_nonempty.
  - intros Hnil. unfold order_value. by rewrite Hnil.
Qed.

End AnchorFacts.

(** ** The end of the item table *)

Module TableFacts.
Import Py PyFacts Re ReFacts Spec FieldFacts RegexOcr BatchFacts RowFacts.
Import ExtractFacts LineFacts OrderFacts FreightFacts.
Import FieldValueFacts SearchFacts ShapeFacts.

Lemma line_loop_lengths lines : ∀ header_found items,
  Forall (λ item : list string, 4 ≤ length item ≤ 5) items →
  Forall (λ item : list string, 4 ≤ length item ≤ 5)
         (line_loop lines header_found items).
Proof.
  induction lines as [|line rest IH]; intros hf items Hitems; [done|].
  cbn [line_loop].
  destruct (negb hf && is_header line); [by apply IH|].
  destruct hf; [|by apply IH].
  destruct (ends_table line); [done|].
  destruct (4 <=? length (row_fields line)) eqn:E; [|by apply IH].
  apply IH. apply Forall_app. split; [done|].
  apply Forall_singleton. apply Nat.leb_le in E.
  rewrite length_take. lia.
Qed.

(** *** Words under [(?i)] *)

Lemma lower_app s t : lower (s +:+ t) = lower s +:+ lower t.
Proof.
  induction s as [|c s IH]; [done|].
  rewrite str_app_cons. simpl. by rewrite IH.
Qed.

Lemma prefix_app w s : String.prefix w (w +:+ s) = true.
Proof.
  induction w as [|c w IH]; [apply prefix_nil|].
  rewrite str_app_cons. simpl. by destruct (ascii_dec c c).
Qed.

Lemma prefix_inv w s : String.prefix w s = true → ∃ post, s = w +:+ post.
Proof.
  revert s. induction w as [|c w IH]; intros s H; [by exists s|].
  destruct s as [|d s]; [done|]. simpl in H.
  destruct (ascii_dec c d) as [->|]; [|done].
  destruct (IH s H) as [post ->]. by exists post.
Qed.

Lemma lower_split s a b :
  lower s = a +:+ b → ∃ s1 s2, s = s1 +:+ s2 ∧ lower s1 = a ∧ lower s2 = b.
Proof.
  revert s. induction a as [|c a IH]; intros s H.
  - by exists EmptyString, s.
  - destruct s as [|d s]; [done|]. rewrite str_app_cons in H. simpl in H.
    injection H as Hc H. destruct (IH s H) as (s1 & s2 & -> & <- & <-).
    exists (String d s1), s2. simpl. by rewrite Hc.
Qed.

Lemma matches_eps_inv w caps caps' :
  matches Eps w caps caps' → w = EmptyString ∧ caps' = caps.
Proof. by inversion 1. Qed.

Lemma matches_alt_inv r1 r2 w caps caps' :
  matches (Alt r1 r2) w caps caps' →
  matches r1 w caps caps' ∨ matches r2 w caps caps'.
Proof. inversion 1; subst; eauto. Qed.

(** A word of the pattern reads exactly the texts that are the word up to
    the case of the letters. *)
Lemma word_i_inv kw : ∀ w caps caps',
  matches (word_i kw) w caps caps' → lower w = lower kw ∧ caps' = caps.
Proof.
  induction kw as [|c kw IH]; intros w caps caps' H.
  - apply matches_eps_inv in H as [-> ->]. done.
  - destruct kw as [|d kw].
    + apply matches_chr_inv in H as (x & -> & Hx & ->).
      apply bool_decide_eq_true in Hx. simpl. by rewrite Hx.
    + change (word_i (String c (String d kw)))
        with (Cat (lit_i c) (word_i (String d kw))) in H.
      apply matches_cat_inv in H as (w1 & w2 & c1 & -> & H1 & H2).
      apply matches_chr_inv in H1 as (x & -> & Hx & ->).
      apply bool_decide_eq_true in Hx.
      apply IH in H2 as [H2 ->]. rewrite str_app_cons, str_app_nil_l.
      split; [|done]. cbn [lower]. rewrite Hx. f_equal. exact H2.
Qed.

Lemma word_i_intro kw : ∀ w caps,
  lower w = lower kw → matches (word_i kw) w caps caps.
Proof.
  induction kw as [|c kw IH]; intros w caps H.
  - destruct w; [constructor|done].
  - destruct w as [|x w]; [done|]. simpl in H. injection H as Hx H.
    destruct kw as [|d kw].
    + destruct w; [|done]. constructor. by apply bool_decide_eq_true.
    + change (word_i (String c (String d kw)))
        with (Cat (lit_i c) (word_i (String d kw))).
      apply matches_cat_chr; [by apply bool_decide_eq_true|].
      by apply IH.
Qed.

Lemma table_end_words_lower kw : kw ∈ table_end_words → lower kw = kw.
Proof.
  unfold table_end_words. rewrite !elem_of_cons, elem_of_nil.
  intros [->|[->|[->|[->|[]]]]]; reflexivity.
Qed.

Lemma totals_line_inv w caps caps' :
  matches TOTALS_LINE w caps caps' → ∃ kw, kw ∈ table_end_words ∧ lower w = kw.
Proof.
  unfold TOTALS_LINE. cbn [alts].
  intros (c1 & _ & H)%matches_group_inv.
  unfold table_end_words.
  apply matches_alt_inv in H as [H|H]; [|apply matches_alt_inv in H as [H|H];
    [|apply matches_alt_inv in H as [H|H]]];
    apply word_i_inv in H as [H _]; eexists; (split; [|exact H]);
    rewrite !elem_of_cons; auto 6.
Qed.

Lemma totals_line_intro kw w :
  kw ∈ table_end_words → lower w = kw → ∃ caps, matches TOTALS_LINE w [] caps.
Proof.
  intros Hkw Hw. pose proof (table_end_words_lower kw Hkw) as Hl.
  rewrite <-Hl in Hw. eexists. unfold TOTALS_LINE. cbn [alts].
  apply matches_group.
  unfold table_end_words in Hkw. rewrite !elem_of_cons, elem_of_nil in Hkw.
  destruct Hkw as [->|[->|[->|[->|[]]]]].
  - apply matches_alt_l. by apply word_i_intro.
  - apply matches_alt_r, matches_alt_l. by apply word_i_intro.
  - apply matches_alt_r, matches_alt_r, matches_alt_l. by apply word_i_intro.
  - apply matches_alt_r, matches_alt_r, matches_alt_r. by apply word_i_intro.
Qed.

Lemma totals_line_match line :
  is_Some (re_match TOTALS_LINE line) ↔
  ∃ kw, kw ∈ table_end_words ∧ String.prefix kw (lower line) = true.
Proof.
  split.
  - intros [m Hm]. apply match_at_sound in Hm as (-> & _ & Hm).
    apply totals_line_inv in Hm as (kw & Hkw & Hw).
    exists kw. split; [done|]. rewrite lower_app, Hw. apply prefix_app.
  - intros (kw & Hkw & Hp). apply prefix_inv in Hp as [post Hp].
    apply lower_split in Hp as (s1 & s2 & -> & H1 & _).
    destruct (totals_line_intro kw s1 Hkw H1) as [caps Hm].
    by eapply match_at_complete.
Qed.

Lemma space_lower c : is_space c = true → lower_char c = c.
Proof.
  destruct c as [[] [] [] [] [] [] [] []]; vm_compute; intros H;
    first [reflexivity|discriminate H].
Qed.

Lemma space_led_no_word c s kw :
  is_space c = true → kw ∈ table_end_words →
  String.prefix kw (lower (String c s)) = false.
Proof.
  intros Hc Hkw. simpl. rewrite (space_lower c Hc).
  unfold table_end_words in Hkw. rewrite !elem_of_cons, elem_of_nil in Hkw.
  destruct Hkw as [->|[->|[->|[->|[]]]]]; simpl;
    match goal with |- (if ?d then _ else _) = _ => destruct d as [<-|] end;
    done.
Qed.

Lemma starts_with_i_lower kw line :
  lower kw = kw → starts_with_i kw line = String.prefix kw (lower line).
Proof.
  revert line. induction kw as [|a kw IH]; intros line Hkw; [by destruct line|].
  destruct line as [|b line]; [done|].
  cbn [lower] in Hkw. injection Hkw as Ha Hkw.
  cbn [starts_with_i lower String.prefix]. rewrite IH by done.
  unfold same_char_i. rewrite Ha.
  destruct (ascii_dec a (lower_char b)) as [->|Hne].
  - by rewrite bool_decide_eq_true_2.
  - by rewrite bool_decide_eq_false_2 by congruence.
Qed.

End TableFacts.

(** ** The loop of write_to_csv *)

Module CsvFacts.
Import Py PyFacts Re ReFacts Spec FieldFacts RegexOcr BatchFacts RowFacts.
Import ExtractFacts LineFacts OrderFacts FreightFacts.

Lemma dict_get_raises {V} (d : dict V) k e :
  dict_get d k = Raised e → e = KeyError.
Proof.
  induction d as [|[k' v] d IH]; simpl; [by intros [= <-]|].
  destruct (decide (k' = k)); [done|exact IH].
Qed.

Lemma dict_get_set_ne {V} (d : dict V) k k' v :
  k ≠ k' → dict_get (dict_set d k v) k' = dict_get d k'.
Proof.
  intros Hne. induction d as [|[k0 v0] d IH]; simpl.
  - by rewrite decide_False.
  - destruct (decide (k0 = k)) as [->|Hk0]; simpl.
    + by rewrite !decide_False.
    + destruct (decide (k0 = k')); [done|exact IH].
Qed.

Lemma dict_get_default_set_ne {V} (d : dict V) k k' v dflt :
  k ≠ k' → dict_get_default (dict_set d k v) k' dflt = dict_get_default d k' dflt.
Proof. intros Hne. unfold dict_get_default. by rewrite dict_get_set_ne. Qed.

Lemma field_of_get (d : dict string) k v : dict_get d k = Ok v → field d k = v.
Proof. intros H. unfold field, dict_get_default. by rewrite H. Qed.

Lemma has_key_false {V} (d : dict V) k :
  has_key d k = false → dict_get d k = Raised KeyError.
Proof.
  unfold has_key. destruct (dict_get d k) eqn:E; [done|].
  intros _. by rewrite (dict_get_raises _ _ _ E).
Qed.

Lemma has_key_true {V} (d : dict V) k :
  has_key d k = true → ∃ v, dict_get d k = Ok v.
Proof. unfold has_key. destruct (dict_get d k); [eauto|done]. Qed.

(** One row of the line-item table, for a record that has an invoice
    number. *)
Lemma line_row_closed filename fields0 idx item :
  has_key fields0 "invoice_number" = true →
  line_row filename idx
    (split_sep ", " (field fields0 "order_number"))
    (dict_set fields0 "pdf_filename" filename) item
  = Ok (line_row_of filename fields0 idx item).
Proof.
  intros [inv Hinv]%has_key_true.
  unfold line_row, line_row_of, line_order_number.
  rewrite !pad_index by lia.
  rewrite dict_get_set_ne by done. rewrite Hinv.
  rewrite dict_get_default_set_ne by done.
  rewrite (field_of_get _ _ _ Hinv).
  unfold split_sep.
  pose proof (split_sep_go_nonempty ", " EmptyString 0 (field fields0 "order_number"))
    as Hne.
  destruct (split_sep_go ", " EmptyString 0 (field fields0 "order_number"))
    as [|o os]; [done|].
  reflexivity.
Qed.

Lemma line_row_no_invoice filename fields0 idx item :
  has_key fields0 "invoice_number" = false →
  line_row filename idx
    (split_sep ", " (field fields0 "order_number"))
    (dict_set fields0 "pdf_filename" filename) item
  = Raised KeyError.
Proof.
  intros Hinv%has_key_false. unfold line_row.
  unfold split_sep.
  pose proof (split_sep_go_nonempty ", " EmptyString 0 (field fields0 "order_number"))
    as Hne.
  destruct (split_sep_go ", " EmptyString 0 (field fields0 "order_number"))
    as [|o os]; [done|].
  cbn [index lookup list_lookup]. rewrite bind_Ok.
  rewrite dict_get_set_ne by done. by rewrite Hinv.
Qed.

Lemma line_rows_closed filename fields0 items : ∀ idx,
  has_key fields0 "invoice_number" = true →
  line_rows filename idx
    (split_sep ", " (field fields0 "order_number"))
    (dict_set fields0 "pdf_filename" filename) items
  = Ok (imap (λ i, line_row_of filename fields0 (idx + i)) items).
Proof.
  induction items as [|item items IH]; intros idx Hinv; [done|].
  simpl. rewrite line_row_closed, bind_Ok, IH, bind_Ok by done.
  unfold mret, result_ret. do 2 f_equal.
  - f_equal. lia.
  - apply imap_ext. intros i x _. simpl. f_equal. lia.
Qed.

Lemma line_rows_no_invoice filename fields0 item items idx :
  has_key fields0 "invoice_number" = false →
  line_rows filename idx
    (split_sep ", " (field fields0 "order_number"))
    (dict_set fields0 "pdf_filename" filename) (item :: items)
  = Raised KeyError.
Proof. intros Hinv. simpl. by rewrite line_row_no_invoice. Qed.

(** The loop of [write_to_csv], in closed form. *)
Lemma csv_loop_closed results : ∀ summary_data line_data,
  csv_loop results summary_data line_data =
    if forallb writable results
    then Ok (summary_data ++ ((λ e : entry, dict_set e.2.1 "pdf_filename" e.1) <$> results),
             line_data ++ (results ≫= line_rows_for))
    else Raised KeyError.
Proof.
  induction results as [|[name [fields0 items]] results IH];
    intros summary_data line_data.
  - simpl. by rewrite !app_nil_r.
  - cbn [csv_loop forallb]. unfold writable at 1. cbn [fst snd].
    rewrite dict_get_set_ne by done.
    destruct (has_key fields0 "order_number") eqn:Hon.
    2:{ apply has_key_false in Hon. by rewrite Hon. }
    pose proof Hon as [on Hget]%has_key_true. rewrite Hget, bind_Ok.
    rewrite <-(field_of_get _ _ _ Hget).
    destruct items as [|item items].
    + cbn [line_rows]. rewrite bind_Ok, IH. cbn [andb].
      destruct (forallb writable results); [|done].
      rewrite fmap_cons, bind_cons. cbn [fst snd].
      unfold line_rows_for at 1. cbn [fst snd imap].
      by rewrite <-!(assoc_L (++)).
    + destruct (has_key fields0 "invoice_number") eqn:Hinv.
      * rewrite line_rows_closed, bind_Ok, IH by done. cbn [andb].
        destruct (forallb writable results); [|done].
        rewrite fmap_cons, bind_cons. cbn [fst snd].
        unfold line_rows_for at 1. cbn [fst snd].
        by rewrite <-!(assoc_L (++)).
      * by rewrite line_rows_no_invoice.
Qed.

Lemma length_bind_rows (results : list entry) :
  length (results ≫= line_rows_for)
    = sum_list ((λ e : entry, length e.2.2) <$> results).
Proof.
  induction results as [|e results IH]; [done|].
  rewrite bind_cons, length_app, IH, fmap_cons. simpl.
  unfold line_rows_for. by rewrite length_imap.
Qed.

End CsvFacts.

(** ** The files and the OCR calls of a batch run *)

Module WorldFacts.
Import Py PyFacts Re ReFacts Spec FieldFacts RegexOcr BatchFacts RowFacts.
Import ExtractFacts LineFacts OrderFacts FreightFacts.

Section batch.

Variable ocrmypdf : option pdf → ocr_exit.

Lemma after_process_other p w q :
  q ≠ path_join ocr_output_dir (path_name p) →
  fs (after_process ocrmypdf p w) !! q = fs w !! q.
Proof.
  intros Hq. unfold after_process, after_ocr.
  destruct (blank _); [|done]. simpl.
  destruct (ocrmypdf _); [|done..].
  by apply lookup_insert_ne.
Qed.

Lemma after_process_calls p w :
  ocr_calls (after_process ocrmypdf p w) =
    if blank (direct_text (fs w !! p))
    then ocr_call p :: ocr_calls w
    else ocr_calls w.
Proof. unfold after_process. by destruct (blank _). Qed.

Lemma after_batch_cons p pdfs w :
  after_batch ocrmypdf (p :: pdfs) w
    = after_batch ocrmypdf pdfs (after_process ocrmypdf p w).
Proof. reflexivity. Qed.

Lemma main_loop_world pdfs : ∀ results w,
  (main_loop ocrmypdf pdfs results w).2 = after_batch ocrmypdf pdfs w.
Proof.
  induction pdfs as [|p pdfs IH]; intros results w; [done|].
  cbn [main_loop]. unfold mbind at 1, M_bind at 1.
  rewrite process_pdf_spec.
  destruct (process_result _) as [[|f fl] lines]; rewrite after_batch_cons; apply IH.
Qed.

Lemma main_world w :
  (main ocrmypdf w).2 = after_batch ocrmypdf (documents (fs w)) w.
Proof.
  unfold main. unfold mbind at 1, M_bind at 1.
  change (glob_pdf input_dir w) with (@Ok (list Path) (documents (fs w)), w).
  unfold mbind at 1, M_bind at 1.
  pose proof (main_loop_world (documents (fs w)) [] w) as Hw.
  destruct (main_loop ocrmypdf (documents (fs w)) [] w) as [[results|e] w'];
    simpl in Hw; subst w'; [|done].
  unfold lift. done.
Qed.

Lemma after_batch_other pdfs : ∀ w q,
  q.1 ≠ ocr_output_dir →
  fs (after_batch ocrmypdf pdfs w) !! q = fs w !! q.
Proof.
  induction pdfs as [|p pdfs IH]; intros w q Hq; [done|].
  rewrite after_batch_cons, IH by done. apply after_process_other.
  intros ->. by apply Hq.
Qed.

Lemma after_batch_calls files pdfs : ∀ w,
  (∀ q, q.1 = input_dir → fs w !! q = files !! q) →
  Forall (λ p : Path, p.1 = input_dir) pdfs →
  ocr_calls (after_batch ocrmypdf pdfs w) =
    rev (ocr_call <$> needs_ocr files pdfs) ++ ocr_calls w.
Proof.
  induction pdfs as [|p pdfs IH]; intros w Hfs Hdir; [done|].
  apply Forall_cons in Hdir as [Hp Hdir].
  rewrite after_batch_cons.
  rewrite IH; [|intros q Hq; rewrite after_process_input by done; by apply Hfs|done].
  rewrite after_process_calls, (Hfs p Hp).
  unfold needs_ocr. rewrite filter_cons.
  destruct (blank (direct_text (files !! p))) eqn:Hb.
  - rewrite decide_True by done. rewrite fmap_cons. cbn [rev].
    by rewrite <-(assoc_L (++)).
  - rewrite decide_False by (by intros ?). done.
Qed.

End batch.

End WorldFacts.

(** ** The order table of extract_text_from_pdf.py *)

Module OrderTableFacts.
Import Py PyFacts Re Spec FieldFacts BatchFacts ExtractFacts OrderFacts.

Lemma extract_order_numbers_NoDup text :
  NoDup (ExtractTextFromPdf.extract_order_numbers text).
Proof. apply NoDup_remove_dups. Qed.

Lemma extract_order_numbers_ids text :
  Forall is_order_id (ExtractTextFromPdf.extract_order_numbers text).
Proof.
  apply Forall_forall. intros x Hx.
  unfold ExtractTextFromPdf.extract_order_numbers in Hx.
  apply (proj1 (elem_of_remove_dups _ _)) in Hx.
  pose proof (findall_order_ids text) as Hids.
  rewrite Forall_forall in Hids. apply Hids. exact Hx.
Qed.



Section pipeline.

Variable ocrmypdf : option pdf → ocr_exit.









End pipeline.

End OrderTableFacts.

(** ** The amount of the total *)

Module AmountFacts.
Import Py PyFacts Re ReFacts Spec FieldFacts RegexOcr BatchFacts RowFacts.
Import ExtractFacts LineFacts OrderFacts FreightFacts.
Import FieldValueFacts SearchFacts ShapeFacts TableFacts.

Lemma amount_char_not_space c : amount_char c = true → is_space c = false.
Proof.
  destruct c as [[] [] [] [] [] [] [] []]; vm_compute; intros H;
    first [reflexivity|discriminate H].
Qed.

Lemma currency_not_space c : is_currency c = true → is_space c = false.
Proof.
  destruct c as [[] [] [] [] [] [] [] []]; vm_compute; intros H;
    first [reflexivity|discriminate H].
Qed.

Lemma digit_amount_char c : is_digit c = true → amount_char c = true.
Proof. intros H. unfold amount_char. by rewrite H. Qed.

(** What a repetition reads is made of what its body reads. *)
Lemma matches_rep_forall r (P : string → Prop) :
  P EmptyString → (∀ a b, P a → P b → P (a +:+ b)) →
  (∀ w c c', matches r w c c' → P w) →
  ∀ lo hi w c c', matches (Repeat lo hi r) w c c' → P w.
Proof.
  intros Hnil Happ Hbody lo hi w c c' Hm.
  remember (Repeat lo hi r) as rr eqn:Hr. revert lo hi Hr.
  induction Hm as [| | | | |hi' r' caps
    |lo' hi' r' w1 w2 caps caps1 caps2 Hhi Hw1 Hm1 _ _ IH2|];
    intros lo hi Hr; simplify_eq; [done|].
  apply Happ; [by eapply Hbody|by eapply IH2].
Qed.

Lemma tail_ok_nil : tail_ok EmptyString.
Proof. by split. Qed.

Lemma tail_ok_app a b : tail_ok a → tail_ok b → tail_ok (a +:+ b).
Proof.
  intros [Ha1 Ha2] [Hb1 Hb2]. split.
  - by rewrite all_chars_app, Ha1, Hb1.
  - destruct a as [|x a]; [done|]. rewrite str_app_cons. exact Ha2.
Qed.

Lemma tail_ok_sep (sep : ascii) n d caps caps' :
  amount_char sep = true → is_digit sep = false →
  matches (cats [lit sep; exactly n digit]) d caps caps' → tail_ok d.
Proof.
  intros Hsep Hnd. cbn [cats].
  intros (w1 & w2 & c1 & -> & H1 & H2)%matches_cat_inv.
  apply matches_lit_inv in H1 as [-> _].
  apply matches_rep_chr in H2 as (Hall & _).
  rewrite str_app_cons, str_app_nil_l. split.
  - simpl. rewrite Hsep. simpl.
    exact (all_chars_impl _ _ _ digit_amount_char Hall).
  - by intros c [= <-].
Qed.

Lemma lstrip_spaces a b :
  all_chars is_space a = true → lstrip (a +:+ b) = lstrip b.
Proof.
  induction a as [|c a IH]; [done|].
  intros [Hc Ha]%andb_true_iff. rewrite str_app_cons. cbn [lstrip].
  rewrite Hc. by apply IH.
Qed.

Lemma lstrip_id s :
  (∀ c, first_char s = Some c → is_space c = false) → lstrip s = s.
Proof. destruct s as [|c s]; [done|]. simpl. intros H. by rewrite (H c). Qed.

(** What the amount group of the total pattern reads, stripped. *)
Lemma total_amount_inv t caps caps' :
  matches (cats [opt currency; star ws; from_to 1 3 digit;
                 star (cats [lit ","; exactly 3 digit]);
                 opt (cats [lit "."; exactly 2 digit])]) t caps caps' →
  is_amount (strip t).
Proof.
  cbn [cats].
  intros (wc & t1 & c1 & -> & Hc & H)%matches_cat_inv.
  apply matches_cat_inv in H as (wws & t2 & c2 & -> & Hws & H).
  apply matches_cat_inv in H as (wd & t3 & c3 & -> & Hd & H).
  apply matches_cat_inv in H as (wth & wdec & c4 & -> & Hth & Hdec).
  apply matches_rep_chr in Hws as (Hws & _).
  apply matches_rep_chr in Hd as (Hd & Hd1 & Hd3 & _).
  specialize (Hd3 _ eq_refl).
  assert (tail_ok wth) as Hth'.
  { revert Hth. apply matches_rep_forall;
      [apply tail_ok_nil|apply tail_ok_app|].
    intros w c c'. by apply (tail_ok_sep ","). }
  assert (tail_ok wdec) as Hdec'.
  { apply matches_opt_inv in Hdec as [[-> _]|Hdec]; [apply tail_ok_nil|].
    revert Hdec. by apply (tail_ok_sep "."). }
  pose proof (tail_ok_app _ _ Hth' Hdec') as [Hrest Hfirst].
  assert (wd ≠ EmptyString) as Hne. { intros ->. simpl in Hd1. lia. }
  assert (rstrip (wd +:+ wth +:+ wdec) = wd +:+ wth +:+ wdec) as Hr.
  { apply rstrip_id. intros c Hc'. apply amount_char_not_space.
    eapply last_char_all; [|exact Hc'].
    rewrite all_chars_app, Hrest, andb_true_r.
    exact (all_chars_impl _ _ _ digit_amount_char Hd). }
  assert (∀ c, first_char (wd +:+ wth +:+ wdec) = Some c → is_space c = false)
    as Hdf.
  { intros c. rewrite first_char_app by done. intros Hc'.
    apply digit_not_space. exact (first_char_all _ _ _ Hd Hc'). }
  apply matches_opt_inv in Hc as [[-> _]|Hc].
  - rewrite str_app_nil_l. unfold strip.
    rewrite lstrip_spaces by done. rewrite lstrip_id by done. rewrite Hr.
    exists EmptyString, wd, (wth +:+ wdec). split_and!; try done. by left.
  - apply matches_chr_inv in Hc as (x & -> & Hx & _).
    rewrite strip_id.
    + exists (String x wws), wd, (wth +:+ wdec).
      split_and!; try done.
      right. by exists x, wws.
    + rewrite str_app_cons. intros c [= <-]. by apply currency_not_space.
    + intros c. rewrite last_char_app.
      2:{ intros [_ [? _]%str_app_eq_nil]%str_app_eq_nil. done. }
      rewrite last_char_app.
      2:{ by intros [? _]%str_app_eq_nil. }
      intros Hc'. apply amount_char_not_space.
      eapply last_char_all; [|exact Hc'].
      rewrite all_chars_app, Hrest, andb_true_r.
      exact (all_chars_impl _ _ _ digit_amount_char Hd).
Qed.

End AmountFacts.

(** ** The header line and the lines after the table *)

Module HeaderFacts.
Import Py PyFacts Re ReFacts Spec FieldFacts RegexOcr BatchFacts RowFacts.
Import ExtractFacts LineFacts OrderFacts FreightFacts.
Import FieldValueFacts SearchFacts ShapeFacts TableFacts.

Lemma line_loop_cut stop rest pre : ∀ header_found items,
  header_found = true ∨ Exists (λ line, is_header line = true) pre →
  ends_table stop = true →
  line_loop (pre ++ stop :: rest) header_found items
    = line_loop (pre ++ [stop]) header_found items.
Proof.
  induction pre as [|line pre IH]; intros hf items Hh Hstop.
  - destruct Hh as [->|Hh]; [|by apply Exists_nil in Hh].
    simpl. by rewrite Hstop.
  - rewrite <-!app_comm_cons. cbn [line_loop].
    destruct hf.
    + cbn [negb andb]. destruct (ends_table line); [done|].
      destruct (4 <=? length (row_fields line)); apply IH; auto.
    + cbn [negb andb]. destruct (is_header line) eqn:E.
      * apply IH; auto.
      * apply IH; [|done]. right.
        destruct Hh as [?|Hh]; [done|].
        apply Exists_cons in Hh as [Hh|Hh]; [congruence|done].
Qed.

(** *** Tokens and substrings *)

Lemma str_app_eq_app a x pre y :
  a +:+ x = pre +:+ y →
  (∃ k, pre = a +:+ k ∧ x = k +:+ y) ∨ (∃ k, a = pre +:+ k ∧ y = k +:+ x).
Proof.
  revert pre. induction a as [|c a IH]; intros pre H.
  - left. by exists pre.
  - destruct pre as [|d pre].
    + right. by exists (String c a).
    + rewrite !str_app_cons in H. injection H as -> H.
      destruct (IH pre H) as [(k & -> & ->)|(k & -> & ->)].
      * left. by exists k.
      * right. by exists k.
Qed.

Lemma contains_occurs sub s : contains sub s = true ↔ occurs sub s.
Proof.
  split.
  - induction s as [|c s IH]; cbn [contains].
    + rewrite orb_false_r. intros [post ->]%prefix_inv.
      exists EmptyString, post. done.
    + intros [H|H]%orb_true_iff.
      * apply prefix_inv in H as [post ->]. by exists EmptyString, post.
      * change (String c s) with (String c EmptyString +:+ s).
        by apply occurs_app_l, IH.
  - intros (pre & post & ->). induction pre as [|c pre IH].
    + rewrite str_app_nil_l.
      destruct (sub +:+ post) eqn:E; cbn [contains]; rewrite <-E;
        by rewrite prefix_app.
    + rewrite str_app_cons. cbn [contains]. by rewrite IH, orb_true_r.
Qed.

Lemma split_ws_go_occurs s : ∀ cur tok,
  tok ∈ split_ws_go cur s → occurs tok (cur +:+ s).
Proof.
  induction s as [|c s IH]; intros cur tok; simpl.
  - destruct (is_empty cur); [by intros ?%elem_of_nil|].
    intros ->%list_elem_of_singleton. rewrite str_app_nil_r. apply occurs_refl.
  - destruct (is_space c).
    + intros [H|H]%elem_of_app.
      * destruct (is_empty cur); [by apply elem_of_nil in H|].
        apply list_elem_of_singleton in H as ->.
        apply occurs_app_r, occurs_refl.
      * apply IH in H. rewrite str_app_nil_l in H.
        change (String c s) with (String c EmptyString +:+ s).
        by apply occurs_app_l, occurs_app_l.
    + intros H%IH. by rewrite str_app_assoc in H.
Qed.

Lemma occurs_across_space h a c b :
  is_space c = true → all_chars (λ x, negb (is_space x)) h = true →
  occurs h (a +:+ String c b) → occurs h a ∨ occurs h b.
Proof.
  intros Hc Hh (pre & post & Heq).
  apply str_app_eq_app in Heq as [(k & -> & Hk)|(k & -> & Hk)].
  - destruct k as [|x k].
    + rewrite str_app_nil_l in Hk. destruct h as [|y h].
      * left. exists a, EmptyString. by rewrite str_app_nil_r.
      * rewrite str_app_cons in Hk. injection Hk as <- _.
        simpl in Hh. by rewrite Hc in Hh.
    + rewrite str_app_cons in Hk. injection Hk as <- ->.
      right. by exists k, post.
  - symmetry in Hk.
    apply str_app_eq_app in Hk as [(j & -> & Hj)|(j & -> & Hj)].
    + destruct j as [|x j].
      * left. exists pre, EmptyString. by rewrite !str_app_nil_r.
      * rewrite str_app_cons in Hj. injection Hj as <- _.
        rewrite all_chars_app in Hh. simpl in Hh. rewrite Hc in Hh.
        simpl in Hh. by rewrite andb_false_r in Hh.
    + left. exists pre, j. done.
Qed.

Lemma split_ws_go_token h s : ∀ cur,
  h ≠ EmptyString → all_chars (λ x, negb (is_space x)) h = true →
  occurs h (cur +:+ s) →
  ∃ tok, tok ∈ split_ws_go cur s ∧ occurs h tok.
Proof.
  induction s as [|c s IH]; intros cur Hne Hh Ho; simpl.
  - rewrite str_app_nil_r in Ho.
    destruct cur as [|x cur].
    + destruct Ho as (pre & post & Heq). symmetry in Heq.
      apply str_app_eq_nil in Heq as [_ [? _]%str_app_eq_nil]. done.
    + exists (String x cur). split; [apply list_elem_of_here|done].
  - destruct (is_space c) eqn:Hc.
    + apply occurs_across_space in Ho as [Ho|Ho]; [| |done..].
      * destruct cur as [|x cur].
        -- destruct Ho as (pre & post & Heq). symmetry in Heq.
           apply str_app_eq_nil in Heq as [_ [? _]%str_app_eq_nil]. done.
        -- exists (String x cur). split; [|done].
           apply elem_of_app. left. apply list_elem_of_here.
      * destruct (IH EmptyString Hne Hh Ho) as (tok & Htok & Hin).
        exists tok. split; [|done]. apply elem_of_app. by right.
    + apply IH; [done..|]. by rewrite str_app_assoc.
Qed.

Lemma lower_char_idemp c : lower_char (lower_char c) = lower_char c.
Proof. by destruct c as [[] [] [] [] [] [] [] []]; vm_compute. Qed.

Lemma lower_fixed s :
  all_chars (λ c, bool_decide (lower_char c = c)) s = true → lower s = s.
Proof.
  induction s as [|c s IH]; [done|]. simpl.
  intros [Hc Hs]%andb_true_iff. apply bool_decide_eq_true in Hc.
  by rewrite Hc, IH.
Qed.

Lemma lower_all_fixed s :
  all_chars (λ c, bool_decide (lower_char c = c)) (lower s) = true.
Proof.
  induction s as [|c s IH]; [done|]. simpl. rewrite IH, andb_true_r.
  apply bool_decide_eq_true, lower_char_idemp.
Qed.

(** A keyword without white space is in some token of the lowered line
    exactly when it is in the lowered line. *)
Lemma keyword_in_token h line :
  h ≠ EmptyString → all_chars (λ x, negb (is_space x)) h = true →
  existsb (λ part, contains h (lower part)) (split_ws (lower line))
    = contains h (lower line).
Proof.
  intros Hne Hh.
  assert (∀ tok, tok ∈ split_ws (lower line) → lower tok = tok) as Hlow.
  { intros tok Htok%split_ws_go_occurs. rewrite str_app_nil_l in Htok.
    apply lower_fixed.
    exact (all_chars_occurs _ _ _ Htok (lower_all_fixed line)). }
  destruct (contains h (lower line)) eqn:E.
  - apply contains_occurs in E.
    destruct (split_ws_go_token h (lower line) EmptyString Hne Hh)
      as (tok & Htok & Hin); [by rewrite str_app_nil_l|].
    apply existsb_exists. exists tok. split; [by apply list_elem_of_In|].
    rewrite (Hlow tok Htok). by apply contains_occurs.
  - apply not_true_iff_false. intros (tok & Htok%list_elem_of_In & Hc)%existsb_exists.
    rewrite (Hlow tok Htok) in Hc. apply contains_occurs in Hc.
    apply split_ws_go_occurs in Htok. rewrite str_app_nil_l in Htok.
    assert (contains h (lower line) = true) as Hcon.
    { apply contains_occurs. by eapply occurs_trans. }
    congruence.
Qed.

End HeaderFacts.

(** ** The column split *)

Module SplitFacts.
Import Py PyFacts Re ReFacts Spec FieldFacts RegexOcr BatchFacts RowFacts.
Import ExtractFacts LineFacts OrderFacts FreightFacts.
Import FieldValueFacts SearchFacts ShapeFacts TableFacts HeaderFacts.

(** *** Greedy repetition of a character class *)

Lemma rep_chr_step p fuel lo ch s caps k :
  rep (run (Chr p)) (S fuel) lo None (String ch s) caps k =
    let stop := match lo with 0 => k (String ch s) caps | S _ => None end in
    if p ch then
      match rep (run (Chr p)) fuel (pred lo) None s caps k with
      | Some a => Some a
      | None => stop
      end
    else stop.
Proof.
  cbn [rep run]. destruct (p ch); [|done].
  assert ((String.length s <? String.length (String ch s)) = true) as ->
    by (apply Nat.ltb_lt; simpl; lia).
  reflexivity.
Qed.

Lemma rep_chr_empty p fuel lo caps k :
  rep (run (Chr p)) fuel lo None EmptyString caps k
    = match lo with 0 => k EmptyString caps | S _ => None end.
Proof. by destruct fuel. Qed.

(** With nothing after it that can fail, a repeated class reads every
    character of the class that is there. *)
Lemma rep_chr_greedy p start fuel : ∀ lo s caps post caps',
  String.length s < fuel →
  rep (run (Chr p)) fuel lo None s caps (accept false start) = Some (post, caps') →
  ∀ c, first_char post = Some c → p c = false.
Proof.
  induction fuel as [|fuel IH]; intros lo s caps post caps' Hfuel H c Hc; [lia|].
  destruct s as [|ch s].
  - rewrite rep_chr_empty in H. destruct lo; [|done].
    apply accept_inv in H as [= -> _]. done.
  - rewrite rep_chr_step in H. cbv zeta in H. simpl in Hfuel.
    destruct (p ch) eqn:Hch.
    + destruct (rep (run (Chr p)) fuel (pred lo) None s caps (accept false start))
        as [a|] eqn:E.
      * injection H as ->. eapply IH; [|exact E|exact Hc]. lia.
      * destruct lo; [|done]. exfalso. revert E.
        by apply rep_stop_succeeds.
    + destruct lo; [|done]. apply accept_inv in H as [= -> _].
      injection Hc as <-. done.
Qed.

(** *** The column separator *)

Lemma tab_is_space : is_space "009" = true.
Proof. reflexivity. Qed.

Lemma column_sep_inv w caps caps' :
  matches COLUMN_SEP w caps caps' →
  all_chars is_space w = true ∧ w ≠ EmptyString.
Proof.
  unfold COLUMN_SEP. intros [H|H]%matches_alt_inv.
  - apply matches_rep_chr in H as (Hall & Hlen & _). split; [done|].
    intros ->. simpl in Hlen. lia.
  - by apply matches_lit_inv in H as [-> _].
Qed.

Lemma column_sep_two c1 c2 s pre :
  is_space c1 = true → is_space c2 = true →
  is_Some (match_at COLUMN_SEP false pre (String c1 (String c2 s))).
Proof.
  intros H1 H2.
  change (String c1 (String c2 s))
    with (String c1 (String c2 EmptyString) +:+ s).
  eapply (match_at_complete COLUMN_SEP _ s pre [] []).
  apply matches_alt_l. apply matches_rep_chr_intro; [|simpl; lia|done].
  simpl. by rewrite H1, H2.
Qed.

Lemma column_sep_tab s pre :
  is_Some (match_at COLUMN_SEP false pre (String "009" s)).
Proof.
  change (String "009" s) with (String "009" EmptyString +:+ s).
  eapply (match_at_complete COLUMN_SEP _ s pre [] []).
  apply matches_alt_r. by constructor.
Qed.

Lemma match_at_pre r b pre pre' s :
  match_at r b pre s = None → match_at r b pre' s = None.
Proof. unfold match_at. by destruct (run r s [] (accept b s)) as [[??]|]. Qed.

(** After a column separator comes no white space. *)
Lemma column_sep_greedy pre s m :
  match_at COLUMN_SEP false pre s = Some m →
  ∀ c, first_char (m_post m) = Some c → is_space c = false.
Proof.
  unfold match_at.
  destruct (run COLUMN_SEP s [] (accept false s)) as [[post caps]|] eqn:H;
    [|done].
  intros [= <-] c Hc. simpl in Hc.
  unfold COLUMN_SEP, at_least in H. cbn [run] in H.
  destruct (rep (run ws) (S (String.length s)) 2 None s [] (accept false s))
    as [a|] eqn:E.
  - change (Some a = Some (post, caps)) in H. injection H as ->.
    unfold ws in E.
    eapply rep_chr_greedy; [|exact E|exact Hc]. lia.
  - change (run (lit "009") s [] (accept false s) = Some (post, caps)) in H.
    unfold lit in H. cbn [run] in H. destruct s as [|x s]; [done|].
    destruct (bool_decide (x = "009"%char)) eqn:Hx; [|done].
    apply bool_decide_eq_true in Hx as ->.
    apply accept_inv in H as [= -> _].
    destruct (is_space c) eqn:Hsp; [exfalso|done].
    destruct s as [|c' s]; [done|]. injection Hc as ->.
    pose proof (run_complete (at_least 2 ws)
                  (String "009" (String c EmptyString)) [] [] s
                  (accept false (String "009" (String c s))) []) as Hrun.
    apply Hrun.
    + apply matches_rep_chr_intro; [|simpl; lia|done]. simpl. by rewrite Hsp.
    + done.
    + exact E.
Qed.

(** *** What the search skips *)

Lemma search_from_skipped r s : ∀ pre m,
  search_from r false pre s = Some m →
  ∃ sk,
    m_pre m = pre +:+ sk ∧ s = sk +:+ m_text m +:+ m_post m ∧
    match_at r false (m_pre m) (m_text m +:+ m_post m) = Some m ∧
    ∀ a b pre', sk = a +:+ b → b ≠ EmptyString →
      match_at r false pre' (b +:+ m_text m +:+ m_post m) = None.
Proof.
  induction s as [|c s IH]; intros pre m H; rewrite search_from_eq in H.
  - destruct (match_at r false pre EmptyString) as [m0|] eqn:E; [|done].
    injection H as ->. pose proof E as (Hs & Hp & _)%match_at_sound.
    exists EmptyString. rewrite str_app_nil_r, str_app_nil_l, Hp, <-Hs.
    split_and!; [done..|].
    intros a b pre' Hab Hb. symmetry in Hab.
    by apply str_app_eq_nil in Hab as [_ ?].
  - destruct (match_at r false pre (String c s)) as [m0|] eqn:E.
    + injection H as ->. pose proof E as (Hs & Hp & _)%match_at_sound.
      exists EmptyString. rewrite str_app_nil_r, str_app_nil_l, Hp, <-Hs.
      split_and!; [done..|].
      intros a b pre' Hab Hb. symmetry in Hab.
      by apply str_app_eq_nil in Hab as [_ ?].
    + destruct (IH _ _ H) as (sk & Hpre & Hs & Hm & Hsk).
      exists (String c sk). split_and!.
      * rewrite Hpre. by rewrite str_app_assoc.
      * by rewrite str_app_cons, <-Hs.
      * done.
      * intros a b pre' Hab Hb. destruct a as [|x a].
        -- rewrite str_app_nil_l in Hab. subst b.
           rewrite str_app_cons, <-Hs. by eapply match_at_pre.
        -- rewrite str_app_cons in Hab. injection Hab as <- Hab.
           by eapply Hsk.
Qed.

Lemma search_from_none r s : ∀ pre,
  search_from r false pre s = None →
  ∀ a b pre', s = a +:+ b → match_at r false pre' b = None.
Proof.
  induction s as [|c s IH]; intros pre H a b pre' Hab;
    rewrite search_from_eq in H.
  - symmetry in Hab. apply str_app_eq_nil in Hab as [_ ->].
    destruct (match_at r false pre EmptyString) eqn:E; [done|].
    by eapply match_at_pre.
  - destruct (match_at r false pre (String c s)) eqn:E; [done|].
    destruct a as [|x a].
    + rewrite str_app_nil_l in Hab. subst b. by eapply match_at_pre.
    + rewrite str_app_cons in Hab. injection Hab as <- Hab.
      by eapply IH.
Qed.

(** A stretch of text in which the separator matches nowhere. *)
Lemma unmatched_clean tail p :
  (∀ a b pre', p = a +:+ b → b ≠ EmptyString →
     match_at COLUMN_SEP false pre' (b +:+ tail) = None) →
  all_chars not_tab p = true ∧ no_double_space p = true ∧
  ∀ c x t, last_char p = Some c → tail = String x t → is_space x = true →
    is_space c = false.
Proof.
  induction p as [|c p IH]; intros Hun; [done|].
  destruct IH as (IH1 & IH2 & IH3).
  { intros a b pre' -> Hb. apply (Hun (String c a)); [by rewrite str_app_cons|done]. }
  pose proof (Hun EmptyString (String c p) EmptyString eq_refl ltac:(done))
    as Hhere.
  rewrite str_app_cons in Hhere.
  split_and!.
  - cbn [all_chars]. rewrite IH1, andb_true_r.
    unfold not_tab. apply negb_true_iff, bool_decide_eq_false. intros ->.
    destruct (column_sep_tab (p +:+ tail) EmptyString) as [m Hm]. congruence.
  - cbn [no_double_space]. rewrite IH2, andb_true_r.
    destruct p as [|c2 p]; [done|].
    apply negb_true_iff, not_true_iff_false. intros [H1 H2]%andb_true_iff.
    rewrite str_app_cons in Hhere.
    destruct (column_sep_two c c2 (p +:+ tail) EmptyString H1 H2) as [m Hm].
    congruence.
  - intros c' x t Hl -> Hx. destruct p as [|c2 p].
    + injection Hl as <-. rewrite str_app_nil_l in Hhere.
      destruct (is_space c) eqn:Hc; [|done].
      destruct (column_sep_two c x t EmptyString Hc Hx) as [m Hm]. congruence.
    + by eapply IH3.
Qed.

(** *** The pieces of a split line *)

Lemma scan_pieces_clean fuel : ∀ s,
  String.length s < fuel → s ≠ EmptyString →
  (∀ c, first_char s = Some c → is_space c = false) →
  (∀ c, last_char s = Some c → is_space c = false) →
  Forall clean_field (split_pieces (scan fuel COLUMN_SEP false s) s).
Proof.
  induction fuel as [|fuel IH]; intros s Hfuel Hne Hfirst Hlast; [lia|].
  cbn [scan].
  destruct (search_from COLUMN_SEP false EmptyString s) as [m|] eqn:E.
  - destruct (search_from_skipped _ _ _ _ E) as (sk & Hpre & Hs & Hm & Hsk).
    rewrite str_app_nil_l in Hpre.
    pose proof Hm as (_ & _ & Hmatch)%match_at_sound.
    apply column_sep_inv in Hmatch as [Hws Htext].
    destruct (m_text m) as [|x t] eqn:Ht; [done|]. clear Htext.
    simpl in Hws. apply andb_true_iff in Hws as [Hx Hws].
    destruct (unmatched_clean (String x t +:+ m_post m) sk) as (H1 & H2 & H3).
    { intros a b pre' Hab Hb. by eapply Hsk. }
    assert (sk ≠ EmptyString) as Hsk_ne.
    { intros ->. rewrite str_app_nil_l, str_app_cons in Hs.
      rewrite Hs in Hfirst. by rewrite (Hfirst x eq_refl) in Hx. }
    assert (m_post m ≠ EmptyString) as Hpost_ne.
    { intros Hp. rewrite Hp, str_app_nil_r in Hs.
      assert (last_char s = last_char (String x t)) as Hl.
      { rewrite Hs. by apply last_char_app. }
      destruct (last_char (String x t)) as [y|] eqn:Hy.
      - pose proof (last_char_all is_space (String x t) y) as Hall.
        simpl in Hall. rewrite Hx, Hws in Hall.
        rewrite (Hlast y Hl) in Hall. by specialize (Hall eq_refl Hy).
      - clear -Hy. revert x Hy. induction t as [|z t IHt]; intros x Hy; [done|].
        by apply (IHt z). }
    cbn [split_pieces]. apply Forall_cons. split.
    + rewrite Hpre. split_and!; [done| |done..].
      apply strip_id.
      * intros c Hc. apply Hfirst. rewrite Hs. by rewrite first_char_app.
      * intros c Hc. by eapply (H3 c x (t +:+ m_post m)).
    + replace (is_empty (String x t)) with false by done.
      apply IH; [|done| |].
      * rewrite Hs, !str_length_app in Hfuel. simpl in Hfuel.
        destruct sk; [done|]. simpl in Hfuel. lia.
      * intros c. eapply column_sep_greedy. exact Hm.
      * intros c Hc. apply Hlast. rewrite Hs.
        rewrite !last_char_app; done.
  - cbn [split_pieces]. apply Forall_singleton.
    destruct (unmatched_clean EmptyString s) as (H1 & H2 & _).
    { intros a b pre' Hab Hb. rewrite str_app_nil_r.
      by eapply search_from_none. }
    split_and!; [done| |done..]. by apply strip_id.
Qed.

Lemma row_fields_clean line :
  strip line ≠ EmptyString → Forall clean_field (row_fields line).
Proof.
  intros Hne. unfold row_fields, split, finditer.
  apply scan_pieces_clean; [lia|done|apply strip_first|apply strip_last].
Qed.

(** What holds for the fields of every line holds for the items. *)
Lemma line_loop_invariant (Q : list string → Prop) lines :
  (∀ line, 4 ≤ length (row_fields line) → Q (take 5 (row_fields line))) →
  ∀ header_found items,
    Forall Q items → Forall Q (line_loop lines header_found items).
Proof.
  intros HQ. induction lines as [|line rest IH]; intros hf items Hitems; [done|].
  cbn [line_loop].
  destruct (negb hf && is_header line); [by apply IH|].
  destruct hf; [|by apply IH].
  destruct (ends_table line); [done|].
  destruct (4 <=? length (row_fields line)) eqn:E; [|by apply IH].
  apply IH. apply Forall_app. split; [done|].
  apply Forall_singleton, HQ. by apply Nat.leb_le.
Qed.

End SplitFacts.

(** ** The labels of the fields *)

Module LabelFacts.
Import Py PyFacts Re ReFacts Spec FieldFacts RegexOcr BatchFacts RowFacts.
Import ExtractFacts LineFacts OrderFacts FreightFacts.
Import FieldValueFacts SearchFacts ShapeFacts TableFacts.

Lemma starts_word kw words w caps caps' :
  lower kw ∈ words → matches (word_i kw) w caps caps' →
  starts_with_one_of words w.
Proof.
  intros Hkw [Hw _]%word_i_inv. exists w, EmptyString.
  rewrite str_app_nil_r, Hw. done.
Qed.

Lemma starts_word_cat kw r words w caps caps' :
  lower kw ∈ words → matches (Cat (word_i kw) r) w caps caps' →
  starts_with_one_of words w.
Proof.
  intros Hkw (w0 & w' & c1 & -> & [Hw _]%word_i_inv & _)%matches_cat_inv.
  exists w0, w'. by rewrite Hw.
Qed.

(** A match of a pattern that starts with its label group holds a label
    word where it starts. *)
Lemma label_in_text label rest words text m :
  (∀ w c c', matches label w c c' → starts_with_one_of words w) →
  search (Cat (Group 1 label) rest) text = Some m →
  ∃ w, occurs w text ∧ lower w ∈ words.
Proof.
  intros Hlabel Hs.
  pose proof (search_occurs _ _ _ Hs) as Ho.
  apply search_sound in Hs.
  apply matches_cat_inv in Hs as (w1 & w2 & c1 & Hw & H1 & _).
  apply matches_group_inv in H1 as (c2 & _ & H1).
  apply Hlabel in H1 as (w0 & w' & -> & Hin).
  exists w0. split; [|done].
  eapply occurs_trans; [|exact Ho]. rewrite Hw, str_app_assoc.
  exists EmptyString, (w' +:+ w2). done.
Qed.

Lemma date_label text m :
  search DATE_PATTERN text = Some m →
  ∃ w, occurs w text ∧ lower w ∈ ["invoice"; "date"].
Proof.
  unfold DATE_PATTERN. cbn [cats alts]. apply label_in_text.
  intros w c c' H;
    repeat match type of H with
           | matches (Alt _ _) _ _ _ => apply matches_alt_inv in H as [H|H]
           end;
    (first [eapply starts_word; [|exact H]
           |eapply starts_word_cat; [|exact H]]);
    apply list_elem_of_In; vm_compute; auto 10.
Qed.

Lemma due_date_label text m :
  search DUE_DATE_PATTERN text = Some m →
  ∃ w, occurs w text ∧ lower w ∈ ["due"].
Proof.
  unfold DUE_DATE_PATTERN. cbn [cats alts]. apply label_in_text.
  intros w c c' H;
    repeat match type of H with
           | matches (Alt _ _) _ _ _ => apply matches_alt_inv in H as [H|H]
           end;
    (first [eapply starts_word; [|exact H]
           |eapply starts_word_cat; [|exact H]]);
    apply list_elem_of_In; vm_compute; auto 10.
Qed.

Lemma total_label text m :
  search TOTAL_PATTERN text = Some m →
  ∃ w, occurs w text ∧ lower w ∈ ["grand"; "total"; "amount"].
Proof.
  unfold TOTAL_PATTERN. cbv zeta. cbn [cats alts].
  apply label_in_text.
  intros w c c' H;
    repeat match type of H with
           | matches (Alt _ _) _ _ _ => apply matches_alt_inv in H as [H|H]
           end;
    (first [eapply starts_word; [|exact H]
           |eapply starts_word_cat; [|exact H]]);
    apply list_elem_of_In; vm_compute; auto 10.
Qed.

Lemma supplier_label text m :
  search SUPPLIER_PATTERN text = Some m →
  ∃ w, occurs w text ∧ lower w ∈ ["from"; "seller"; "vendor"; "supplier"].
Proof.
  unfold SUPPLIER_PATTERN. cbn [cats alts]. apply label_in_text.
  intros w c c' H;
    repeat match type of H with
           | matches (Alt _ _) _ _ _ => apply matches_alt_inv in H as [H|H]
           end;
    (first [eapply starts_word; [|exact H]
           |eapply starts_word_cat; [|exact H]]);
    apply list_elem_of_In; vm_compute; auto 10.
Qed.

Lemma abn_label text m :
  search ABN_PATTERN text = Some m →
  ∃ w, occurs w text ∧ lower w ∈ ["abn"; "gst"; "vat"; "tax"].
Proof.
  unfold ABN_PATTERN. cbv zeta. cbn [cats alts].
  apply label_in_text.
  intros w c c' H;
    repeat match type of H with
           | matches (Alt _ _) _ _ _ => apply matches_alt_inv in H as [H|H]
           end;
    (first [eapply starts_word; [|exact H]
           |eapply starts_word_cat; [|exact H]]);
    apply list_elem_of_In; vm_compute; auto 10.
Qed.

Lemma po_label text m :
  search PO_PATTERN text = Some m →
  ∃ w, occurs w text ∧ lower w ∈ ["po"; "purchase"; "reference"].
Proof.
  unfold PO_PATTERN. cbv zeta. cbn [cats alts].
  apply label_in_text.
  intros w c c' H;
    repeat match type of H with
           | matches (Alt _ _) _ _ _ => apply matches_alt_inv in H as [H|H]
           end;
    (first [eapply starts_word; [|exact H]
           |eapply starts_word_cat; [|exact H]]);
    apply list_elem_of_In; vm_compute; auto 10.
Qed.

Lemma captured_some r text :
  captured r text ≠ EmptyString → ∃ m, search r text = Some m.
Proof. unfold captured. destruct (search r text); [eauto|done]. Qed.

Lemma same_i_lower w : same_i w (lower w) = true.
Proof.
  unfold same_i. apply andb_true_iff. split.
  - apply bool_decide_eq_true. induction w; simpl; congruence.
  - induction w as [|c w IH]; [done|]. cbn [lower starts_with_i].
    rewrite IH, andb_true_r. unfold same_char_i.
    apply bool_decide_eq_true. symmetry. apply HeaderFacts.lower_char_idemp.
Qed.

End LabelFacts.

(** ** The last match of a scan *)

Module LastMatchFacts.
Import Py PyFacts Re ReFacts Spec FieldFacts RegexOcr BatchFacts RowFacts.
Import ExtractFacts LineFacts OrderFacts FreightFacts.
Import FieldValueFacts SearchFacts ShapeFacts AnchorFacts.

(** After the last match of a scan the expression matches nowhere. *)
Lemma scan_last r fuel :
  (∀ w c c', matches r w c c' → w ≠ EmptyString) →
  ∀ s b m,
    String.length s < fuel → last (scan fuel r b s) = Some m →
    (∃ a, s = a +:+ m_text m +:+ m_post m) ∧
    search_from r false EmptyString (m_post m) = None.
Proof.
  intros Hne. induction fuel as [|fuel IH]; intros s b m Hfuel Hlast; [lia|].
  cbn [scan] in Hlast.
  destruct (search_from r b EmptyString s) as [m0|] eqn:E; [|done].
  pose proof E as [Hs Hm]%search_from_sound. rewrite str_app_nil_l in Hs.
  pose proof (Hne _ _ _ Hm) as Htext.
  assert (is_empty (m_text m0) = false) as Hb by (by destruct (m_text m0)).
  rewrite Hb in Hlast.
  assert (String.length (m_post m0) < fuel) as Hlen.
  { rewrite Hs, !str_length_app in Hfuel.
    destruct (m_text m0); [done|]. simpl in Hfuel. lia. }
  destruct (scan fuel r false (m_post m0)) as [|m1 l] eqn:El.
  - injection Hlast as <-. split; [by exists (m_pre m0)|].
    destruct fuel as [|fuel']; [lia|]. cbn [scan] in El.
    by destruct (search_from r false EmptyString (m_post m0)).
  - assert (last (scan fuel r false (m_post m0)) = Some m) as Hl.
    { rewrite El. exact Hlast. }
    destruct (IH _ _ _ Hlen Hl) as [[a Ha] Hnone]. split; [|done].
    exists (m_pre m0 +:+ m_text m0 +:+ a).
    rewrite Hs, Ha. by rewrite !str_app_assoc.
Qed.

Lemma freight_pattern_nonempty w c c' :
  matches FREIGHT_PATTERN w c c' → w ≠ EmptyString.
Proof.
  intros Hm.
  destruct (matches_last_group FREIGHT_PATTERN 3 _ w c c' eq_refl Hm)
    as (pre & t & c0 & c1 & -> & _ & Hb).
  apply freight_amount_nonempty in Hb.
  by intros [_ ?]%str_app_eq_nil.
Qed.

(** Behind the freight amount the text holds no digit. *)
Lemma freight_value_is_last_number text :
  all_chars not_digit text = false →
  ∃ a b, text = a +:+ freight_value text +:+ b ∧
         all_chars not_digit b = true ∧
         all_chars not_digit (freight_value text) = false.
Proof.
  intros Hd. destruct (freight_value_from_text text Hd) as [_ Hv].
  unfold freight_value in *.
  destruct (last (finditer FREIGHT_PATTERN text)) as [m|] eqn:El.
  - assert (m ∈ finditer FREIGHT_PATTERN text) as Hin
      by (by apply last_Some_elem_of).
    destruct (scan_last FREIGHT_PATTERN (2 * String.length text + 2)
                freight_pattern_nonempty text false m ltac:(lia) El)
      as [[a Ha] Hnone].
    apply freight_search_none in Hnone.
    destruct (finditer_freight_group text m Hin) as (t & Hg & Hs).
    pose proof (finditer_sound _ _ _ Hin) as Hm.
    destruct (matches_last_group FREIGHT_PATTERN 3 _ _ _ _ eq_refl Hm)
      as (pre & t' & c0 & c1 & Hw & Hcaps & _).
    assert (t' = t) as ->.
    { unfold group in Hg. rewrite Hcaps, lookup_group_head in Hg. congruence. }
    unfold group_or_empty in *. rewrite Hg in *. simpl in *. rewrite Hs in *.
    exists (a +:+ pre), (m_post m). split_and!; [|done..].
    rewrite Ha, Hw. by rewrite !str_app_assoc.
  - apply last_None in El. apply finditer_nil_iff, freight_search_none in El.
    congruence.
Qed.

End LastMatchFacts.

(** ** The properties *)

Module Extras.
Import Py PyFacts Re ReFacts Spec FieldFacts RegexOcr BatchFacts RowFacts.
Import ExtractFacts LineFacts OrderFacts FreightFacts.
Import FieldValueFacts SearchFacts ShapeFacts AnchorFacts TableFacts CsvFacts.
Import WorldFacts OrderTableFacts AmountFacts HeaderFacts SplitFacts LabelFacts.
Import LastMatchFacts.

(** *** extract_fields *)

(** X1. Every value of the record [extract_fields] returns is trimmed:
    stripping it again changes nothing.  This holds for the values the
    code strips, and also for [order_number], which is joined from
    matches that are digits only. *)
Theorem extract_fields_values_trimmed (text : string) :
  ∃ d, extract_fields text = Ok d ∧ Forall (λ kv, strip kv.2 = kv.2) d.
Proof.
  eexists. split; [apply extract_fields_values|].
  repeat apply Forall_cons_2; simpl;
    try apply captured_stripped.
  - apply order_value_stripped.
  - apply freight_stripped.
  - apply supplier_stripped.
  - constructor.
Qed.

(** X2. [invoice_number] and [po_number] are each either empty or a run
    of four or more characters that the class [[A-Z0-9\-\/]] matches under
    [(?i)] (letters, digits, [-] and [/]), which stands in the text.  The
    invoice label is optional in the pattern, so [invoice_number] is empty
    exactly when the text has no four characters in a row that the class
    matches.  Among the code points of the text of the model, [ident] is
    that class: [A-Z], [a-z], [0-9], [-] and [/]. *)
Theorem identifier_fields (text : string) :
  ∃ d inv po,
    extract_fields text = Ok d ∧
    dict_get d "invoice_number" = Ok inv ∧
    dict_get d "po_number" = Ok po ∧
    (inv = EmptyString ∨ identifier_in text inv) ∧
    (po = EmptyString ∨ identifier_in text po) ∧
    (inv = EmptyString ↔
       ∀ w, occurs w text → String.length w = 4 → all_chars ident w = false).
Proof.
  eexists _, (captured INVOICE_PATTERN text), (captured PO_PATTERN text).
  split; [apply extract_fields_values|].
  split; [reflexivity|]. split; [reflexivity|].
  pose proof (identifier_captured INVOICE_PATTERN text eq_refl) as Hinv.
  pose proof (identifier_captured PO_PATTERN text eq_refl) as Hpo.
  split_and!.
  - destruct Hinv as [[_ ?]|[_ ?]]; [by left|by right].
  - destruct Hpo as [[_ ?]|[_ ?]]; [by left|by right].
  - split.
    + intros Hv w Ho Hlen.
      destruct (all_chars ident w) eqn:Hall; [exfalso|done].
      destruct Hinv as [[Hnone _]|[Hne _]]; [|done].
      destruct (search_complete INVOICE_PATTERN w text [] [(2, w)])
        as [m Hm]; [apply invoice_pattern_run; [done|lia]|done|congruence].
    + intros Hno. destruct Hinv as [[_ ?]|[_ (Hlen & Hall & Ho)]]; [done|].
      exfalso.
      pose proof (occurs_take 4 (captured INVOICE_PATTERN text)) as Ht.
      pose proof (all_chars_occurs ident _ _ Ht Hall) as Ha.
      rewrite (Hno (take_str 4 (captured INVOICE_PATTERN text))) in Ha.
      * done.
      * by eapply occurs_trans.
      * by apply take_str_length.
Qed.

(** X3. [invoice_date] and [due_date] are each either empty or a piece of
    the text of the shape digits, separator, digits, separator, digits
    with 1-2, 1-2 and 2-4 digits and separators among [/], [-] and [.];
    nothing else about the date is checked. *)
Theorem date_fields (text : string) :
  ∃ d issued due,
    extract_fields text = Ok d ∧
    dict_get d "invoice_date" = Ok issued ∧
    dict_get d "due_date" = Ok due ∧
    (issued = EmptyString ∨ (is_date issued ∧ occurs issued text)) ∧
    (due = EmptyString ∨ (is_date due ∧ occurs due text)).
Proof.
  eexists _, (captured DATE_PATTERN text), (captured DUE_DATE_PATTERN text).
  split; [apply extract_fields_values|].
  split; [reflexivity|]. split; [reflexivity|].
  split; by apply date_captured.
Qed.

(** X4. [supplier] is a piece of one line of the text: it stands in the
    text and holds no newline. *)
Theorem supplier_is_one_line (text : string) :
  ∃ d v,
    extract_fields text = Ok d ∧
    dict_get d "supplier" = Ok v ∧
    all_chars not_newline v = true ∧ occurs v text.
Proof.
  eexists _, (supplier_name text).
  split; [apply extract_fields_values|]. split; [reflexivity|].
  unfold supplier_name.
  destruct (search SUPPLIER_PATTERN text) as [m|] eqn:E.
  - destruct (last_group_occurs SUPPLIER_PATTERN 2 _ text m eq_refl)
      as (t & c0 & c1 & Hg & Hb & Ho).
    + by apply (search_occurs SUPPLIER_PATTERN).
    + by apply search_sound in E.
    + apply matches_rep_chr in Hb as (Hall & _).
      unfold group_or_empty. rewrite Hg. simpl.
      unfold split_sep. rewrite split_sep_go_no_newline by exact Hall.
      simpl. split.
      * by apply all_chars_strip.
      * eapply occurs_trans; [apply strip_occurs|done].
  - split; [done|]. by exists EmptyString, text.
Qed.

(** X5. The freight label is optional in the pattern, so any number is
    an amount: the list of matches is empty, and [freight_inc_gst] is the
    default [0.00], exactly when the text holds no digit at all.  As soon
    as it holds one, [freight_inc_gst] is the last number of the text,
    whatever it stands for: a piece of the text with a digit in it, behind
    which the text holds no further digit. *)
Theorem freight_is_last_number (text : string) :
  ∃ d v,
    extract_fields text = Ok d ∧
    dict_get d "freight_inc_gst" = Ok v ∧
    (findall 3 FREIGHT_PATTERN text = [] ↔ all_chars not_digit text = true) ∧
    (if all_chars not_digit text then v = "0.00"
     else ∃ a b, text = a +:+ v +:+ b ∧
                 all_chars not_digit b = true ∧
                 all_chars not_digit v = false).
Proof.
  eexists _, (freight_value text).
  split; [apply extract_fields_values|]. split; [reflexivity|].
  assert (findall 3 FREIGHT_PATTERN text = []
          ↔ all_chars not_digit text = true) as Hiff.
  { rewrite <-freight_search_none, <-finditer_nil_iff. unfold findall.
    split; [apply fmap_nil_inv|by intros ->]. }
  split; [exact Hiff|].
  destruct (all_chars not_digit text) eqn:E.
  - apply freight_search_none, finditer_nil_iff in E.
    unfold freight_value. by rewrite E.
  - by apply freight_value_is_last_number.
Qed.

(** X6. The order pattern has no word boundary: every listed order id
    stands in the text, and [order_number] is empty exactly when no place
    of the text reads [3100] and seven digits, be it in the middle of a
    longer number. *)
Theorem order_number_empty_iff_no_id (text : string) :
  (∃ d v,
     extract_fields text = Ok d ∧
     dict_get d "order_number" = Ok v ∧
     (v = EmptyString ↔ ∀ x, is_order_id x → ¬ occurs x text) ∧
     (∀ x, x ∈ findall1 ORDER_PATTERN text → is_order_id x ∧ occurs x text)) ∧
  findall1 ORDER_PATTERN "Ph 0431001234567" = ["31001234567"].
Proof.
  split; [|by vm_compute].
  eexists _, (order_value text).
  split; [apply extract_fields_values|]. split; [reflexivity|].
  split; [|apply findall1_order_inv].
  rewrite order_value_empty_iff. split.
  - intros Hnil x Hid Ho.
    destruct (order_pattern_id x Hid) as [caps Hm].
    destruct (search_complete ORDER_PATTERN x text _ _ Hm Ho) as [m Hs].
    assert (finditer ORDER_PATTERN text = []) as Hf.
    { unfold findall1 in Hnil. by apply fmap_nil_inv in Hnil. }
    apply finditer_nil_iff in Hf. congruence.
  - intros Hno.
    destruct (findall1 ORDER_PATTERN text) as [|x l] eqn:E; [done|].
    exfalso.
    assert (x ∈ findall1 ORDER_PATTERN text) as Hx.
    { rewrite E. apply list_elem_of_here. }
    apply findall1_order_inv in Hx as [Hid Ho]. by apply (Hno x).
Qed.

(** X19. [total_amount] is either empty or of the shape of the amount
    group: an optional currency sign, then one to three digits, then
    nothing or groups led by a comma or a dot.  A run of more than three
    digits without thousands separators is cut after its third digit:
    [12345.67] is captured as [123]. *)
Theorem total_amount_shape (text : string) :
  (∃ d v,
     extract_fields text = Ok d ∧
     dict_get d "total_amount" = Ok v ∧
     (v = EmptyString ∨ is_amount v)) ∧
  ∃ d, extract_fields "Total Amount: 12345.67" = Ok d
       ∧ dict_get d "total_amount" = Ok "123".
Proof.
  split.
  - eexists _, (captured TOTAL_PATTERN text).
    split; [apply extract_fields_values|]. split; [reflexivity|].
    destruct (captured_inv TOTAL_PATTERN _ text eq_refl)
      as [[_ ?]|(t & c0 & c1 & -> & Hm & _)]; [by left|right].
    by eapply total_amount_inv.
  - eexists. split; by vm_compute.
Qed.

(** X20. [abn] is either empty or a piece of the text made of letters,
    digits, hyphens and spaces only.  Letters and spaces belong to the
    class, so the words that follow the number on its line are captured
    with it. *)
Theorem abn_shape (text : string) :
  (∃ d v,
     extract_fields text = Ok d ∧
     dict_get d "abn" = Ok v ∧
     all_chars abn_class v = true ∧ occurs v text) ∧
  ∃ d, extract_fields "ABN 12 345 678 901 Tax Invoice" = Ok d
       ∧ dict_get d "abn" = Ok "12 345 678 901 Tax Invoice".
Proof.
  split.
  - eexists _, (captured ABN_PATTERN text).
    split; [apply extract_fields_values|]. split; [reflexivity|].
    destruct (captured_inv ABN_PATTERN (at_least 8 (Chr abn_class)) text eq_refl)
      as [[_ ->]|(t & c0 & c1 & -> & Hm & Ho)].
    + split; [done|]. by exists EmptyString, text.
    + apply matches_rep_chr in Hm as (Hall & _). split.
      * by apply all_chars_strip.
      * eapply occurs_trans; [apply strip_occurs|done].
  - eexists. split; by vm_compute.
Qed.

(** X24. Six of the nine fields need their label: [invoice_date],
    [due_date], [total_amount], [supplier], [abn] and [po_number] are
    empty unless the text holds one of the words a label of the field
    starts with, where the word is compared as [(?i)] compares, without
    regard to the case of the letters.  ([order_number], [invoice_number]
    and [freight_inc_gst] need none.) *)
Theorem labelled_fields_need_label (text : string) :
  ∃ d,
    extract_fields text = Ok d ∧
    ∀ name words v,
      (name, words) ∈ field_labels → dict_get d name = Ok v →
      v ≠ EmptyString →
      ∃ w kw, occurs w text ∧ kw ∈ words ∧ same_i w kw = true.
Proof.
  eexists. split; [apply extract_fields_values|].
  intros name words v Hin Hget Hv.
  cut (∃ w, occurs w text ∧ lower w ∈ words).
  { intros (w & Ho & Hw). exists w, (lower w).
    split; [done|]. split; [done|]. apply same_i_lower. }
  unfold field_labels in Hin. rewrite !elem_of_cons, elem_of_nil in Hin.
  destruct Hin as [[= -> ->]|[[= -> ->]|[[= -> ->]|[[= -> ->]|[[= -> ->]
    |[[= -> ->]|[]]]]]]];
    cbn [dict_get] in Hget;
    repeat (rewrite decide_False in Hget by done);
    rewrite decide_True in Hget by done; injection Hget as <-.
  - apply captured_some in Hv as [m Hm]. by eapply date_label.
  - apply captured_some in Hv as [m Hm]. by eapply due_date_label.
  - apply captured_some in Hv as [m Hm]. by eapply total_label.
  - unfold supplier_name in Hv.
    destruct (search SUPPLIER_PATTERN text) as [m|] eqn:Hm; [|done].
    by eapply supplier_label.
  - apply captured_some in Hv as [m Hm]. by eapply abn_label.
  - apply captured_some in Hv as [m Hm]. by eapply po_label.
Qed.

(** *** extract_line_items *)

(** X7. Without a header line there is no item: when no line of the text
    is taken for a header, [extract_line_items] returns the empty list,
    whatever the lines look like. *)
Theorem no_header_no_items (text : string) :
  Forall (λ line, is_header line = false) (splitlines text) →
  extract_line_items text = [].
Proof.
  intros Hno. unfold extract_line_items.
  rewrite <-(app_nil_r (splitlines text)).
  by rewrite line_loop_skip.
Qed.

(** A table of rows with no header line above it. *)
Lemma no_header_no_items_witness :
  extract_line_items
    ("Widget   W-1   2   10.00   20.00" +:+ nl +:+ "Gadget   G-7   1   5.00   5.00")
  = [].
Proof.
  apply no_header_no_items. vm_compute. repeat constructor.
Defined.

(** X8. Every item [extract_line_items] returns has four or five fields,
    for every text. *)
Theorem items_have_four_or_five_fields (text : string) :
  Forall (λ item : list string, 4 ≤ length item ≤ 5) (extract_line_items text).
Proof. unfold extract_line_items. apply line_loop_lengths. constructor. Qed.

(** X9. Whether a line ends the item table is a test on the line as it
    stands: the line is blank, or it starts with one of [total],
    [subtotal], [gst] and [grand], compared as [(?i)] compares, without
    regard to the case of the letters.  The line is not stripped before
    the test, so a line that starts with white space ends the table only
    when it is blank. *)
Theorem table_end_is_prefix_test (line : string) :
  ends_table line
    = is_empty (strip line)
      || existsb (λ kw, starts_with_i kw line) table_end_words ∧
  ∀ c s, line = String c s → is_space c = true →
    ends_table line = is_empty (strip line).
Proof.
  assert (existsb (λ kw, starts_with_i kw line) table_end_words
          = existsb (λ kw, String.prefix kw (lower line)) table_end_words)
    as Hi.
  { unfold table_end_words. cbn [existsb].
    by rewrite !starts_with_i_lower by reflexivity. }
  assert (bool_decide (is_Some (re_match TOTALS_LINE line))
          = existsb (λ kw, String.prefix kw (lower line)) table_end_words)
    as Heq.
  { destruct (existsb _ table_end_words) eqn:E in |- *.
    - apply bool_decide_eq_true, totals_line_match.
      apply existsb_exists in E as (kw & Hkw & Hp).
      exists kw. split; [by apply list_elem_of_In|done].
    - apply bool_decide_eq_false. intros (kw & Hkw & Hp)%totals_line_match.
      apply not_true_iff_false in E. apply E, existsb_exists.
      exists kw. split; [by apply list_elem_of_In|done]. }
  split.
  - unfold ends_table. by rewrite Heq, Hi.
  - intros c s -> Hc. unfold ends_table. rewrite Heq.
    replace (existsb _ table_end_words) with false; [apply orb_false_r|].
    symmetry. apply not_true_iff_false.
    intros (kw & Hkw%list_elem_of_In & Hp)%existsb_exists.
    by rewrite space_led_no_word in Hp.
Qed.

(** X21. Only the first table is read: once a header line has been
    seen, the first blank or totals line ends the scan for good, and the
    lines after it, a second header and its rows included, have no
    influence on the items. *)
Theorem lines_after_table_end_ignored (text1 text2 : string)
    (pre : list string) (stop : string) (rest1 rest2 : list string) :
  splitlines text1 = pre ++ stop :: rest1 →
  splitlines text2 = pre ++ stop :: rest2 →
  Exists (λ line, is_header line = true) pre →
  ends_table stop = true →
  extract_line_items text1 = extract_line_items text2.
Proof.
  intros H1 H2 Hh Hstop. unfold extract_line_items. rewrite H1, H2.
  rewrite (line_loop_cut stop rest1), (line_loop_cut stop rest2) by auto.
  done.
Qed.

(** A table followed by a second table, and the same table alone. *)
Lemma lines_after_table_end_ignored_witness :
  let h := "Description  SKU  Qty  Quantity  Unit Price  Amount" in
  extract_line_items
    (join nl [h; "a  b  c  d"; "Total  4"; h; "e  f  g  h"])
  = extract_line_items (join nl [h; "a  b  c  d"; "Total  4"]).
Proof.
  intros h.
  apply (lines_after_table_end_ignored _ _ [h; "a  b  c  d"] "Total  4"
           [h; "e  f  g  h"] []).
  - by vm_compute.
  - by vm_compute.
  - apply Exists_cons_hd. by vm_compute.
  - by vm_compute.
Defined.

(** X22. The split of the line into tokens does not matter for the
    header test: a line is taken for a header line exactly when its
    lower-cased text holds each of the seven keywords somewhere, of which
    [qty] and [quantity] are two. *)
Theorem is_header_substring_test (line : string) :
  is_header line = forallb (λ h, contains h (lower line)) header_keywords ∧
  (is_header line = true →
   contains "qty" (lower line) = true ∧ contains "quantity" (lower line) = true).
Proof.
  assert (is_header line
          = forallb (λ h, contains h (lower line)) header_keywords) as Heq.
  { unfold is_header, header_keywords. cbn [forallb].
    by rewrite !keyword_in_token. }
  split; [exact Heq|].
  rewrite Heq. unfold header_keywords. cbn [forallb].
  rewrite !andb_true_iff. tauto.
Qed.

(** X23. Every field of every item [extract_line_items] returns is
    clean: it is not empty, it neither starts nor ends with white space,
    it holds no tab and no two white-space characters in a row.  (A
    single space inside a field stays.) *)
Theorem item_fields_clean (text : string) :
  Forall (Forall clean_field) (extract_line_items text).
Proof.
  unfold extract_line_items. apply line_loop_invariant; [|constructor].
  intros line Hlen. apply Forall_take, row_fields_clean.
  intros Hblank. unfold row_fields in Hlen. rewrite Hblank in Hlen.
  vm_compute in Hlen. lia.
Qed.

(** *** write_to_csv *)

(** X10. [write_to_csv] raises nothing but [KeyError], and that exactly
    when some record has no [order_number], or has items and no
    [invoice_number]; a short item never makes it fail, and a missing
    [freight_inc_gst] does not either.  When it returns, it has built one
    summary row for every entry and one line-item row for every item. *)
Theorem write_to_csv_outcome (results : list entry) :
  match write_to_csv results with
  | Ok (summary_data, line_data) =>
      forallb writable results = true ∧
      length summary_data = length results ∧
      length line_data = sum_list ((λ e : entry, length e.2.2) <$> results)
  | Raised e => e = KeyError ∧ forallb writable results = false
  end.
Proof.
  unfold write_to_csv. rewrite csv_loop_closed.
  destruct (forallb writable results); [|done].
  split_and!; [done| |].
  - by rewrite app_nil_l, length_fmap.
  - rewrite app_nil_l. apply length_bind_rows.
Qed.

(** X11. The line-item rows [write_to_csv] builds are, entry after entry
    and item after item, the rows with the entry's file name, the position
    of the item counted from 0 within its entry, the order number and the
    invoice number of the record, the first five fields of the item as
    [sku], [description], [qty], [unit_price] and [amount], in this order
    and with the empty string for a field the item lacks, and the freight
    of the record, [0.00] when the record has none. *)
Theorem write_to_csv_line_rows (results : list entry)
    (summary_data : list (dict string)) (line_data : list (dict pyval)) :
  write_to_csv results = Ok (summary_data, line_data) →
  line_data = results ≫= line_rows_for.
Proof.
  unfold write_to_csv. rewrite csv_loop_closed.
  destruct (forallb writable results); [|done].
  intros [= _ <-]. done.
Qed.

(** Two entries: an item of four fields under a record with two order
    ids and no freight, and a record without items. *)
Lemma write_to_csv_line_rows_witness :
  let fields1 := [("order_number", "31000000001, 31000000002");
                  ("invoice_number", "INV-7")] in
  let fields2 := [("order_number", EmptyString)] in
  let results : list entry :=
    [("a.pdf", (fields1, [["W-1"; "Widget"; "2"; "10.00"]]));
     ("b.pdf", (fields2, []))] in
  ∃ summary_data,
    write_to_csv results = Ok (summary_data,
      [[("pdf_filename", Str "a.pdf");
        ("line_index", Int 0);
        ("order_number", Str "31000000001;31000000002");
        ("invoice_number", Str "INV-7");
        ("sku", Str "W-1");
        ("description", Str "Widget");
        ("qty", Str "2");
        ("unit_price", Str "10.00");
        ("amount", Str EmptyString);
        ("freight_inc_gst", Str "0.00")]]).
Proof.
  intros fields1 fields2 results.
  destruct (write_to_csv results) as [[summary_data line_data]|e] eqn:E;
    [|by vm_compute in E].
  exists summary_data. f_equal. f_equal.
  rewrite (write_to_csv_line_rows results summary_data line_data E).
  by vm_compute.
Defined.

(** *** extract_order_numbers *)

(** X16. [extract_order_numbers] returns every order id the pattern
    finds in the text exactly once, and nothing else: the list has no
    duplicate, it has the same members as the list of all matches, and
    each member is [3100] and seven digits.  (The order of the list is
    that of a Python set and is left open.) *)
Theorem extract_order_numbers_distinct (text : string) :
  NoDup (ExtractTextFromPdf.extract_order_numbers text) ∧
  (∀ x, x ∈ ExtractTextFromPdf.extract_order_numbers text
        ↔ x ∈ findall1 ExtractTextFromPdf.ORDER_PATTERN text) ∧
  Forall is_order_id (ExtractTextFromPdf.extract_order_numbers text).
Proof.
  split_and!.
  - apply extract_order_numbers_NoDup.
  - intros x. unfold ExtractTextFromPdf.extract_order_numbers.
    apply elem_of_remove_dups.
  - apply extract_order_numbers_ids.
Qed.

(** *** The pipeline and the batch *)

Section batch.

Variable ocrmypdf : option pdf → ocr_exit.

(** X13. [process_pdf] never raises, and the only file it may write is
    the one in the OCR output directory that has the name of the
    document: every other file is as before, and when the direct text is
    usable nothing changes at all. *)
Theorem process_pdf_footprint (p : Path) (w : world) :
  ∃ r w',
    process_pdf ocrmypdf p w = (Ok r, w') ∧
    (∀ q, q ≠ path_join ocr_output_dir (path_name p) →
       fs w' !! q = fs w !! q) ∧
    (blank (direct_text (fs w !! p)) = false → w' = w).
Proof.
  eexists _, _. split; [apply process_pdf_spec|]. split.
  - intros q Hq. by apply after_process_other.
  - intros Hb. unfold after_process. by rewrite Hb.
Qed.

(** X14. No two summary rows of [main] carry the same [pdf_filename],
    and the rows follow the order in which the input directory lists its
    documents. *)
Theorem main_summary_rows_distinct (w : world) :
  ∃ summary lines w',
    main ocrmypdf w = (Ok (summary, lines), w') ∧
    NoDup ((λ srow, dict_get srow "pdf_filename") <$> summary) ∧
    ((λ srow, dict_get srow "pdf_filename") <$> summary)
      `sublist_of` ((λ p, Ok (path_name p)) <$> documents (fs w)).
Proof.
  destruct (main_spec ocrmypdf w) as [w' Hmain].
  eexists _, _, w'. split; [exact Hmain|].
  assert ((λ srow, dict_get srow "pdf_filename")
            <$> ((λ d, summary_row d.1 d.2) <$> usable_docs ocrmypdf (fs w))
          = (λ p, Ok (path_name p))
            <$> filter (λ p, yields_text ocrmypdf (fs w) p = true)
                       (documents (fs w))) as Heq.
  { unfold usable_docs. rewrite <-!list_fmap_compose.
    apply list_fmap_ext. intros i p _. simpl.
    apply summary_row_filename. }
  rewrite Heq.
  assert (filter (λ p, yields_text ocrmypdf (fs w) p = true) (documents (fs w))
            `sublist_of` documents (fs w)) as Hsub.
  { apply sublist_filter. }
  split.
  - eapply sublist_NoDup; [|by apply fmap_sublist].
    rewrite (list_fmap_compose path_name Ok).
    apply NoDup_fmap_2; [by intros ?? [=]|]. apply documents_NoDup_names.
  - by apply fmap_sublist.
Qed.

(** X15. [main] calls [run_ocr] once for every document of the input
    directory whose direct text is not usable, in the order of the
    directory listing, each time from the document to the file of its name
    in the OCR output directory, and for no other file.  Whether a
    document needs OCR is read off the document as it stands when the
    batch starts: the OCR output of the documents before it does not
    change it, the output directory being another one than the input
    directory. *)
Theorem main_ocr_calls (w : world) :
  ∃ out w',
    main ocrmypdf w = (Ok out, w') ∧
    ocr_calls w' =
      rev (ocr_call <$> needs_ocr (fs w) (documents (fs w))) ++ ocr_calls w.
Proof.
  destruct (main_spec ocrmypdf w) as [w' Hmain].
  pose proof (main_world ocrmypdf w) as Hw. rewrite Hmain in Hw. simpl in Hw.
  eexists _, w'. split; [exact Hmain|]. subst w'.
  apply after_batch_calls; [done|].
  apply Forall_forall. intros p. apply documents_input_dir.
Qed.



End batch.

End Extras.
